(** * SMS provider routing and failover

    A shallow embedding of the provider subsystem of the gateway

      - [src/core/providers/sms/base-sms.provider.ts]  (adapter base class, statistics)
      - [src/core/providers/sms/provider.factory.ts]   (the registry)
      - [src/core/providers/sms/provider.router.ts]    (the failover router)

    Conventions of the embedding.

      - A JavaScript [number] that is only ever an integer counter or an
        integer ranking is a [Z].  A [number] that is a rate, a latency or a
        balance is a double; a finite double is a rational and is held as
        the [Q] it denotes.  A multiplication, division or addition of the
        source is the exact operation followed by the rounding of IEEE 754
        binary64, to the nearest double with ties to even ([round64]).
        [Infinity] and [NaN] are not modelled.
      - An optional property is an [option]; the truthiness tests of the
        source ([x || d], [if (x)], [x ? a : b]) are written out.
      - Provider objects live in the registry [Map]; a provider reference is
        its position in the insertion order of that [Map].
      - [async] functions run to completion one after the other, so a call is
        a state transformer that either returns or throws. *)

From Stdlib Require Import ZArith QArith Qround Qpower Lqa String Ascii List Sorted Permutation
  Lia Bool.
From stdpp Require Import base list strings gmap pretty.

Open Scope string_scope.
Open Scope Z_scope.

(** ** JavaScript values read by the code *)

(** What a [catch (error: any)] clause can be handed.  Anything can be
    thrown, and a promise can be rejected with anything: [null] or
    [undefined], of which no property can be read, or a value of which the
    code reads [message] and [errorCode]; a value without these properties
    has both absent. *)
Inductive thrown : Type :=
| nullish
| mkThrown (message errorCode : option string).

(** [error?.message] and [error?.errorCode]. *)
Definition thrown_message (error : thrown) : option string :=
  match error with
  | nullish => None
  | mkThrown message _ => message
  end.

Definition thrown_errorCode (error : thrown) : option string :=
  match error with
  | nullish => None
  | mkThrown _ errorCode => errorCode
  end.

(** Completion of a call: a returned value or a thrown one. *)
Inductive completion (A : Type) : Type :=
| Normal (a : A)
| Throw (e : thrown).
Arguments Normal {A} a.
Arguments Throw {A} e.

(** The [TypeError] raised by reading a property of [null] or [undefined].
    The wording of its message is the engine's; the properties below speak
    of a [TypeError] without quoting it. *)
Definition cannotReadProperties : thrown :=
  mkThrown (Some "Cannot read properties of undefined (reading 'message')") None.

(** [error.message]. *)
Definition read_message (error : thrown) : completion (option string) :=
  match error with
  | nullish => Throw cannotReadProperties
  | mkThrown message _ => Normal message
  end.

(** Truthiness of an optional string: [undefined] and [''] are falsy. *)
Definition truthy_string (o : option string) : bool :=
  match o with
  | Some s => negb (String.eqb s "")
  | None => false
  end.

(** [o || d] for an optional string [o]. *)
Definition or_string (o : option string) (d : string) : string :=
  match o with
  | Some s => if String.eqb s "" then d else s
  | None => d
  end.

(** [o || d] for an optional integer [o]: [undefined] and [0] are falsy. *)
Definition or_Z (o : option Z) (d : Z) : Z :=
  match o with
  | Some z => if z =? 0 then d else z
  | None => d
  end.

(** Truthiness of a rational number: only zero is falsy. *)
Definition truthy_Q (q : Q) : bool := negb (Qeq_bool q 0).

(** [q || d] for a number [q]. *)
Definition or_Q (q : Q) (d : Q) : Q := if truthy_Q q then q else d.

(** [x > 0] on numbers, used on the result of a compare function. *)
Definition Qpositive (q : Q) : bool := negb (Qle_bool q 0).

(** ** Arithmetic on doubles *)

(** The integer nearest to [x], the even one of the two when [x] lies
    halfway between them. *)
Definition roundHalfEven (x : Q) : Z :=
  let f := Qfloor x in
  match (x - inject_Z f ?= 1 # 2)%Q with
  | Lt => f
  | Gt => f + 1
  | Eq => if Z.even f then f else f + 1
  end.

(** The exponent [k] with [2 ^ k <= q < 2 ^ (k + 1)], for [q > 0]. *)
Definition ilog2 (q : Q) : Z :=
  let k := Z.log2 (Qnum q) - Z.log2 (Zpos (Qden q)) in
  if Qle_bool (2 ^ k) q then k else k - 1.

(** The double nearest to [q > 0].  The doubles between [2 ^ k] and
    [2 ^ (k + 1)] are the multiples of [2 ^ (k - 52)]; below [2 ^ (-1022)]
    they are the multiples of [2 ^ (-1074)]. *)
Definition nearestDouble (q : Q) : Q :=
  let ulp := (2 ^ (Z.max (ilog2 q) (-1022) - 52))%Q in
  (inject_Z (roundHalfEven (q / ulp)) * ulp)%Q.

(** Rounding to binary64: to the nearest double, ties to even.  There is
    no largest double here: a result too large for a double, [Infinity] in
    the source, is outside the model. *)
Definition round64 (q : Q) : Q :=
  let r := Qred q in
  match Qnum r with
  | Z0 => 0%Q
  | Zpos _ => nearestDouble r
  | Zneg _ => (- nearestDouble (- r))%Q
  end.

(** [a * b], [a / b] and [a + b] on doubles [a] and [b]; a division by
    zero, [Infinity] or [NaN] in the source, is outside the model. *)
Definition js_mul (a b : Q) : Q := round64 (a * b).
Definition js_div (a b : Q) : Q := round64 (a / b).
Definition js_add (a b : Q) : Q := round64 (a + b).

Arguments round64 : simpl never.

(** [String.prototype.toLowerCase] on ASCII text. *)
Definition ascii_toLowerCase (c : ascii) : ascii :=
  let n := nat_of_ascii c in
  if ((65 <=? n) && (n <=? 90))%nat then ascii_of_nat (n + 32) else c.

Fixpoint toLowerCase (s : string) : string :=
  match s with
  | EmptyString => EmptyString
  | String c s' => String (ascii_toLowerCase c) (toLowerCase s')
  end.

(** [Array.prototype.includes] on an array of strings. *)
Definition includes (l : list string) (x : string) : bool := bool_decide (x ∈ l).

(** [Array.prototype.sort(comparefn)].  The sort is stable; [after a b] is
    [comparefn(a, b) > 0].  Each element, taken from the right, is moved
    past the already sorted elements it has to come after. *)
Fixpoint sort_insert {A : Type} (after : A -> A -> bool) (x : A) (l : list A) : list A :=
  match l with
  | [] => [x]
  | y :: l' => if after x y then y :: sort_insert after x l' else x :: y :: l'
  end.

Definition Array_sort {A : Type} (after : A -> A -> bool) (l : list A) : list A :=
  foldr (sort_insert after) [] l.

(** ** base-sms.provider.ts: the data model *)

(** [SMSProviderConfig].  The fields [type], [credentials], [config],
    [maxRetries] and [timeout] are not read by the registry or the router. *)
Record SMSProviderConfig : Type := mkConfig {
  name : string;
  supportedCountries : list string;
  supportedNetworks : option (list string);
  priority : option Z
}.

Record SendSMSOptions : Type := mkOptions {
  recipient : string;
  message : string;
  senderId : string;
  messageId : option string
}.

Inductive ResponseStatus : Type :=
| submitted | sent | delivered | failed | rejected
| invalid_parameters | authentication_error | insufficient_credit | provider_error.

Record ProviderResponse : Type := mkResponse {
  success : bool;
  status : ResponseStatus;
  externalId : option string;
  response_message : option string;
  errorCode : option string;
  providerId : string;
  cost : option Q;
  currency : option string;
  metadata : option (list (string * string))
}.

Inductive DeliveryState : Type :=
| delivery_sent | delivery_delivered | delivery_failed | delivery_pending | delivery_unknown.

Record DeliveryStatus : Type := mkDelivery {
  delivery_status : DeliveryState;
  delivery_timestamp : option Z;
  delivery_externalId : string;
  delivery_error : option string
}.

Record ProviderBalance : Type := mkBalance {
  balance : Q;
  balance_currency : string;
  balance_error : option string
}.

Record ProviderStats : Type := mkStats {
  totalSent : Z;
  totalDelivered : Z;
  totalFailed : Z;
  successRate : Q;
  avgLatency : Q;
  lastUsed : option Z
}.

(** The statistics a provider is constructed with. *)
Definition initialStats : ProviderStats :=
  mkStats 0 0 0 0%Q 0%Q None.

(** [BaseSMSProvider.updateStats(success, latency?)]; [now] is the value of
    [new Date()] and [latency] is a double.  The counters are integers
    below [2 ^ 53], on which the arithmetic of doubles is exact; the rate
    and the average are computed on doubles. *)
Definition updateStats (stats : ProviderStats) (ok : bool) (latency : option Q) (now : Z)
  : ProviderStats :=
  let sent := totalSent stats + 1 in
  let delivered := if ok then totalDelivered stats + 1 else totalDelivered stats in
  let failed := if ok then totalFailed stats else totalFailed stats + 1 in
  let rate := js_mul (js_div (inject_Z delivered) (inject_Z sent)) 100 in
  let avg :=
    match latency with
    | Some l =>
        if truthy_Q l
        then
          let totalLatency := js_mul (avgLatency stats) (inject_Z (sent - 1)) in
          js_div (js_add totalLatency l) (inject_Z sent)
        else avgLatency stats
    | None => avgLatency stats
    end in
  mkStats sent delivered failed rate avg (Some now).

(** Result of [healthCheck]. *)
Record Health : Type := mkHealth {
  healthy : bool;
  health_message : string;
  health_balance : option Q
}.

Section Provider.
Context {World : Type}.

(** Outcome of one call of an abstract method: the completion, the
    statistics the provider is left with and the outside world after it. *)
Definition Effect (A : Type) : Type := (completion A * ProviderStats * World)%type.

(** A provider object: its configuration, its statistics and the three
    abstract methods of [BaseSMSProvider], which a subclass implements. *)
Record BaseSMSProvider : Type := mkProvider {
  config : SMSProviderConfig;
  stats : ProviderStats;
  sendSMS : SendSMSOptions -> ProviderStats -> World -> Effect ProviderResponse;
  getDeliveryStatus : string -> ProviderStats -> World -> Effect DeliveryStatus;
  checkBalance : ProviderStats -> World -> Effect ProviderBalance
}.

Definition with_stats (p : BaseSMSProvider) (s : ProviderStats) : BaseSMSProvider :=
  mkProvider (config p) s (sendSMS p) (getDeliveryStatus p) (checkBalance p).

Definition getProviderName (p : BaseSMSProvider) : string := name (config p).

(** [supportsCountry(countryCode)]. *)
Definition supportsCountry (p : BaseSMSProvider) (countryCode : string) : bool :=
  includes (supportedCountries (config p)) countryCode.

(** [supportsNetwork(network)]. *)
Definition supportsNetwork (p : BaseSMSProvider) (network : string) : bool :=
  match supportedNetworks (config p) with
  | None => true
  | Some networks => includes networks network
  end.

(** ** The registry store and the calls made on it *)

(** A call of an abstract method, with the provider it was made on and how
    it completed. *)
Inductive Call : Type :=
| CallSendSMS (provider : nat) (options : SendSMSOptions) (result : completion ProviderResponse)
| CallGetDeliveryStatus (provider : nat) (id : string) (result : completion DeliveryStatus)
| CallCheckBalance (provider : nat) (result : completion ProviderBalance).

(** The process state: the entries of [SMSProviderFactory.providers] in
    insertion order, the outside world, and the calls made so far. *)
Record Heap : Type := mkHeap {
  providers : list (string * BaseSMSProvider);
  world : World;
  calls : list Call
}.

Definition deref (h : Heap) (ref : nat) : option BaseSMSProvider :=
  snd <$> providers h !! ref.

(** Computations on the heap that return or throw. *)
Definition M (A : Type) : Type := Heap -> completion A * Heap.

Definition ret {A : Type} (a : A) : M A := fun h => (Normal a, h).

Definition bind {A B : Type} (m : M A) (k : A -> M B) : M B :=
  fun h =>
    match m h with
    | (Normal a, h') => k a h'
    | (Throw e, h') => (Throw e, h')
    end.

Definition try_catch {A : Type} (body : M A) (handler : thrown -> M A) : M A :=
  fun h =>
    match body h with
    | (Normal a, h') => (Normal a, h')
    | (Throw e, h') => handler e h'
    end.

Definition get_heap : M Heap := fun h => (Normal h, h).

(** A step that does not touch the heap. *)
Definition lift {A : Type} (c : completion A) : M A := fun h => (c, h).

(** Calling a method on something that is not a provider is a [TypeError]. *)
Definition type_error : thrown := mkThrown (Some "not a provider") None.

(** [provider.sendSMS(options)] on the provider referred to by [ref]. *)
Definition call_sendSMS (ref : nat) (options : SendSMSOptions) : M ProviderResponse :=
  fun h =>
    match providers h !! ref with
    | Some (key, p) =>
        let '(result, stats', world') := sendSMS p options (stats p) (world h) in
        (result,
         mkHeap (<[ref := (key, with_stats p stats')]> (providers h)) world'
                (calls h ++ [CallSendSMS ref options result]))
    | None => (Throw type_error, h)
    end.

(** [provider.getDeliveryStatus(externalId)]. *)
Definition call_getDeliveryStatus (ref : nat) (id : string) : M DeliveryStatus :=
  fun h =>
    match providers h !! ref with
    | Some (key, p) =>
        let '(result, stats', world') := getDeliveryStatus p id (stats p) (world h) in
        (result,
         mkHeap (<[ref := (key, with_stats p stats')]> (providers h)) world'
                (calls h ++ [CallGetDeliveryStatus ref id result]))
    | None => (Throw type_error, h)
    end.

(** [provider.checkBalance()]. *)
Definition call_checkBalance (ref : nat) : M ProviderBalance :=
  fun h =>
    match providers h !! ref with
    | Some (key, p) =>
        let '(result, stats', world') := checkBalance p (stats p) (world h) in
        (result,
         mkHeap (<[ref := (key, with_stats p stats')]> (providers h)) world'
                (calls h ++ [CallCheckBalance ref result]))
    | None => (Throw type_error, h)
    end.

(** [BaseSMSProvider.healthCheck()]. *)
Definition healthCheck (ref : nat) : M Health :=
  try_catch
    (bind (call_checkBalance ref) (fun b =>
       if truthy_string (balance_error b)
       then ret (mkHealth false (or_string (balance_error b) "") None)
       else ret (mkHealth true "Provider is healthy" (Some (balance b)))))
    (fun error =>
       bind (lift (read_message error)) (fun message =>
         ret (mkHealth false (or_string message "Health check failed") None))).

(** [BaseSMSProvider.testConnection()]. *)
Definition testConnection (ref : nat) : M bool :=
  try_catch
    (bind (call_checkBalance ref) (fun b => ret (Qle_bool 0 (balance b))))
    (fun _ => ret false).

End Provider.

Arguments BaseSMSProvider World : clear implicits.
Arguments Heap World : clear implicits.
Arguments M World A : clear implicits.

(** ** provider.factory.ts: the registry *)

Module SMSProviderFactory.
Section Factory.
Context {World : Type}.
Implicit Types (h : Heap World) (ref : nat).

(** [getProvider(name)]: the entry of the [Map] under [name.toLowerCase()]. *)
Definition getProvider h (providerName : string) : option nat :=
  fst <$> list_find (fun entry => fst entry = toLowerCase providerName) (providers h).

(** [getAllProviders()]: the values of the [Map], in insertion order. *)
Definition getAllProviders h : list nat := seq 0 (length (providers h)).

(** The filter of [getProvidersForCountry]. *)
Definition eligible h (countryCode : string) ref : bool :=
  match deref h ref with
  | Some p => supportsCountry p countryCode || includes (supportedCountries (config p)) "*"
  | None => false
  end.

(** [provider.getConfig().priority || 999]. *)
Definition priorityOf h ref : Z :=
  match deref h ref with
  | Some p => or_Z (priority (config p)) 999
  | None => 999
  end.

(** [getProvidersForCountry(countryCode)]. *)
Definition getProvidersForCountry h (countryCode : string) : list nat :=
  Array_sort (fun a b => 0 <? priorityOf h a - priorityOf h b)
             (List.filter (eligible h countryCode) (getAllProviders h)).

(** [getProvidersForNetwork(countryCode, network)]. *)
Definition getProvidersForNetwork h (countryCode network : string) : list nat :=
  List.filter
    (fun ref => match deref h ref with Some p => supportsNetwork p network | None => false end)
    (getProvidersForCountry h countryCode).

(** The loop of [healthCheckAll] over the entries of the [Map]; [results]
    is the object being filled. *)
Fixpoint healthCheckEach (entries : list (nat * string)) (results : gmap string Health)
  : M World (gmap string Health) :=
  match entries with
  | [] => ret results
  | (ref, key) :: rest =>
      bind (healthCheck ref) (fun report => healthCheckEach rest (<[key := report]> results))
  end.

(** [healthCheckAll()]. *)
Definition healthCheckAll : M World (gmap string Health) :=
  bind get_heap (fun h =>
    healthCheckEach (imap (fun ref entry => (ref, fst entry)) (providers h)) ∅).

End Factory.
End SMSProviderFactory.

(** ** provider.router.ts: the failover router *)

Module SMSProviderRouter.
Import SMSProviderFactory.
Section Router.
Context {World : Type}.
Implicit Types (h : Heap World) (ref : nat).

(** The variable [lastError] of [sendSMS]: nothing yet, the response of a
    provider that failed, or a value a provider threw. *)
Inductive LastError : Type :=
| NoError
| FailedResponse (response : ProviderResponse)
| Caught (error : thrown).

(** [lastError?.message] and [lastError?.errorCode]. *)
Definition lastError_message (e : LastError) : option string :=
  match e with
  | NoError => None
  | FailedResponse r => response_message r
  | Caught t => thrown_message t
  end.

Definition lastError_errorCode (e : LastError) : option string :=
  match e with
  | NoError => None
  | FailedResponse r => errorCode r
  | Caught t => thrown_errorCode t
  end.

(** The response built when the loop ends without a success. *)
Definition allFailed (e : LastError) : ProviderResponse :=
  mkResponse false failed None
             (Some (or_string (lastError_message e) "All providers failed"))
             (Some (or_string (lastError_errorCode e) "ALL_FAILED"))
             "multiple" None None None.

(** The response built when there is no provider for the destination. *)
Definition noProvider (country : string) (network : option string) : ProviderResponse :=
  mkResponse false failed None
             (Some ("No SMS providers available for " ++ country
                    ++ (if truthy_string network then "/" ++ or_string network "" else "")))
             (Some "NO_PROVIDER") "none" None None None.

(** The response built by the outer [catch], [message] being
    [error.message]. *)
Definition routingError (message : option string) : ProviderResponse :=
  mkResponse false failed None
             (Some (or_string message "SMS routing failed"))
             (Some "ROUTING_ERROR") "router" None None None.

(** One turn of the [for] loop either returns from [sendSMS] or goes on
    with a new [lastError]. *)
Inductive Turn : Type :=
| Return (response : ProviderResponse)
| Continue (lastError : LastError).

(** The body of the loop: the inner [try]/[catch] around one provider. *)
Definition attempt ref (options : SendSMSOptions) : M World Turn :=
  try_catch
    (bind (call_sendSMS ref options) (fun response =>
       if success response then ret (Return response)
       else ret (Continue (FailedResponse response))))
    (fun error => ret (Continue (Caught error))).

(** The [for (const provider of providers)] loop and what follows it. *)
Fixpoint tryEach (candidates : list nat) (options : SendSMSOptions) (lastError : LastError)
  : M World ProviderResponse :=
  match candidates with
  | [] => ret (allFailed lastError)
  | provider :: rest =>
      bind (attempt provider options) (fun turn =>
        match turn with
        | Return response => ret response
        | Continue e => tryEach rest options e
        end)
  end.

(** The body of [sendSMS], given the computation that looks the providers
    up in the registry. *)
Definition route (lookup : M World (list nat)) (options : SendSMSOptions)
    (country : string) (network : option string) : M World ProviderResponse :=
  try_catch
    (bind lookup (fun candidates =>
       if (length candidates =? 0)%nat then ret (noProvider country network)
       else tryEach candidates options NoError))
    (fun error => bind (lift (read_message error)) (fun message => ret (routingError message))).

(** The lookup of [sendSMS] and [getBestProvider]:
    [network ? getProvidersForNetwork(country, network) : getProvidersForCountry(country)]. *)
Definition candidatesFor h (country : string) (network : option string) : list nat :=
  if truthy_string network
  then getProvidersForNetwork h country (or_string network "")
  else getProvidersForCountry h country.

(** [SMSProviderRouter.sendSMS(options, country, network?)]. *)
Definition sendSMS (options : SendSMSOptions) (country : string) (network : option string)
  : M World ProviderResponse :=
  route (fun h => (Normal (candidatesFor h country network), h)) options country network.

Inductive Criteria : Type := by_cost | by_speed | by_reliability.

(** [a.getStats().avgLatency || 1000]. *)
Definition latencyOf h ref : Q :=
  match deref h ref with
  | Some p => or_Q (avgLatency (stats p)) 1000
  | None => 1000%Q
  end.

(** [a.getStats().successRate || 0]. *)
Definition rateOf h ref : Q :=
  match deref h ref with
  | Some p => or_Q (successRate (stats p)) 0
  | None => 0%Q
  end.

(** [SMSProviderRouter.getBestProvider(country, network?, criteria?)].  A
    compare function is read by the sign of its result, and the sign of a
    difference of two doubles is the sign of the exact difference. *)
Definition getBestProvider h (country : string) (network : option string)
    (criteria : option Criteria) : option nat :=
  let candidates := candidatesFor h country network in
  if (length candidates =? 0)%nat then None
  else
    match criteria with
    | Some by_speed =>
        head (Array_sort (fun a b => Qpositive (latencyOf h a - latencyOf h b)) candidates)
    | Some by_reliability =>
        head (Array_sort (fun a b => Qpositive (rateOf h b - rateOf h a)) candidates)
    | Some by_cost | None => head candidates
    end.

(** The response built when no provider knows the message. *)
Definition statusUnknown (id : string) (error : option string) : DeliveryStatus :=
  mkDelivery delivery_unknown None id error.

(** One turn of the probing loop of [checkDeliveryStatus]. *)
Definition probe ref (id : string) : M World (option DeliveryStatus) :=
  try_catch
    (bind (call_getDeliveryStatus ref id) (fun st =>
       match delivery_status st with
       | delivery_unknown => ret None
       | _ => ret (Some st)
       end))
    (fun _ => ret None).

(** The loop over all providers and the response after it. *)
Fixpoint probeEach (candidates : list nat) (id : string) : M World DeliveryStatus :=
  match candidates with
  | [] => ret (statusUnknown id (Some "Could not get status from any provider"))
  | provider :: rest =>
      bind (probe provider id) (fun found =>
        match found with
        | Some st => ret st
        | None => probeEach rest id
        end)
  end.

(** [SMSProviderRouter.checkDeliveryStatus(externalId, providerName?)]. *)
Definition checkDeliveryStatus (id : string) (providerName : option string)
  : M World DeliveryStatus :=
  try_catch
    (bind get_heap (fun h =>
       let named :=
         if truthy_string providerName
         then getProvider h (or_string providerName "")
         else None in
       match named with
       | Some provider => call_getDeliveryStatus provider id
       | None => bind get_heap (fun h' => probeEach (getAllProviders h') id)
       end))
    (fun error =>
       bind (lift (read_message error)) (fun message => ret (statusUnknown id message))).

End Router.
End SMSProviderRouter.

(** ** Reference behaviours used to state the properties *)

(** The priority a provider is configured with, and 999 for a provider
    configured without one. *)
Definition configuredPriority {World : Type} (h : Heap World) (ref : nat) : Z :=
  match deref h ref with
  | Some p => default 999 (priority (config p))
  | None => 999
  end.

(** The first element of a sorted array, computed directly: scanning from
    the right, the current element replaces the best one so far unless it
    has to come after it. *)
Fixpoint firstBest {A : Type} (after : A -> A -> bool) (l : list A) : option A :=
  match l with
  | [] => None
  | x :: l' =>
      match firstBest after l' with
      | Some y => if after x y then Some y else Some x
      | None => Some x
      end
  end.

(** In a stable sort of references [a] is placed before [b] when it need
    not come after [b] and, on a tie, it is the one registered first. *)
Definition before (after : nat -> nat -> bool) (a b : nat) : Prop :=
  after a b = false /\ (after b a = false -> (a < b)%nat).

(** Making the same call on each provider of a list in turn, whatever the
    results: the completions in order, and the heap at the end. *)
Fixpoint callEach {World A : Type} (call : nat -> M World A) (refs : list nat) (h : Heap World)
  : list (completion A) * Heap World :=
  match refs with
  | [] => ([], h)
  | ref :: rest =>
      let '(result, h1) := call ref h in
      let '(results, h2) := callEach call rest h1 in
      (result :: results, h2)
  end.

(** What one turn of the loop does with the completion of the call. *)
Definition turnOf (result : completion ProviderResponse) : SMSProviderRouter.Turn :=
  match result with
  | Normal response =>
      if success response then SMSProviderRouter.Return response
      else SMSProviderRouter.Continue (SMSProviderRouter.FailedResponse response)
  | Throw error => SMSProviderRouter.Continue (SMSProviderRouter.Caught error)
  end.

(** The value [lastError] holds after a failed call. *)
Definition lastErrorOf (result : completion ProviderResponse) : SMSProviderRouter.LastError :=
  match result with
  | Normal response => SMSProviderRouter.FailedResponse response
  | Throw error => SMSProviderRouter.Caught error
  end.

(** The report [healthCheck] makes of the completion of [checkBalance],
    for a completion other than a rejection with [null] or [undefined]. *)
Definition healthOf (result : completion ProviderBalance) : Health :=
  match result with
  | Normal b =>
      if truthy_string (balance_error b)
      then mkHealth false (or_string (balance_error b) "") None
      else mkHealth true "Provider is healthy" (Some (balance b))
  | Throw error => mkHealth false (or_string (thrown_message error) "Health check failed") None
  end.

(** How [healthCheck] completes after the completion of [checkBalance]: its
    [catch] clause reads [error.message]. *)
Definition healthCheckOf (result : completion ProviderBalance) : completion Health :=
  match result with
  | Throw nullish => Throw cannotReadProperties
  | _ => Normal (healthOf result)
  end.

(** How [checkDeliveryStatus] completes after the completion of the query on
    the provider it was given by name. *)
Definition namedStatusOf (id : string) (result : completion DeliveryStatus)
  : completion DeliveryStatus :=
  match result with
  | Normal st => Normal st
  | Throw nullish => Throw cannotReadProperties
  | Throw (mkThrown message _) => Normal (SMSProviderRouter.statusUnknown id message)
  end.

(** A completion other than a rejection with [null] or [undefined]. *)
Definition readable {A : Type} (result : completion A) : Prop :=
  result <> Throw nullish.

(** The object [healthCheckAll] has filled after the given reports. *)
Definition reportsOf (entries : list (nat * string)) (outs : list (completion ProviderBalance))
    (results : gmap string Health) : gmap string Health :=
  fold_left (fun acc eo => <[snd (fst eo) := healthOf (snd eo)]> acc) (zip entries outs) results.

(** What one turn of the probing loop makes of the completion of
    [getDeliveryStatus]. *)
Definition foundStatus (result : completion DeliveryStatus) : option DeliveryStatus :=
  match result with
  | Normal st => match delivery_status st with delivery_unknown => None | _ => Some st end
  | Throw _ => None
  end.

(** A send attempt counts as a success when it returns a response whose
    [success] flag is set. *)
Definition succeeded (result : completion ProviderResponse) : bool :=
  match result with
  | Normal response => success response
  | Throw _ => false
  end.

(** A status probe finds the message when it returns a status other than
    [unknown]. *)
Definition found (result : completion DeliveryStatus) : bool :=
  match result with
  | Normal st => match delivery_status st with delivery_unknown => false | _ => true end
  | Throw _ => false
  end.

(** [message] and [errorCode] as read from a failed attempt. *)
Definition failure_message (result : completion ProviderResponse) : option string :=
  match result with
  | Normal response => response_message response
  | Throw error => thrown_message error
  end.

Definition failure_errorCode (result : completion ProviderResponse) : option string :=
  match result with
  | Normal response => errorCode response
  | Throw error => thrown_errorCode error
  end.

(** The exhaustion outcome as the specification words it: the last failed
    response with [providerId] replaced by the sentinel and [errorCode] by
    [ALL_FAILED] unless the response carries a code of its own. *)
Definition exhaustedAsSpecified (lastFailure : ProviderResponse) : ProviderResponse :=
  mkResponse (success lastFailure) (status lastFailure) (externalId lastFailure)
             (response_message lastFailure)
             (Some (or_string (errorCode lastFailure) "ALL_FAILED"))
             "multiple"
             (cost lastFailure) (currency lastFailure) (metadata lastFailure).

(** The health verdict as the specification words it: no error and a
    balance that is not negative. *)
Definition healthyAsSpecified (result : completion ProviderBalance) : Prop :=
  exists b, result = Normal b /\ truthy_string (balance_error b) = false /\ (0 <= balance b)%Q.

(** A run of recorded attempts: success flag, latency if any, time. *)
Definition Attempt : Type := (bool * option Q * Z)%type.

Definition recordAll (attempts : list Attempt) (s : ProviderStats) : ProviderStats :=
  fold_left (fun acc a => updateStats acc (fst (fst a)) (snd (fst a)) (snd a)) attempts s.

Definition successes (attempts : list Attempt) : Z :=
  Z.of_nat (length (List.filter (fun a => fst (fst a)) attempts)).

Definition failures (attempts : list Attempt) : Z :=
  Z.of_nat (length (List.filter (fun a => negb (fst (fst a))) attempts)).

(** ** Sample providers and registries

    A provider holds its methods as functions of its statistics, so the
    normal form of a whole registry is large; the examples read off what
    they need, a response, a call log or the statistics of one provider. *)

Module Samples.

(** A provider with fixed answers.  Like the providers of the repository,
    its [sendSMS] records the attempt in its statistics before it returns. *)
Definition scripted (cfg : SMSProviderConfig) (st : ProviderStats)
    (send : completion ProviderResponse) (probe : completion DeliveryStatus)
    (bal : completion ProviderBalance) : BaseSMSProvider unit :=
  mkProvider cfg st
    (fun _ s w =>
       (send, match send with Normal r => updateStats s (success r) None 0 | Throw _ => s end, w))
    (fun _ s w => (probe, s, w))
    (fun s w => (bal, s, w)).

Definition accepted (id : string) : ProviderResponse :=
  mkResponse true submitted (Some "abc123") (Some "Message submitted successfully") None id
             None None None.

Definition noCredit (id : string) : ProviderResponse :=
  mkResponse false insufficient_credit None (Some "Out of credit") (Some "403") id
             None None None.

Definition statusSent : DeliveryStatus := mkDelivery delivery_sent (Some 0) "abc123" None.

Definition funds (amount : Q) : ProviderBalance := mkBalance amount "USD" None.

Definition options : SendSMSOptions := mkOptions "233244123456" "Hello" "MyApp" None.

Definition heapOf (entries : list (string * BaseSMSProvider unit)) : Heap unit :=
  mkHeap entries tt [].

(** Three providers for Ghana registered with priorities 3, 1 and 2. *)
Definition registry312 : Heap unit :=
  heapOf
    [ ("c", scripted (mkConfig "C" ["GH"] None (Some 3)) initialStats
              (Normal (accepted "c")) (Normal statusSent) (Normal (funds 100)));
      ("a", scripted (mkConfig "A" ["GH"] None (Some 1)) initialStats
              (Normal (noCredit "a")) (Normal statusSent) (Normal (funds 100)));
      ("b", scripted (mkConfig "B" ["GH"] None (Some 2)) initialStats
              (Normal (accepted "b")) (Normal statusSent) (Normal (funds 100))) ].


(** A single provider that is out of credit. *)
Definition registryNoCredit : Heap unit :=
  heapOf
    [ ("a", scripted (mkConfig "A" ["GH"] None (Some 1)) initialStats
              (Normal (noCredit "a")) (Normal statusSent) (Normal (funds 0))) ].

(** A global fallback only. *)
Definition registryWildcard : Heap unit :=
  heapOf
    [ ("twilio", scripted (mkConfig "Twilio" ["*"] None (Some 10)) initialStats
                   (Normal (accepted "twilio")) (Normal statusSent) (Normal (funds 100))) ].

(** A provider measured at 2000 ms ahead of one never measured. *)
Definition registrySlow : Heap unit :=
  heapOf
    [ ("slow", scripted (mkConfig "Slow" ["GH"] None (Some 1))
                 (mkStats 1 1 0 100%Q 2000%Q (Some 0))
                 (Normal (accepted "slow")) (Normal statusSent) (Normal (funds 100)));
      ("cold", scripted (mkConfig "Cold" ["GH"] None (Some 2)) initialStats
                 (Normal (accepted "cold")) (Normal statusSent) (Normal (funds 100))) ].

(** A provider whose account is overdrawn and reports no error. *)
Definition registryOverdrawn : Heap unit :=
  heapOf
    [ ("overdrawn", scripted (mkConfig "Overdrawn" ["GH"] None (Some 1)) initialStats
                      (Normal (accepted "overdrawn")) (Normal statusSent)
                      (Normal (funds (-5)))) ].

(** Two providers for Ghana, neither of which delivers: the one of
    priority 1 is out of credit, the one of priority 2 throws. *)
Definition registryAllFail : Heap unit :=
  heapOf
    [ ("t", scripted (mkConfig "T" ["GH"] None (Some 2)) initialStats
              (Throw (mkThrown (Some "Connection timed out") None))
              (Throw (mkThrown (Some "Connection timed out") None))
              (Throw (mkThrown (Some "Connection timed out") None)));
      ("a", scripted (mkConfig "A" ["GH"] None (Some 1)) initialStats
              (Normal (noCredit "a")) (Normal statusSent) (Normal (funds 0))) ].

(** A provider that rejects everything with [undefined] and one that is
    out of credit and knows no message, ahead of one that accepts. *)
Definition registryFailover : Heap unit :=
  heapOf
    [ ("n", scripted (mkConfig "N" ["GH"] None (Some 1)) initialStats
              (Throw nullish) (Throw nullish) (Throw nullish));
      ("a", scripted (mkConfig "A" ["GH"] None (Some 2)) initialStats
              (Normal (noCredit "a"))
              (Normal (mkDelivery delivery_unknown None "abc123" None))
              (Normal (mkBalance 0 "USD" (Some "Account suspended"))));
      ("b", scripted (mkConfig "B" ["GH"] None (Some 3)) initialStats
              (Normal (accepted "b")) (Normal statusSent) (Normal (funds 100))) ].

(** A provider in funds, one whose balance check reports an error and one
    whose balance check throws. *)
Definition registryHealth : Heap unit :=
  heapOf
    [ ("up", scripted (mkConfig "Up" ["GH"] None (Some 1)) initialStats
               (Normal (accepted "up")) (Normal statusSent) (Normal (funds 100)));
      ("down", scripted (mkConfig "Down" ["GH"] None (Some 2)) initialStats
                 (Normal (accepted "down")) (Normal statusSent)
                 (Normal (mkBalance 0 "USD" (Some "Account suspended"))));
      ("broken", scripted (mkConfig "Broken" ["GH"] None (Some 3)) initialStats
                   (Normal (accepted "broken")) (Normal statusSent)
                   (Throw (mkThrown (Some "ECONNRESET") None))) ].

End Samples.

(** ** Further reference notions *)

(** Counters that add up: nothing negative, and every attempt is either
    delivered or failed. *)
Definition statsConsistent (s : ProviderStats) : Prop :=
  0 <= totalDelivered s /\ 0 <= totalFailed s
  /\ totalSent s = totalDelivered s + totalFailed s.

(** What registration fixes of a registry: the keys and the configurations,
    in order. *)
Definition registration {World : Type} (h : Heap World) : list (string * SMSProviderConfig) :=
  map (fun entry => (fst entry, config (snd entry))) (providers h).

(** A computation that leaves the registration as it found it. *)
Definition preserving {World A : Type} (m : M World A) : Prop :=
  forall h, registration (snd (m h)) = registration h.

(** A computation that leaves every provider where it is, with its
    configuration and its [sendSMS] method. *)
Definition keeping {World A : Type} (m : M World A) : Prop :=
  forall h ref p,
    deref h ref = Some p ->
    exists p', deref (snd (m h)) ref = Some p'
               /\ sendSMS p' = sendSMS p /\ config p' = config p.

(** The states the process reaches from [h], in any number of steps and in
    any order, by the operations of the router and of the registry other
    than initialisation, and by calls made on a provider directly. *)
Inductive reachable {World : Type} (h : Heap World) : Heap World -> Prop :=
| reachable_now : reachable h h
| reachable_sendSMS h' options country network :
    reachable h h' ->
    reachable h (snd (SMSProviderRouter.sendSMS options country network h'))
| reachable_checkDeliveryStatus h' id providerName :
    reachable h h' ->
    reachable h (snd (SMSProviderRouter.checkDeliveryStatus id providerName h'))
| reachable_healthCheckAll h' :
    reachable h h' ->
    reachable h (snd (SMSProviderFactory.healthCheckAll h'))
| reachable_provider_sendSMS h' ref options :
    reachable h h' -> reachable h (snd (call_sendSMS ref options h'))
| reachable_provider_getDeliveryStatus h' ref id :
    reachable h h' -> reachable h (snd (call_getDeliveryStatus ref id h'))
| reachable_provider_checkBalance h' ref :
    reachable h h' -> reachable h (snd (call_checkBalance ref h'))
| reachable_provider_healthCheck h' ref :
    reachable h h' -> reachable h (snd (healthCheck ref h'))
| reachable_provider_testConnection h' ref :
    reachable h h' -> reachable h (snd (testConnection ref h')).

(** ** base-sms.provider.ts and provider.router.ts: text helpers

    Strings are ASCII text, as phone numbers, sender ids and provider names
    are; the character classes of the regular expressions are taken on
    ASCII. *)

(** The class [\s]. *)
Definition isWhitespace (c : ascii) : bool :=
  let n := nat_of_ascii c in
  ((n =? 32) || ((9 <=? n) && (n <=? 13)))%nat.

(** The class [\d]. *)
Definition isDigit (c : ascii) : bool :=
  let n := nat_of_ascii c in
  ((48 <=? n) && (n <=? 57))%nat.

(** The class [[1-9]]. *)
Definition isNonZeroDigit (c : ascii) : bool :=
  let n := nat_of_ascii c in
  ((49 <=? n) && (n <=? 57))%nat.

(** The class [[A-Z]]. *)
Definition isUpper (c : ascii) : bool :=
  let n := nat_of_ascii c in
  ((65 <=? n) && (n <=? 90))%nat.

(** Every character of the text is in the class. *)
Fixpoint allChars (class : ascii -> bool) (s : string) : bool :=
  match s with
  | EmptyString => true
  | String c s' => class c && allChars class s'
  end.

(** [s.replace(/[^...]/g, '')]: the characters of the class, in order. *)
Fixpoint keepChars (class : ascii -> bool) (s : string) : string :=
  match s with
  | EmptyString => EmptyString
  | String c s' => if class c then String c (keepChars class s') else keepChars class s'
  end.

(** [s.replace(/\s+/g, '_')]: every maximal run of whitespace becomes one
    underscore; [inRun] tells that the previous character was whitespace. *)
Fixpoint replaceWhitespaceRuns (inRun : bool) (s : string) : string :=
  match s with
  | EmptyString => EmptyString
  | String c s' =>
      if isWhitespace c
      then if inRun then replaceWhitespaceRuns true s'
           else String "_"%char (replaceWhitespaceRuns true s')
      else String c (replaceWhitespaceRuns false s')
  end.

(** [name.toLowerCase().replace(/\s+/g, '_')]. *)
Definition providerIdOf (providerName : string) : string :=
  replaceWhitespaceRuns false (toLowerCase providerName).

(** [BaseSMSProvider.getProviderId()]. *)
Definition getProviderId {World : Type} (p : BaseSMSProvider World) : string :=
  providerIdOf (name (config p)).

(** [s.substring(start, end)] and [s.substring(start)], for indices that
    are not negative: both are clamped to the length and swapped if out of
    order. *)
Definition js_substring (s : string) (start : nat) (finish : option nat) : string :=
  let len := String.length s in
  let a := Nat.min start len in
  let b := match finish with Some e => Nat.min e len | None => len end in
  substring (Nat.min a b) (Nat.max a b - Nat.min a b) s.

(** [maskPhone(phone)], the same in the router and in every provider. *)
Definition maskPhone (phone : string) : string :=
  if (String.length phone <=? 4)%nat then "***"
  else js_substring phone 0 (Some 4%nat) ++ "***"
       ++ js_substring phone (String.length phone - 3) None.

(** The text after a leading [ch], if the text starts with [ch]:
    [s.startsWith(ch)] and [s.substring(1)]. *)
Definition dropLeading (ch : ascii) (s : string) : option string :=
  match s with
  | String c rest => if Ascii.eqb c ch then Some rest else None
  | EmptyString => None
  end.

(** [/^\+?[1-9]\d{1,14}$/.test(phone)]. *)
Definition validatePhoneNumber (phone : string) : bool :=
  let digits := match dropLeading "+" phone with Some rest => rest | None => phone end in
  match digits with
  | String c rest =>
      isNonZeroDigit c && (1 <=? String.length rest)%nat && (String.length rest <=? 14)%nat
      && allChars isDigit rest
  | EmptyString => false
  end.

(** The table [countryCodeMap] of [normalizePhoneNumber], read by own key;
    a [countryCode] that names a member of [Object.prototype] is outside
    the model. *)
Definition countryCodeMap : list (string * string) :=
  [("GH", "233"); ("NG", "234"); ("KE", "254"); ("ZA", "27"); ("UG", "256");
   ("TZ", "255"); ("RW", "250"); ("CI", "225"); ("SN", "221"); ("CM", "237")].

Fixpoint lookupCode (table : list (string * string)) (countryCode : string) : option string :=
  match table with
  | [] => None
  | (key, code) :: rest =>
      if String.eqb key countryCode then Some code else lookupCode rest countryCode
  end.

(** The class [[\d+]] of the characters [normalizePhoneNumber] keeps. *)
Definition isDigitOrPlus (c : ascii) : bool := isDigit c || Ascii.eqb c "+".

(** [normalizePhoneNumber(phone, countryCode)]. *)
Definition normalizePhoneNumber (phone countryCode : string) : string :=
  let cleaned := keepChars isDigitOrPlus phone in
  let cleaned := match dropLeading "+" cleaned with Some rest => rest | None => cleaned end in
  match dropLeading "0" cleaned with
  | Some rest =>
      match lookupCode countryCodeMap countryCode with
      | Some code => if String.eqb code "" then cleaned else code ++ rest
      | None => cleaned
      end
  | None => cleaned
  end.

(** ** africastalking.provider.ts and twilio.provider.ts: the placeholders *)

Section Placeholder.
Context {World : Type}.

(** The clock: what [Date.now()] and [new Date()] read, in milliseconds,
    and the world after the reading. *)
Variable Date_now : World -> Z * World.

(** [sendSMS] of [AfricasTalkingProvider] and [TwilioProvider], which differ
    in the prefix of the external id, ["at_"] and ["tw_"].  Nothing in the
    [try] block can throw, so the [catch] block is never entered. *)
Definition placeholder_sendSMS (idPrefix : string) (cfg : SMSProviderConfig)
    (options : SendSMSOptions) (s : ProviderStats) (w : World) : Effect ProviderResponse :=
  let '(startTime, w1) := Date_now w in
  let '(endTime, w2) := Date_now w1 in
  let latency := endTime - startTime in
  let '(used, w3) := Date_now w2 in
  let s' := updateStats s true (Some (inject_Z latency)) used in
  let '(suffix, w4) :=
    if truthy_string (messageId options) then (or_string (messageId options) "", w3)
    else let '(t, w') := Date_now w3 in (pretty t, w') in
  (Normal (mkResponse true submitted (Some (idPrefix ++ suffix))
                      (Some "Message submitted successfully (placeholder)") None
                      (providerIdOf (name cfg)) None None None),
   s', w4).

(** [getDeliveryStatus] of the placeholders. *)
Definition placeholder_getDeliveryStatus (id : string) (s : ProviderStats) (w : World)
  : Effect DeliveryStatus :=
  let '(t, w1) := Date_now w in
  (Normal (mkDelivery delivery_sent (Some t) id None), s, w1).

(** [checkBalance] of the placeholders. *)
Definition placeholder_checkBalance (s : ProviderStats) (w : World) : Effect ProviderBalance :=
  (Normal (mkBalance 100 "USD" None), s, w).

(** [new AfricasTalkingProvider(config)]. *)
Definition AfricasTalkingProvider (cfg : SMSProviderConfig) : BaseSMSProvider World :=
  mkProvider cfg initialStats (placeholder_sendSMS "at_" cfg)
             placeholder_getDeliveryStatus placeholder_checkBalance.

(** [new TwilioProvider(config)]. *)
Definition TwilioProvider (cfg : SMSProviderConfig) : BaseSMSProvider World :=
  mkProvider cfg initialStats (placeholder_sendSMS "tw_" cfg)
             placeholder_getDeliveryStatus placeholder_checkBalance.

(** ** provider.factory.ts: initialisation *)

(** The variables of [env] that [initializeProviders] tests. *)
Record Env : Type := mkEnv {
  KAIROS_API_KEY : option string;
  KAIROS_API_SECRET : option string;
  AFRICASTALKING_API_KEY : option string;
  AFRICASTALKING_USERNAME : option string;
  MTN_API_KEY : option string;
  MTN_API_SECRET : option string;
  TWILIO_ACCOUNT_SID : option string;
  TWILIO_AUTH_TOKEN : option string
}.

(** The constructors of [KairosProvider], which starts an SDK of its own,
    and of [MTNProvider]: they may throw and may touch the outside world. *)
Variable newKairosProvider : SMSProviderConfig -> World -> completion (BaseSMSProvider World) * World.
Variable newMTNProvider : SMSProviderConfig -> World -> completion (BaseSMSProvider World) * World.

Definition construct
    (constructor : SMSProviderConfig -> World -> completion (BaseSMSProvider World) * World)
    (cfg : SMSProviderConfig) : M World (BaseSMSProvider World) :=
  fun h =>
    let '(result, w) := constructor cfg (world h) in
    (result, mkHeap (providers h) w (calls h)).

(** [createProvider(type, config)]. *)
Definition createProvider (type : string) (cfg : SMSProviderConfig)
  : M World (BaseSMSProvider World) :=
  let t := toLowerCase type in
  if String.eqb t "kairos" then construct newKairosProvider cfg
  else if String.eqb t "africastalking" then ret (AfricasTalkingProvider cfg)
  else if String.eqb t "mtn" then construct newMTNProvider cfg
  else if String.eqb t "twilio" then ret (TwilioProvider cfg)
  else fun h => (Throw (mkThrown (Some ("Unknown provider type: " ++ type)) None), h).

(** [Map.prototype.set]: the value of an existing key is replaced where it
    is, a new key is added at the end. *)
Definition Map_set (key : string) (p : BaseSMSProvider World)
    (entries : list (string * BaseSMSProvider World)) : list (string * BaseSMSProvider World) :=
  match list_find (fun entry => fst entry = key) entries with
  | Some (i, _) => <[i := (key, p)]> entries
  | None => (entries ++ [(key, p)])%list
  end.

(** [this.providers.set(key, provider)]. *)
Definition providers_set (key : string) (p : BaseSMSProvider World) : M World unit :=
  fun h => (Normal tt, mkHeap (Map_set key p (providers h)) (world h) (calls h)).

(** One block of [initializeProviders]: when the credentials are there,
    create the provider and register it; a failure is logged and ignored. *)
Definition registerIf (credentials : bool) (key : string) (cfg : SMSProviderConfig)
  : M World unit :=
  if credentials
  then try_catch (bind (createProvider key cfg) (fun p => providers_set key p))
                 (fun _ => ret tt)
  else ret tt.

Definition kairosConfig : SMSProviderConfig :=
  mkConfig "Kairos" ["GH"] (Some ["mtn"; "telecel"; "at"]) (Some 1).

Definition africasTalkingConfig : SMSProviderConfig :=
  mkConfig "AfricasTalking"
           ["KE"; "UG"; "TZ"; "RW"; "NG"; "GH"; "ZA"; "BF"; "ML"; "SN"; "CI"; "BJ"; "TG"; "NE"]
           None (Some 2).

Definition mtnConfig : SMSProviderConfig :=
  mkConfig "MTN" ["GH"; "NG"; "ZA"; "UG"; "RW"; "CM"; "BJ"; "CI"; "GN"; "ZM"; "SS"; "SZ"]
           (Some ["mtn"]) (Some 3).

Definition twilioConfig : SMSProviderConfig :=
  mkConfig "Twilio" ["*"] None (Some 10).

(** [SMSProviderFactory.initializeProviders()]. *)
Definition initializeProviders (env : Env) : M World unit :=
  bind (registerIf (truthy_string (KAIROS_API_KEY env) && truthy_string (KAIROS_API_SECRET env))
                   "kairos" kairosConfig) (fun _ =>
  bind (registerIf (truthy_string (AFRICASTALKING_API_KEY env)
                    && truthy_string (AFRICASTALKING_USERNAME env))
                   "africastalking" africasTalkingConfig) (fun _ =>
  bind (registerIf (truthy_string (MTN_API_KEY env) && truthy_string (MTN_API_SECRET env))
                   "mtn" mtnConfig) (fun _ =>
  registerIf (truthy_string (TWILIO_ACCOUNT_SID env) && truthy_string (TWILIO_AUTH_TOKEN env))
             "twilio" twilioConfig))).

End Placeholder.

(** Sending the given requests through one provider, one after the other. *)
Definition sendAll {World : Type} (ref : nat) (requests : list SendSMSOptions)
    (h : Heap World) : Heap World :=
  fold_left (fun acc options => snd (call_sendSMS ref options acc)) requests h.

(** A [sendSMS] method that accepts every request. *)
Definition accepting {World : Type}
    (method : SendSMSOptions -> ProviderStats -> World
              -> completion ProviderResponse * ProviderStats * World) : Prop :=
  forall options s w, exists response,
    fst (fst (method options s w)) = Normal response /\ success response = true.

(** ** kairos.provider.ts *)

(** The class [[a-zA-Z0-9\s]] of the sender ids Kairos allows. *)
Definition isSenderIdChar (c : ascii) : bool :=
  let n := nat_of_ascii c in
  (((97 <=? n) && (n <=? 122)) || ((65 <=? n) && (n <=? 90)) || isDigit c || isWhitespace c)%nat.

(** [/^233[2345][0-9]{8}$/.test(recipient)]. *)
Definition isGhanaNumber (recipient : string) : bool :=
  match recipient with
  | String c1 (String c2 (String c3 (String c4 rest))) =>
      Ascii.eqb c1 "2" && Ascii.eqb c2 "3" && Ascii.eqb c3 "3"
      && (Ascii.eqb c4 "2" || Ascii.eqb c4 "3" || Ascii.eqb c4 "4" || Ascii.eqb c4 "5")
      && (String.length rest =? 8)%nat && allChars isDigit rest
  | _ => false
  end.

(** [KairosProvider.validateParameters(recipient, message, senderId)];
    [None] is [null]. *)
Definition validateParameters (recipient message senderId : string) : option string :=
  if String.eqb recipient "" || String.eqb message "" || String.eqb senderId ""
  then Some "Missing required parameters: recipient, message, or senderId"
  else if negb (isGhanaNumber recipient)
  then Some "Invalid Ghana phone number format. Must be 233XXXXXXXXX"
  else if (String.length message =? 0)%nat
  then Some "Message cannot be empty"
  else if ((String.length senderId <? 3) || (11 <? String.length senderId))%nat
  then Some "Sender ID must be between 3 and 11 characters"
  else if negb (negb (String.eqb senderId "") && allChars isSenderIdChar senderId)
  then Some "Sender ID can only contain letters, numbers, and spaces"
  else None.

(** What the router reads of an answer of the Kairos SDK. *)
Record KairosResponse : Type := mkKairosResponse {
  kairos_success : bool;
  kairos_statusCode : option Z;
  kairos_statusMessage : option string;
  kairos_data_id : option string;
  kairos_data_uuid : option string
}.

(** What [handleKairosError] reads of a value the SDK threw;
    [kairos_isError] is [error instanceof Error]. *)
Record KairosError : Type := mkKairosError {
  kairos_error_statusCode : option Z;
  kairos_error_statusMessage : option string;
  kairos_error_message : option string;
  kairos_isError : bool
}.

Inductive KairosOutcome : Type :=
| KairosAnswer (response : KairosResponse)
| KairosThrow (error : KairosError).

(** [a || b] on optional strings. *)
Definition or_option (a b : option string) : option string :=
  if truthy_string a then a else b.

(** [mapKairosStatus(statusCode)]. *)
Definition mapKairosStatus (statusCode : option Z) : ResponseStatus :=
  match statusCode with
  | Some 200 | Some 201 => submitted
  | Some 400 => invalid_parameters
  | Some 401 => authentication_error
  | Some 403 => insufficient_credit
  | Some 500 => provider_error
  | _ => rejected
  end.

(** [parseKairosResponse(response, messageId)]. *)
Definition parseKairosResponse (cfg : SMSProviderConfig) (response : KairosResponse)
    (id : option string) : ProviderResponse :=
  if kairos_success response
     && match kairos_statusCode response with Some code => code =? 200 | None => false end
  then mkResponse true submitted
                  (or_option (kairos_data_id response) (or_option (kairos_data_uuid response) id))
                  (Some (or_string (kairos_statusMessage response)
                                   "Message submitted successfully"))
                  None (providerIdOf (name cfg)) None None None
  else mkResponse false (mapKairosStatus (kairos_statusCode response)) None
                  (Some (or_string (kairos_statusMessage response) "Failed to send SMS"))
                  (Some (or_string (pretty <$> kairos_statusCode response) "1710"))
                  (providerIdOf (name cfg)) None None None.

(** [handleKairosError(error)]. *)
Definition handleKairosError (cfg : SMSProviderConfig) (error : KairosError)
  : ProviderResponse :=
  match kairos_error_statusCode error with
  | Some code =>
      if code =? 0
      then mkResponse false failed None
                      (if kairos_isError error then kairos_error_message error
                       else Some "Unknown provider error")
                      (Some "1710") (providerIdOf (name cfg)) None None None
      else mkResponse false (mapKairosStatus (Some code)) None
                      (or_option (kairos_error_statusMessage error) (kairos_error_message error))
                      (Some (pretty code)) (providerIdOf (name cfg)) None None None
  | None =>
      mkResponse false failed None
                 (if kairos_isError error then kairos_error_message error
                  else Some "Unknown provider error")
                 (Some "1710") (providerIdOf (name cfg)) None None None
  end.

(** The payload handed to the SDK. *)
Record KairosPayload : Type := mkKairosPayload {
  payload_to : string;
  payload_from : string;
  payload_message : string
}.

(** What [checkBalance] reads of the answer to a balance request;
    [kairos_balance] is [parseFloat(response.data.balance)] when
    [response.data] is there and the text is a number. *)
Record KairosBalance : Type := mkKairosBalance {
  kairos_balance_success : bool;
  kairos_balance_data : bool;
  kairos_balance : option Q;
  kairos_balance_statusMessage : option string
}.

Section Kairos.
Context {World : Type}.
Variable Date_now : World -> Z * World.

(** [asPromise(this.kairosInstance.send(payload).asQuick())]. *)
Variable sdk_send : KairosPayload -> World -> KairosOutcome * World.

(** [asPromise(this.kairosInstance.account().balance())]: an answer, or a
    thrown value. *)
Variable sdk_balance : World -> (KairosBalance + thrown) * World.

(** [KairosProvider.sendSMS(options)]. *)
Definition kairos_sendSMS (cfg : SMSProviderConfig) (options : SendSMSOptions)
    (s : ProviderStats) (w : World) : Effect ProviderResponse :=
  let '(startTime, w1) := Date_now w in
  match validateParameters (recipient options) (message options) (senderId options) with
  | Some validationError =>
      let '(used, w2) := Date_now w1 in
      (Normal (mkResponse false invalid_parameters None (Some validationError) (Some "1702")
                          (providerIdOf (name cfg)) None None None),
       updateStats s false None used, w2)
  | None =>
      let '(outcome, w2) :=
        sdk_send (mkKairosPayload (recipient options) (senderId options) (message options)) w1 in
      let '(endTime, w3) := Date_now w2 in
      let latency := inject_Z (endTime - startTime) in
      let '(used, w4) := Date_now w3 in
      match outcome with
      | KairosAnswer response =>
          (Normal (parseKairosResponse cfg response (messageId options)),
           updateStats s (kairos_success response) (Some latency) used, w4)
      | KairosThrow error =>
          (Normal (handleKairosError cfg error),
           updateStats s false (Some latency) used, w4)
      end
  end.

(** [KairosProvider.checkBalance()]. *)
Definition kairos_checkBalance (s : ProviderStats) (w : World) : Effect ProviderBalance :=
  let '(outcome, w1) := sdk_balance w in
  match outcome with
  | inl answer =>
      if kairos_balance_success answer && kairos_balance_data answer
      then (Normal (mkBalance match kairos_balance answer with
                              | Some b => or_Q b 0
                              | None => 0%Q
                              end "GHS" None), s, w1)
      else (Normal (mkBalance 0 "GHS"
                      (Some (or_string (kairos_balance_statusMessage answer)
                                       "Failed to get balance"))), s, w1)
  | inr error =>
      match read_message error with
      | Normal message =>
          (Normal (mkBalance 0 "GHS" (Some (or_string message "Failed to check balance"))),
           s, w1)
      | Throw typeError => (Throw typeError, s, w1)
      end
  end.

End Kairos.

(** The balance lookup of Kairos has failed: the SDK answered without
    [success] or without [data], or threw a value other than [null] and
    [undefined]. *)
Definition balanceLookupFailed (outcome : KairosBalance + thrown) : Prop :=
  match outcome with
  | inl answer => kairos_balance_success answer && kairos_balance_data answer = false
  | inr nullish => False
  | inr (mkThrown _ _) => True
  end.

(** ** Sample surroundings for the providers of the repository *)

Module KairosSamples.

(** A clock that is the world itself and advances by 5 ms at each reading. *)
Definition clock (w : Z) : Z * Z := (w, w + 5).

(** An SDK that answers [success] with status 201 after 100 ms. *)
Definition sdkCreated (payload : KairosPayload) (w : Z) : KairosOutcome * Z :=
  (KairosAnswer (mkKairosResponse true (Some 201) (Some "Created") None None), w + 100).

(** A balance lookup that times out. *)
Definition sdkBalanceDown (w : Z) : (KairosBalance + thrown) * Z :=
  (inr (mkThrown (Some "timeout") None), w).

(** A balance lookup that is rejected with [undefined]. *)
Definition sdkBalanceRejected (w : Z) : (KairosBalance + thrown) * Z :=
  (inr nullish, w).

Definition localNumber : SendSMSOptions := mkOptions "0244123456" "Hello" "MyApp" None.

Definition kairos : BaseSMSProvider Z :=
  mkProvider kairosConfig initialStats
             (kairos_sendSMS clock sdkCreated kairosConfig)
             (placeholder_getDeliveryStatus clock)
             (kairos_checkBalance sdkBalanceDown).

Definition registry : Heap Z := mkHeap [("kairos", kairos)] 0 [].

(** The same provider behind an SDK whose balance lookup is rejected with
    [undefined]. *)
Definition registryRejected : Heap Z :=
  mkHeap [("kairos", mkProvider kairosConfig initialStats
                       (kairos_sendSMS clock sdkCreated kairosConfig)
                       (placeholder_getDeliveryStatus clock)
                       (kairos_checkBalance sdkBalanceRejected))] 0 [].

(** An SDK whose every send fails with status 500. *)
Definition sdkDown (payload : KairosPayload) (w : Z) : KairosOutcome * Z :=
  (KairosThrow (mkKairosError (Some 500) (Some "Internal error") None false), w + 100).

(** A constructor of a Kairos provider behind that SDK (its status query
    stands in for the one of Kairos, which is not modelled), a constructor
    that fails, and an environment with the credentials of Kairos, MTN and
    Twilio. *)
Definition newKairosDown (cfg : SMSProviderConfig) (w : Z)
  : completion (BaseSMSProvider Z) * Z :=
  (Normal (mkProvider cfg initialStats (kairos_sendSMS clock sdkDown cfg)
                      (placeholder_getDeliveryStatus clock)
                      (kairos_checkBalance sdkBalanceRejected)), w).

Definition newFailing (cfg : SMSProviderConfig) (w : Z)
  : completion (BaseSMSProvider Z) * Z :=
  (Throw (mkThrown (Some "SDK failed") None), w).

Definition env : Env :=
  mkEnv (Some "key") (Some "secret") None None (Some "key") (Some "secret")
        (Some "sid") (Some "token").

(** The registry after initialisation in that environment. *)
Definition started : Heap Z :=
  snd (initializeProviders clock newKairosDown newFailing env (mkHeap [] 0 [])).

End KairosSamples.

(** * Properties *)

(** ** Rounding to the nearest double *)

Lemma roundHalfEven_floor (x : Q) : Qfloor x <= roundHalfEven x <= Qfloor x + 1.
Proof.
  unfold roundHalfEven. destruct (_ ?= _)%Q; [destruct (Z.even _)| |]; lia.
Qed.

Lemma roundHalfEven_Z (z : Z) : roundHalfEven (inject_Z z) = z.
Proof.
  unfold roundHalfEven. rewrite Qfloor_Z.
  assert (H : (inject_Z z - inject_Z z < 1 # 2)%Q) by lra.
  now rewrite (proj1 (Qlt_alt _ _) H).
Qed.

Lemma roundHalfEven_le (x y : Q) : (x <= y)%Q -> roundHalfEven x <= roundHalfEven y.
Proof.
  intros H. pose proof (Qfloor_resp_le x y H) as F.
  destruct (Z.eq_dec (Qfloor x) (Qfloor y)) as [E|NE].
  - unfold roundHalfEven. rewrite <- E.
    destruct (x - inject_Z (Qfloor x) ?= 1 # 2)%Q eqn:Cx;
      destruct (y - inject_Z (Qfloor x) ?= 1 # 2)%Q eqn:Cy;
      try (destruct (Z.even (Qfloor x)); lia); try lia; exfalso.
    + apply (proj2 (Qeq_alt _ _)) in Cx. apply (proj2 (Qlt_alt _ _)) in Cy. lra.
    + apply (proj2 (Qgt_alt _ _)) in Cx. apply (proj2 (Qeq_alt _ _)) in Cy. lra.
    + apply (proj2 (Qgt_alt _ _)) in Cx. apply (proj2 (Qlt_alt _ _)) in Cy. lra.
  - pose proof (roundHalfEven_floor x). pose proof (roundHalfEven_floor y). lia.
Qed.

Lemma roundHalfEven_between (m n : Z) (x : Q) :
  (inject_Z m <= x)%Q -> (x <= inject_Z n)%Q -> m <= roundHalfEven x <= n.
Proof.
  intros H1 H2. apply roundHalfEven_le in H1, H2.
  rewrite roundHalfEven_Z in H1, H2. lia.
Qed.

Lemma two_neq_0 : ~ (2 == 0)%Q.
Proof. discriminate. Qed.

Lemma pow2_pos (k : Z) : (0 < 2 ^ k)%Q.
Proof. apply Qpower_0_lt. reflexivity. Qed.

Lemma pow2_le (a b : Z) : a <= b -> (2 ^ a <= 2 ^ b)%Q.
Proof. intros H. apply Qpower_le_compat_l; [exact H|discriminate]. Qed.

Lemma pow2_Z (k : Z) : 0 <= k -> (2 ^ k == inject_Z (2 ^ k))%Q.
Proof. intros H. now rewrite (Zpower_Qpower 2 k H). Qed.

Lemma ilog2_spec (q : Q) : (0 < q)%Q -> (2 ^ ilog2 q <= q)%Q /\ (q < 2 ^ (ilog2 q + 1))%Q.
Proof.
  intros Hq. destruct q as [a b]. unfold ilog2. cbn [Qnum Qden].
  assert (Ha : 0 < a) by (unfold Qlt in Hq; simpl in Hq; lia).
  pose proof (Z.log2_spec a Ha) as [A1 A2].
  pose proof (Z.log2_spec (Zpos b) (Pos2Z.is_pos b)) as [B1 B2].
  pose proof (Z.log2_nonneg a) as La. pose proof (Z.log2_nonneg (Zpos b)) as Lb.
  set (la := Z.log2 a) in *. set (lb := Z.log2 (Zpos b)) in *.
  assert (Pa : 0 < 2 ^ la) by (apply Z.pow_pos_nonneg; lia).
  assert (Pb : 0 < 2 ^ lb) by (apply Z.pow_pos_nonneg; lia).
  assert (U : (a # b < 2 ^ (la - lb + 1))%Q).
  { replace (la - lb + 1) with ((la + 1) - lb) by lia.
    rewrite (Qpower_minus 2 (la + 1) lb two_neq_0), (pow2_Z (la + 1)), (pow2_Z lb) by lia.
    apply Qlt_shift_div_l.
    - change 0%Q with (inject_Z 0). rewrite <- Zlt_Qlt. exact Pb.
    - unfold Qlt, Qmult, inject_Z. simpl. rewrite Z.mul_1_r.
      replace (Z.succ la) with (la + 1) in A2 by lia. nia. }
  assert (L : (2 ^ (la - lb - 1) < a # b)%Q).
  { replace (la - lb - 1) with (la - (lb + 1)) by lia.
    rewrite (Qpower_minus 2 la (lb + 1) two_neq_0), (pow2_Z la), (pow2_Z (lb + 1)) by lia.
    apply Qlt_shift_div_r.
    - change 0%Q with (inject_Z 0). rewrite <- Zlt_Qlt. apply Z.pow_pos_nonneg; lia.
    - unfold Qlt, Qmult, inject_Z. simpl. rewrite Z.mul_1_r.
      replace (Z.succ lb) with (lb + 1) in B2 by lia. nia. }
  destruct (Qle_bool (2 ^ (la - lb)) (a # b)) eqn:T.
  - apply Qle_bool_iff in T. split; [exact T|exact U].
  - split; [apply Qlt_le_weak; exact L|].
    replace (la - lb - 1 + 1) with (la - lb) by lia.
    apply Qnot_le_lt. intros N. apply Qle_bool_iff in N. congruence.
Qed.

Lemma ilog2_le (x y : Q) : (0 < x)%Q -> (x <= y)%Q -> ilog2 x <= ilog2 y.
Proof.
  intros Hx Hxy.
  destruct (ilog2_spec x Hx) as [X1 _].
  destruct (ilog2_spec y) as [_ Y2]; [lra|].
  assert (H : (2 ^ ilog2 x < 2 ^ (ilog2 y + 1))%Q) by lra.
  apply Qpower_lt_compat_l_inv in H; [lia|reflexivity].
Qed.

Lemma pow2_split (a b : Z) : (2 ^ (a + b) == 2 ^ a * 2 ^ b)%Q.
Proof. apply Qpower_plus, two_neq_0. Qed.

(** A number that is at most [2 ^ (k + 1)] rounds, on the grid of spacing
    [2 ^ (k - 52)], to at most [2 ^ (k + 1)]; one that is at least [2 ^ k]
    rounds to at least [2 ^ k]. *)
Lemma grid_upper (k : Z) (q : Q) :
  (q <= 2 ^ (k + 1))%Q ->
  (inject_Z (roundHalfEven (q / 2 ^ (k - 52))) * 2 ^ (k - 52) <= 2 ^ (k + 1))%Q.
Proof.
  intros H. pose proof (pow2_pos (k - 52)) as P.
  assert (E : (2 ^ (k + 1) == inject_Z (2 ^ 53) * 2 ^ (k - 52))%Q).
  { rewrite <- (pow2_Z 53) by lia. rewrite <- pow2_split. now replace (53 + (k - 52)) with (k + 1) by lia. }
  assert (B : (q / 2 ^ (k - 52) <= inject_Z (2 ^ 53))%Q).
  { apply Qle_shift_div_r; [exact P|]. lra. }
  apply roundHalfEven_le in B. rewrite roundHalfEven_Z in B.
  rewrite E. apply Qmult_le_compat_r; [|lra]. now rewrite <- Zle_Qle.
Qed.

Lemma grid_lower (k : Z) (q : Q) :
  (2 ^ k <= q)%Q ->
  (2 ^ k <= inject_Z (roundHalfEven (q / 2 ^ (k - 52))) * 2 ^ (k - 52))%Q.
Proof.
  intros H. pose proof (pow2_pos (k - 52)) as P.
  assert (E : (2 ^ k == inject_Z (2 ^ 52) * 2 ^ (k - 52))%Q).
  { rewrite <- (pow2_Z 52) by lia. rewrite <- pow2_split. now replace (52 + (k - 52)) with k by lia. }
  assert (B : (inject_Z (2 ^ 52) <= q / 2 ^ (k - 52))%Q).
  { apply Qle_shift_div_l; [exact P|]. lra. }
  apply roundHalfEven_le in B. rewrite roundHalfEven_Z in B.
  rewrite E at 1. apply Qmult_le_compat_r; [|lra]. now rewrite <- Zle_Qle.
Qed.

Lemma nearestDouble_nonneg (q : Q) : (0 <= q)%Q -> (0 <= nearestDouble q)%Q.
Proof.
  intros H. unfold nearestDouble.
  set (e := Z.max (ilog2 q) (-1022) - 52). pose proof (pow2_pos e) as P.
  apply Qmult_le_0_compat; [|lra].
  assert (B : (inject_Z 0 <= q / 2 ^ e)%Q).
  { apply Qle_shift_div_l; [exact P|]. change (inject_Z 0) with 0%Q. lra. }
  apply roundHalfEven_le in B. rewrite roundHalfEven_Z in B.
  change 0%Q with (inject_Z 0). now rewrite <- Zle_Qle.
Qed.

Lemma nearestDouble_le (x y : Q) :
  (0 < x)%Q -> (x <= y)%Q -> (nearestDouble x <= nearestDouble y)%Q.
Proof.
  intros Hx Hxy. assert (Hy : (0 < y)%Q) by lra.
  pose proof (ilog2_le x y Hx Hxy) as L.
  destruct (ilog2_spec x Hx) as [X1 X2]. destruct (ilog2_spec y Hy) as [Y1 Y2].
  unfold nearestDouble.
  set (kx := Z.max (ilog2 x) (-1022)). set (ky := Z.max (ilog2 y) (-1022)).
  destruct (Z.eq_dec kx ky) as [E|NE].
  - rewrite <- E. pose proof (pow2_pos (kx - 52)) as P.
    apply Qmult_le_compat_r; [|lra]. rewrite <- Zle_Qle. apply roundHalfEven_le.
    apply Qle_shift_div_l; [exact P|].
    assert (Ex : (x / 2 ^ (kx - 52) * 2 ^ (kx - 52) == x)%Q) by (field; lra).
    lra.
  - assert (Lk : kx + 1 <= ky) by lia.
    assert (Ey : ky = ilog2 y) by lia.
    apply Qle_trans with (2 ^ (kx + 1))%Q.
    + apply grid_upper. apply Qle_trans with (2 ^ (ilog2 x + 1))%Q; [lra|].
      apply pow2_le. lia.
    + apply Qle_trans with (2 ^ ky)%Q; [now apply pow2_le|].
      apply grid_lower. rewrite Ey. exact Y1.
Qed.

Lemma round64_ext (x y : Q) : (x == y)%Q -> round64 x = round64 y.
Proof. intros E. unfold round64. now rewrite (Qred_complete x y E). Qed.

Lemma Qnum_sign (q : Q) :
  match Qnum q with
  | Z0 => (q == 0)%Q
  | Zpos _ => (0 < q)%Q
  | Zneg _ => (q < 0)%Q
  end.
Proof. destruct q as [[|a|a] b]; unfold Qeq, Qlt; simpl; lia. Qed.

Lemma round64_nonneg (x : Q) : (0 <= x)%Q -> (0 <= round64 x)%Q.
Proof.
  intros H. unfold round64. pose proof (Qnum_sign (Qred x)) as S.
  pose proof (Qred_correct x) as R.
  destruct (Qnum (Qred x)); [lra| |lra].
  apply nearestDouble_nonneg. lra.
Qed.

Lemma round64_le (x y : Q) : (0 <= x)%Q -> (x <= y)%Q -> (round64 x <= round64 y)%Q.
Proof.
  intros Hx Hxy. pose proof (round64_nonneg y) as Ny.
  unfold round64 in *. pose proof (Qnum_sign (Qred x)) as Sx.
  pose proof (Qnum_sign (Qred y)) as Sy.
  pose proof (Qred_correct x) as Rx. pose proof (Qred_correct y) as Ry.
  destruct (Qnum (Qred x)).
  - apply Ny. lra.
  - destruct (Qnum (Qred y)); [lra| |lra].
    apply nearestDouble_le; lra.
  - lra.
Qed.

Lemma round64_0 : round64 0 = 0%Q.
Proof. reflexivity. Qed.

Lemma round64_1 : (round64 1 == 1)%Q.
Proof. vm_compute. reflexivity. Qed.

Lemma round64_100 : (round64 100 == 100)%Q.
Proof. vm_compute. reflexivity. Qed.

(** A quotient of two counters, as a percentage. *)
Lemma percentage_range (d n : Z) :
  0 <= d <= n -> 0 < n ->
  (0 <= round64 (round64 (inject_Z d / inject_Z n) * 100) <= 100)%Q.
Proof.
  intros Hd Hn.
  assert (Pn : (0 < inject_Z n)%Q) by (change 0%Q with (inject_Z 0); now rewrite <- Zlt_Qlt).
  assert (P0 : (0 <= inject_Z d)%Q) by (change 0%Q with (inject_Z 0); rewrite <- Zle_Qle; lia).
  assert (P1 : (inject_Z d <= inject_Z n)%Q) by (rewrite <- Zle_Qle; lia).
  assert (R0 : (0 <= inject_Z d / inject_Z n)%Q) by (apply Qle_shift_div_l; [exact Pn|lra]).
  assert (R1 : (inject_Z d / inject_Z n <= 1)%Q) by (apply Qle_shift_div_r; [exact Pn|lra]).
  pose proof (round64_nonneg _ R0) as A0.
  pose proof (round64_le _ _ R0 R1) as A1. pose proof round64_1 as One.
  assert (B0 : (0 <= round64 (inject_Z d / inject_Z n) * 100)%Q) by lra.
  assert (B1 : (round64 (inject_Z d / inject_Z n) * 100 <= 100)%Q) by lra.
  split; [now apply round64_nonneg|].
  pose proof (round64_le _ _ B0 B1) as C. pose proof round64_100. lra.
Qed.

(** ** The stable sort *)

Section SortFacts.
Context {A : Type} (after : A -> A -> bool).

Lemma sort_insert_perm (x : A) (l : list A) :
  Permutation (sort_insert after x l) (x :: l).
Proof.
  induction l as [|y l IH]; simpl; [reflexivity|].
  destruct (after x y); [|reflexivity].
  rewrite IH. apply perm_swap.
Qed.

Lemma Array_sort_perm (l : list A) : Permutation (Array_sort after l) l.
Proof.
  induction l as [|x l IH]; simpl; [reflexivity|].
  unfold Array_sort in *. simpl. rewrite sort_insert_perm. now rewrite IH.
Qed.

Lemma Array_sort_nil (l : list A) : Array_sort after l = [] -> l = [].
Proof.
  intros E. pose proof (Array_sort_perm l) as P. rewrite E in P.
  now apply Permutation_nil.
Qed.

Lemma head_sort_insert (x : A) (l : list A) :
  head (sort_insert after x l) =
  match head l with
  | Some y => if after x y then Some y else Some x
  | None => Some x
  end.
Proof. destruct l as [|y l]; simpl; [reflexivity|]. now destruct (after x y). Qed.

Lemma head_Array_sort (l : list A) : head (Array_sort after l) = firstBest after l.
Proof.
  induction l as [|x l IH]; [reflexivity|].
  change (Array_sort after (x :: l)) with (sort_insert after x (Array_sort after l)).
  rewrite head_sort_insert, IH. reflexivity.
Qed.

End SortFacts.

Section StableSort.
Context (after : nat -> nat -> bool).
Hypothesis after_asym : forall a b, after a b = true -> after b a = false.
Hypothesis not_after_trans :
  forall a b c, after a b = false -> after b c = false -> after a c = false.

Lemma sort_insert_sorted (x : nat) (l : list nat) :
  StronglySorted (before after) l ->
  Forall (fun y => (x < y)%nat) l ->
  StronglySorted (before after) (sort_insert after x l).
Proof.
  induction 1 as [|y l Hl IH Hy]; intros Hx; simpl.
  - repeat constructor.
  - inversion Hx as [|? ? Hxy Hxl]; subst.
    destruct (after x y) eqn:E.
    + constructor; [now apply IH|].
      eapply Permutation_Forall; [symmetry; apply sort_insert_perm|].
      constructor; [|exact Hy].
      split; [now apply after_asym|]. intros E'. congruence.
    + constructor; [now constructor|].
      constructor; [split; [exact E|intros _; exact Hxy]|].
      rewrite Forall_forall in *. intros z Hz. split.
      * eapply not_after_trans; [exact E|]. now apply (Hy z Hz).
      * intros _. now apply Hxl.
Qed.

Lemma Array_sort_sorted (l : list nat) :
  StronglySorted lt l -> StronglySorted (before after) (Array_sort after l).
Proof.
  induction 1 as [|x l Hl IH Hx]; [constructor|].
  change (Array_sort after (x :: l)) with (sort_insert after x (Array_sort after l)).
  apply sort_insert_sorted; [exact IH|].
  eapply Permutation_Forall; [symmetry; apply Array_sort_perm|exact Hx].
Qed.

End StableSort.

Lemma seq_sorted (start len : nat) : StronglySorted lt (seq start len).
Proof.
  revert start. induction len as [|len IH]; intros start; simpl; constructor.
  - apply IH.
  - apply Forall_forall. intros x Hx. apply list_elem_of_In, in_seq in Hx. lia.
Qed.

Lemma filter_sorted {A : Type} (R : A -> A -> Prop) (f : A -> bool) (l : list A) :
  StronglySorted R l -> StronglySorted R (List.filter f l).
Proof.
  induction 1 as [|x l Hl IH Hx]; simpl; [constructor|].
  destruct (f x); [|exact IH].
  constructor; [exact IH|].
  rewrite Forall_forall in *. intros y Hy.
  apply Hx. apply list_elem_of_In. apply list_elem_of_In, filter_In in Hy. tauto.
Qed.

Lemma sorted_lt_NoDup (l : list nat) : StronglySorted lt l -> NoDup l.
Proof.
  induction 1 as [|x l Hl IH Hx]; constructor; [|exact IH].
  intros Hin. rewrite Forall_forall in Hx. specialize (Hx x Hin). lia.
Qed.

Lemma StronglySorted_weaken_elem {A : Type} (R R' : A -> A -> Prop) (l : list A) :
  (forall a b, a ∈ l -> b ∈ l -> R a b -> R' a b) -> StronglySorted R l -> StronglySorted R' l.
Proof.
  intros HR S. induction S as [|x l Hl IH Hx]; constructor.
  - apply IH. intros a b Ha Hb. apply HR; now right.
  - rewrite Forall_forall in *. intros b Hb. apply HR; [left|now right|now apply Hx].
Qed.

Lemma StronglySorted_weaken {A : Type} (R R' : A -> A -> Prop) (l : list A) :
  (forall a b, R a b -> R' a b) -> StronglySorted R l -> StronglySorted R' l.
Proof.
  intros HR. induction 1 as [|x l Hl IH Hx]; constructor; [exact IH|].
  eapply Forall_impl; [exact Hx|]. intros b. apply HR.
Qed.

(** ** The registry *)

Section RegistryFacts.
Import SMSProviderFactory.
Context {World : Type} (h : Heap World).

Lemma deref_Some_lt (ref : nat) (p : BaseSMSProvider World) :
  deref h ref = Some p -> (ref < length (providers h))%nat.
Proof.
  unfold deref. intros E. destruct (providers h !! ref) eqn:L; [|discriminate].
  eapply lookup_lt_Some; eauto.
Qed.

Lemma deref_lt_Some (ref : nat) :
  (ref < length (providers h))%nat -> exists p, deref h ref = Some p.
Proof.
  intros Hlt. apply lookup_lt_is_Some in Hlt. destruct Hlt as [[k p] E].
  exists p. unfold deref. now rewrite E.
Qed.

Lemma elem_of_getAllProviders (ref : nat) :
  ref ∈ getAllProviders h <-> (ref < length (providers h))%nat.
Proof.
  unfold getAllProviders. rewrite list_elem_of_In, in_seq. lia.
Qed.

Lemma eligible_spec (countryCode : string) (ref : nat) :
  eligible h countryCode ref = true <->
  exists p, deref h ref = Some p /\
    (countryCode ∈ supportedCountries (config p) \/ "*" ∈ supportedCountries (config p)).
Proof.
  unfold eligible, supportsCountry, includes. destruct (deref h ref) as [p|].
  - rewrite orb_true_iff, !bool_decide_eq_true. split.
    + intros H. exists p. tauto.
    + intros (q & [= <-] & H). exact H.
  - split; [discriminate|]. intros (q & [=] & _).
Qed.

Lemma elem_of_getProvidersForCountry (countryCode : string) (ref : nat) :
  ref ∈ getProvidersForCountry h countryCode <->
  exists p, deref h ref = Some p /\
    (countryCode ∈ supportedCountries (config p) \/ "*" ∈ supportedCountries (config p)).
Proof.
  unfold getProvidersForCountry.
  rewrite (Array_sort_perm _ _), list_elem_of_In, filter_In, <- list_elem_of_In.
  rewrite eligible_spec, elem_of_getAllProviders. split; [tauto|].
  intros (p & Hp & H). split; [|eauto]. eapply deref_Some_lt; eauto.
Qed.

Lemma getProvidersForCountry_NoDup (countryCode : string) :
  NoDup (getProvidersForCountry h countryCode).
Proof.
  unfold getProvidersForCountry. rewrite (Array_sort_perm _ _).
  apply sorted_lt_NoDup, filter_sorted, seq_sorted.
Qed.

(** The list is in ascending order of [priority || 999]; providers of equal
    rank keep their registration order. *)
Lemma getProvidersForCountry_sorted (countryCode : string) :
  StronglySorted
    (fun a b => priorityOf h a < priorityOf h b
                \/ (priorityOf h a = priorityOf h b /\ (a < b)%nat))
    (getProvidersForCountry h countryCode).
Proof.
  unfold getProvidersForCountry.
  eapply StronglySorted_weaken; [|apply Array_sort_sorted].
  - intros a b [H1 H2]. simpl in *.
    apply Z.ltb_ge in H1.
    destruct (Z.eq_dec (priorityOf h a) (priorityOf h b)) as [E|NE]; [|lia].
    right. split; [exact E|]. apply H2. apply Z.ltb_ge. lia.
  - intros a b H. apply Z.ltb_lt in H. apply Z.ltb_ge. lia.
  - intros a b c H1 H2. apply Z.ltb_ge in H1, H2. apply Z.ltb_ge. lia.
  - apply filter_sorted, seq_sorted.
Qed.

Lemma priorityOf_configured (ref : nat) :
  (forall p, deref h ref = Some p -> priority (config p) <> Some 0) ->
  priorityOf h ref = configuredPriority h ref.
Proof.
  unfold priorityOf, configuredPriority. intros H.
  destruct (deref h ref) as [p|]; [|reflexivity].
  specialize (H p eq_refl). unfold or_Z.
  destruct (priority (config p)) as [z|]; [|reflexivity]. simpl.
  destruct (Z.eqb_spec z 0); [subst; congruence|reflexivity].
Qed.

Lemma getProvidersForCountry_valid (countryCode : string) :
  Forall (fun ref => (ref < length (providers h))%nat) (getProvidersForCountry h countryCode).
Proof.
  apply Forall_forall. intros ref Hin.
  apply elem_of_getProvidersForCountry in Hin. destruct Hin as (p & Hp & _).
  eapply deref_Some_lt; eauto.
Qed.

Lemma getProvidersForNetwork_valid (countryCode network : string) :
  Forall (fun ref => (ref < length (providers h))%nat)
         (getProvidersForNetwork h countryCode network).
Proof.
  unfold getProvidersForNetwork. apply Forall_forall. intros ref Hin.
  apply list_elem_of_In, filter_In in Hin. destruct Hin as [Hin _].
  apply list_elem_of_In in Hin.
  pose proof (getProvidersForCountry_valid countryCode) as V.
  rewrite Forall_forall in V. now apply V.
Qed.

End RegistryFacts.

(** When no provider that is eligible for the country is configured with
    priority 0, [getProvidersForCountry] returns exactly the registered
    providers whose supported countries include the code or the wildcard,
    each once, in ascending order of priority, a provider without a
    configured priority ranking as 999; providers of equal priority are in
    registration order. *)
Lemma getProvidersForCountry_priority_order {World : Type} (h : Heap World)
    (countryCode : string) :
  (forall ref p,
      ref ∈ SMSProviderFactory.getProvidersForCountry h countryCode ->
      deref h ref = Some p -> priority (config p) <> Some 0) ->
  (forall ref,
      ref ∈ SMSProviderFactory.getProvidersForCountry h countryCode <->
      exists p, deref h ref = Some p /\
        (countryCode ∈ supportedCountries (config p) \/ "*" ∈ supportedCountries (config p)))
  /\ NoDup (SMSProviderFactory.getProvidersForCountry h countryCode)
  /\ StronglySorted
       (fun a b => configuredPriority h a < configuredPriority h b
                   \/ (configuredPriority h a = configuredPriority h b /\ (a < b)%nat))
       (SMSProviderFactory.getProvidersForCountry h countryCode).
Proof.
  intros Hprio. split; [|split].
  - intros ref. apply elem_of_getProvidersForCountry.
  - apply getProvidersForCountry_NoDup.
  - assert (E : forall ref,
               ref ∈ SMSProviderFactory.getProvidersForCountry h countryCode ->
               SMSProviderFactory.priorityOf h ref = configuredPriority h ref).
    { intros ref Hin. apply priorityOf_configured. intros p. now apply Hprio. }
    eapply StronglySorted_weaken_elem; [|apply getProvidersForCountry_sorted].
    intros a b Ha Hb. simpl. rewrite !E by assumption. tauto.
Qed.

(** Priorities 3, 1 and 2 for the same country come back as priority 1,
    priority 2, priority 3. *)
Lemma getProvidersForCountry_priority_order_witness :
  SMSProviderFactory.getProvidersForCountry Samples.registry312 "GH" = [1; 2; 0]%nat
  /\ StronglySorted
       (fun a b => configuredPriority Samples.registry312 a < configuredPriority Samples.registry312 b
                   \/ (configuredPriority Samples.registry312 a = configuredPriority Samples.registry312 b
                       /\ (a < b)%nat))
       (SMSProviderFactory.getProvidersForCountry Samples.registry312 "GH").
Proof.
  split; [reflexivity|].
  apply (getProvidersForCountry_priority_order Samples.registry312 "GH").
  intros ref p Hin E.
  apply (f_equal (fmap (priority ∘ config))) in E.
  change (SMSProviderFactory.getProvidersForCountry Samples.registry312 "GH")
    with [1; 2; 0]%nat in Hin.
  apply list_elem_of_In in Hin.
  destruct Hin as [<-|[<-|[<-|[]]]]; injection E as <-; discriminate.
Defined.


(** C10.  A provider whose supported countries are exactly the wildcard does
    not itself support any concrete country code, yet the registry lists
    it for every country: the wildcard is handled by the registry filter. *)
Theorem wildcard_only_through_registry {World : Type} (h : Heap World) (ref : nat)
    (p : BaseSMSProvider World) (countryCode : string) :
  deref h ref = Some p ->
  supportedCountries (config p) = ["*"] ->
  countryCode <> "*" ->
  supportsCountry p countryCode = false
  /\ ref ∈ SMSProviderFactory.getProvidersForCountry h countryCode.
Proof.
  intros Hp Hc Hne. split.
  - unfold supportsCountry, includes. rewrite Hc. apply bool_decide_eq_false.
    intros Hin. apply list_elem_of_singleton in Hin. contradiction.
  - apply elem_of_getProvidersForCountry. exists p. split; [exact Hp|].
    right. rewrite Hc. apply list_elem_of_singleton. reflexivity.
Qed.

Lemma wildcard_only_through_registry_witness :
  supportsCountry (Samples.scripted (mkConfig "Twilio" ["*"] None (Some 10)) initialStats
                     (Normal (Samples.accepted "twilio")) (Normal Samples.statusSent)
                     (Normal (Samples.funds 100))) "KE" = false
  /\ 0%nat ∈ SMSProviderFactory.getProvidersForCountry Samples.registryWildcard "KE".
Proof.
  apply (wildcard_only_through_registry Samples.registryWildcard 0 _ "KE").
  - reflexivity.
  - reflexivity.
  - discriminate.
Defined.

(** ** Calls and the call log *)

Section CallFacts.
Context {World A : Type} (call : nat -> M World A) (event : nat -> completion A -> Call).
Hypothesis call_logged :
  forall ref (h : Heap World) result h',
    (ref < length (providers h))%nat ->
    call ref h = (result, h') ->
    calls h' = (calls h ++ [event ref result])%list
    /\ map fst (providers h') = map fst (providers h).

Lemma callEach_calls (refs : list nat) (h : Heap World) outs h' :
  Forall (fun ref => (ref < length (providers h))%nat) refs ->
  callEach call refs h = (outs, h') ->
  calls h' = (calls h ++ zip_with event refs outs)%list
  /\ length outs = length refs
  /\ map fst (providers h') = map fst (providers h).
Proof.
  revert h outs h'. induction refs as [|ref rest IH]; intros h outs h' V E; simpl in E.
  - injection E as <- <-. simpl. now rewrite app_nil_r.
  - inversion V as [|? ? Href Hrest]; subst.
    destruct (call ref h) as [o h1] eqn:E1.
    destruct (callEach call rest h1) as [os h2] eqn:E2.
    injection E as <- <-.
    destruct (call_logged _ _ _ _ Href E1) as [C1 K1].
    assert (L1 : length (providers h1) = length (providers h)).
    { rewrite <- (length_map fst (providers h1)), K1. apply length_map. }
    destruct (IH h1 os h2) as (C2 & L2 & K2); [now rewrite L1|exact E2|].
    simpl. rewrite C2, C1, <- app_assoc, K2, K1, L2. repeat split; reflexivity.
Qed.

End CallFacts.

Lemma insert_same_key {B : Type} (l : list (string * B)) (ref : nat) (key : string) (x y : B) :
  l !! ref = Some (key, x) -> map fst (<[ref := (key, y)]> l) = map fst l.
Proof.
  intros E. change (map fst) with (fmap (M:=list) (@fst string B)).
  rewrite list_fmap_insert. simpl. apply list_insert_id.
  rewrite list_lookup_fmap, E. reflexivity.
Qed.

Lemma call_checkBalance_logged {World : Type} ref (h : Heap World) result h' :
  (ref < length (providers h))%nat ->
  call_checkBalance ref h = (result, h') ->
  calls h' = (calls h ++ [CallCheckBalance ref result])%list
  /\ map fst (providers h') = map fst (providers h).
Proof.
  intros Hlt. unfold call_checkBalance.
  apply lookup_lt_is_Some in Hlt. destruct Hlt as [[key p] E]. rewrite E.
  repeat case_match. intros [= <- <-]. simpl.
  split; [reflexivity|]. eapply insert_same_key; eauto.
Qed.

Lemma call_getDeliveryStatus_logged {World : Type} (id : string) ref (h : Heap World)
    result h' :
  (ref < length (providers h))%nat ->
  call_getDeliveryStatus ref id h = (result, h') ->
  calls h' = (calls h ++ [CallGetDeliveryStatus ref id result])%list
  /\ map fst (providers h') = map fst (providers h).
Proof.
  intros Hlt. unfold call_getDeliveryStatus.
  apply lookup_lt_is_Some in Hlt. destruct Hlt as [[key p] E]. rewrite E.
  repeat case_match. intros [= <- <-]. simpl.
  split; [reflexivity|]. eapply insert_same_key; eauto.
Qed.

Lemma call_sendSMS_logged {World : Type} (options : SendSMSOptions) ref (h : Heap World)
    result h' :
  (ref < length (providers h))%nat ->
  call_sendSMS ref options h = (result, h') ->
  calls h' = (calls h ++ [CallSendSMS ref options result])%list
  /\ map fst (providers h') = map fst (providers h).
Proof.
  intros Hlt. unfold call_sendSMS.
  apply lookup_lt_is_Some in Hlt. destruct Hlt as [[key p] E]. rewrite E.
  repeat case_match. intros [= <- <-]. simpl.
  split; [reflexivity|]. eapply insert_same_key; eauto.
Qed.

(** ** The failover loop *)

Section RouterFacts.
Import SMSProviderFactory SMSProviderRouter.
Context {World : Type}.
Implicit Types (h : Heap World) (options : SendSMSOptions).

Lemma attempt_call ref options h :
  attempt ref options h =
  (Normal (turnOf (fst (call_sendSMS ref options h))), snd (call_sendSMS ref options h)).
Proof.
  unfold attempt, try_catch, bind, ret.
  destruct (call_sendSMS ref options h) as [[response|error] h1]; simpl; [|reflexivity].
  now destruct (success response).
Qed.

Lemma turnOf_failed (result : completion ProviderResponse) :
  succeeded result = false -> turnOf result = Continue (lastErrorOf result).
Proof.
  destruct result as [response|error]; simpl; [|reflexivity].
  now intros ->.
Qed.

(** The loop returns the first success and has then made exactly the calls
    up to it. *)
Lemma tryEach_first_success options (refs : list nat) :
  forall (k : nat) (lastError : LastError) h outs hN response,
    callEach (fun ref => call_sendSMS ref options) refs h = (outs, hN) ->
    outs !! k = Some (Normal response) ->
    success response = true ->
    (forall j o, (j < k)%nat -> outs !! j = Some o -> succeeded o = false) ->
    exists h',
      tryEach refs options lastError h = (Normal response, h')
      /\ callEach (fun ref => call_sendSMS ref options) (take (S k) refs) h
         = (take (S k) outs, h').
Proof.
  induction refs as [|ref rest IH]; intros k lastError h outs hN response E Hk Hs Hbefore;
    simpl in E.
  - injection E as <- <-. discriminate.
  - destruct (call_sendSMS ref options h) as [o h1] eqn:E1.
    destruct (callEach _ rest h1) as [os h2] eqn:E2.
    injection E as <- <-.
    destruct k as [|k]; simpl in Hk.
    + injection Hk as ->. exists h1. split.
      * simpl. unfold bind at 1. rewrite attempt_call, E1. simpl. rewrite Hs. reflexivity.
      * simpl. rewrite E1. rewrite take_0. reflexivity.
    + assert (Ho : succeeded o = false) by (apply (Hbefore 0%nat); [lia|reflexivity]).
      destruct (IH k (lastErrorOf o) h1 os h2 response E2 Hk Hs) as (h' & T & C).
      { intros j o' Hj Hl. apply (Hbefore (S j)); [lia|exact Hl]. }
      exists h'. split.
      * simpl. unfold bind at 1. rewrite attempt_call, E1. simpl.
        rewrite (turnOf_failed _ Ho). exact T.
      * change (take (S (S k)) (ref :: rest)) with (ref :: take (S k) rest).
        simpl callEach. rewrite E1, C. reflexivity.
Qed.

(** When no call succeeds the loop makes them all and builds its answer
    from the last failure. *)
Lemma tryEach_exhausted options (refs : list nat) :
  forall (lastError : LastError) h outs h',
    callEach (fun ref => call_sendSMS ref options) refs h = (outs, h') ->
    Forall (fun o => succeeded o = false) outs ->
    tryEach refs options lastError h
    = (Normal (allFailed (fold_left (fun _ o => lastErrorOf o) outs lastError)), h').
Proof.
  induction refs as [|ref rest IH]; intros lastError h outs h' E F; simpl in E.
  - injection E as <- <-. reflexivity.
  - destruct (call_sendSMS ref options h) as [o h1] eqn:E1.
    destruct (callEach _ rest h1) as [os h2] eqn:E2.
    injection E as <- <-. inversion F as [|? ? Ho Hos]; subst.
    simpl. unfold bind at 1. rewrite attempt_call, E1. simpl.
    rewrite (turnOf_failed _ Ho). now apply IH.
Qed.

Lemma fold_left_last_failure (outs : list (completion ProviderResponse))
    (o : completion ProviderResponse) (lastError : LastError) :
  last outs = Some o ->
  fold_left (fun _ o' => lastErrorOf o') outs lastError = lastErrorOf o.
Proof.
  revert lastError. induction outs as [|o1 outs IH]; intros lastError; [discriminate|].
  destruct outs as [|o2 outs].
  - simpl. now intros [= ->].
  - intros Hl. simpl. apply (IH (lastErrorOf o1)). exact Hl.
Qed.

(** The loop always returns a response. *)
Lemma tryEach_returns options (refs : list nat) :
  forall (lastError : LastError) h,
    exists response h', tryEach refs options lastError h = (Normal response, h').
Proof.
  induction refs as [|ref rest IH]; intros lastError h; simpl.
  - unfold ret. eauto.
  - unfold bind at 1. rewrite attempt_call.
    destruct (turnOf _) as [response|e]; [unfold ret; eauto|apply IH].
Qed.

Lemma candidatesFor_valid h (country : string) (network : option string) :
  Forall (fun ref => (ref < length (providers h))%nat) (candidatesFor h country network).
Proof.
  unfold candidatesFor. destruct (truthy_string network).
  - apply getProvidersForNetwork_valid.
  - apply getProvidersForCountry_valid.
Qed.

Lemma sendSMS_nonempty options (country : string) (network : option string) h :
  candidatesFor h country network <> [] ->
  sendSMS options country network h
  = tryEach (candidatesFor h country network) options NoError h.
Proof.
  intros Hne. unfold sendSMS, route, try_catch, bind. simpl.
  destruct (candidatesFor h country network) as [|c cs] eqn:E; [contradiction|].
  change ((length (c :: cs) =? 0)%nat) with false. cbv iota.
  destruct (tryEach_returns options (c :: cs) NoError h) as (r & h' & T).
  rewrite T. reflexivity.
Qed.

End RouterFacts.

(** C1.  Let the candidates be the list the registry lookup yields, and
    suppose that, calling them in that order, the candidate at position [k]
    (counted from 0) is the first whose [sendSMS] returns a response with
    [success = true].  Then [Router.sendSMS] returns that very response, and
    the calls it has made are exactly the calls on the candidates at
    positions 0 to [k], in order. *)
Theorem sendSMS_stops_at_first_success {World : Type} (h : Heap World)
    (options : SendSMSOptions) (country : string) (network : option string)
    (k : nat) (outs : list (completion ProviderResponse)) (hN : Heap World)
    (response : ProviderResponse) :
  callEach (fun ref => call_sendSMS ref options)
           (SMSProviderRouter.candidatesFor h country network) h = (outs, hN) ->
  outs !! k = Some (Normal response) ->
  success response = true ->
  (forall j o, (j < k)%nat -> outs !! j = Some o -> succeeded o = false) ->
  exists h',
    SMSProviderRouter.sendSMS options country network h = (Normal response, h')
    /\ callEach (fun ref => call_sendSMS ref options)
                (take (S k) (SMSProviderRouter.candidatesFor h country network)) h
       = (take (S k) outs, h')
    /\ calls h' =
       (calls h ++ zip_with (fun ref o => CallSendSMS ref options o)
                            (take (S k) (SMSProviderRouter.candidatesFor h country network))
                            (take (S k) outs))%list.
Proof.
  intros E Hk Hs Hbefore.
  assert (Hne : SMSProviderRouter.candidatesFor h country network <> []).
  { intros Hnil. rewrite Hnil in E. simpl in E. injection E as <- _. discriminate. }
  destruct (tryEach_first_success options _ k SMSProviderRouter.NoError h outs hN response
              E Hk Hs Hbefore) as (h' & T & C).
  exists h'. split; [|split].
  - rewrite sendSMS_nonempty by exact Hne. exact T.
  - exact C.
  - eapply (callEach_calls _ (fun ref o => CallSendSMS ref options o)
               (call_sendSMS_logged options)); [|exact C].
    apply Forall_take, candidatesFor_valid.
Qed.

(** Provider A (priority 1) is out of credit, provider B (priority 2)
    accepts: A then B are called and B's response is returned. *)
Lemma sendSMS_stops_at_first_success_witness :
  exists h',
    SMSProviderRouter.sendSMS Samples.options "GH" None Samples.registry312
    = (Normal (Samples.accepted "b"), h')
    /\ callEach (fun ref => call_sendSMS ref Samples.options)
                (take 2 (SMSProviderRouter.candidatesFor Samples.registry312 "GH" None))
                Samples.registry312
       = (take 2 [Normal (Samples.noCredit "a"); Normal (Samples.accepted "b");
                  Normal (Samples.accepted "c")], h')
    /\ calls h' =
       (calls Samples.registry312
        ++ zip_with (fun ref o => CallSendSMS ref Samples.options o)
             (take 2 (SMSProviderRouter.candidatesFor Samples.registry312 "GH" None))
             (take 2 [Normal (Samples.noCredit "a"); Normal (Samples.accepted "b");
                      Normal (Samples.accepted "c")]))%list.
Proof.
  eapply (sendSMS_stops_at_first_success Samples.registry312 Samples.options "GH" None 1).
  - reflexivity.
  - reflexivity.
  - reflexivity.
  - intros j o Hj Ho. destruct j as [|j]; [|lia].
    injection Ho as <-. reflexivity.
Defined.

(** C2 (as amended).  When the candidate list is not empty and every
    attempt fails, by a response with [success = false] or by throwing,
    [Router.sendSMS] has called every candidate and returns a new response
    with [success = false], status [failed], [providerId] the sentinel
    ["multiple"], the message of the last failure (or a default) and the
    error code of the last failure if it has a non-empty one, [ALL_FAILED]
    otherwise.  No other field of the last failure is carried over. *)
Theorem sendSMS_all_failed {World : Type} (h : Heap World)
    (options : SendSMSOptions) (country : string) (network : option string)
    (outs : list (completion ProviderResponse)) (h' : Heap World) :
  SMSProviderRouter.candidatesFor h country network <> [] ->
  callEach (fun ref => call_sendSMS ref options)
           (SMSProviderRouter.candidatesFor h country network) h = (outs, h') ->
  Forall (fun o => succeeded o = false) outs ->
  exists lastFailure,
    last outs = Some lastFailure
    /\ SMSProviderRouter.sendSMS options country network h
       = (Normal (mkResponse false failed None
                    (Some (or_string (failure_message lastFailure) "All providers failed"))
                    (Some (or_string (failure_errorCode lastFailure) "ALL_FAILED"))
                    "multiple" None None None), h')
    /\ calls h' =
       (calls h ++ zip_with (fun ref o => CallSendSMS ref options o)
                            (SMSProviderRouter.candidatesFor h country network) outs)%list.
Proof.
  intros Hne E F.
  destruct (callEach_calls _ (fun ref o => CallSendSMS ref options o)
              (call_sendSMS_logged options) _ h outs h'
              (candidatesFor_valid h country network) E) as (C & L & _).
  destruct (last outs) as [lastFailure|] eqn:Hl.
  - exists lastFailure. split; [reflexivity|]. split; [|exact C].
    rewrite sendSMS_nonempty by exact Hne.
    rewrite (tryEach_exhausted options _ SMSProviderRouter.NoError h outs h' E F).
    rewrite (fold_left_last_failure outs lastFailure _ Hl).
    unfold SMSProviderRouter.allFailed. now destruct lastFailure.
  - apply last_None in Hl. subst outs. simpl in L.
    destruct (SMSProviderRouter.candidatesFor h country network); [contradiction|discriminate].
Qed.

(** Provider A (priority 1) is out of credit and provider T (priority 2)
    throws: both are called, A first, and the response carries the message
    of the throw, which is the last failure, and the code [ALL_FAILED]. *)
Lemma sendSMS_all_failed_witness :
  SMSProviderRouter.candidatesFor Samples.registryAllFail "GH" None = [1; 0]%nat
  /\ exists lastFailure,
       last [Normal (Samples.noCredit "a"); Throw (mkThrown (Some "Connection timed out") None)]
       = Some lastFailure
       /\ SMSProviderRouter.sendSMS Samples.options "GH" None Samples.registryAllFail
          = (Normal (mkResponse false failed None
                       (Some (or_string (failure_message lastFailure) "All providers failed"))
                       (Some (or_string (failure_errorCode lastFailure) "ALL_FAILED"))
                       "multiple" None None None),
             snd (callEach (fun ref => call_sendSMS ref Samples.options) [1; 0]%nat
                           Samples.registryAllFail))
       /\ calls (snd (callEach (fun ref => call_sendSMS ref Samples.options) [1; 0]%nat
                              Samples.registryAllFail)) =
          (calls Samples.registryAllFail
           ++ zip_with (fun ref o => CallSendSMS ref Samples.options o)
                (SMSProviderRouter.candidatesFor Samples.registryAllFail "GH" None)
                [Normal (Samples.noCredit "a");
                 Throw (mkThrown (Some "Connection timed out") None)])%list.
Proof.
  split; [reflexivity|].
  apply (sendSMS_all_failed Samples.registryAllFail Samples.options "GH" None).
  - change (SMSProviderRouter.candidatesFor Samples.registryAllFail "GH" None)
      with [1; 0]%nat. discriminate.
  - reflexivity.
  - repeat constructor.
Defined.

(** C2 (as stated) fails: with a single provider answering
    [insufficient_credit], the response of the router is not that response
    with only [providerId] and [errorCode] replaced; its status is [failed]. *)
Lemma sendSMS_exhausted_not_last_outcome :
  SMSProviderRouter.candidatesFor Samples.registryNoCredit "GH" None = [0%nat]
  /\ fst (call_sendSMS 0 Samples.options Samples.registryNoCredit)
     = Normal (Samples.noCredit "a")
  /\ fst (SMSProviderRouter.sendSMS Samples.options "GH" None Samples.registryNoCredit)
     = Normal (mkResponse false failed None (Some "Out of credit") (Some "403") "multiple"
                          None None None)
  /\ fst (SMSProviderRouter.sendSMS Samples.options "GH" None Samples.registryNoCredit)
     <> Normal (exhaustedAsSpecified (Samples.noCredit "a")).
Proof.
  assert (R : fst (SMSProviderRouter.sendSMS Samples.options "GH" None
                     Samples.registryNoCredit)
              = Normal (mkResponse false failed None (Some "Out of credit") (Some "403")
                                   "multiple" None None None)) by reflexivity.
  split; [reflexivity|]. split; [reflexivity|]. split; [exact R|].
  rewrite R. discriminate.
Qed.

(** C3.  When the registry lookup yields no candidate, [Router.sendSMS]
    returns [success = false], status [failed], error code [NO_PROVIDER];
    the heap is left as it was: no call has been made and the statistics of
    every provider are unchanged. *)
Theorem sendSMS_no_provider {World : Type} (h : Heap World)
    (options : SendSMSOptions) (country : string) (network : option string) :
  SMSProviderRouter.candidatesFor h country network = [] ->
  exists response h',
    SMSProviderRouter.sendSMS options country network h = (Normal response, h')
    /\ success response = false
    /\ status response = failed
    /\ errorCode response = Some "NO_PROVIDER"
    /\ h' = h
    /\ calls h' = calls h
    /\ (forall ref, stats <$> deref h' ref = stats <$> deref h ref).
Proof.
  intros E. exists (SMSProviderRouter.noProvider country network), h.
  unfold SMSProviderRouter.sendSMS, SMSProviderRouter.route, try_catch, bind, ret.
  simpl. rewrite E. simpl. repeat split; reflexivity.
Qed.

Lemma sendSMS_no_provider_witness :
  exists response h',
    SMSProviderRouter.sendSMS Samples.options "ZZ" None Samples.registry312
    = (Normal response, h')
    /\ success response = false
    /\ status response = failed
    /\ errorCode response = Some "NO_PROVIDER"
    /\ h' = Samples.registry312
    /\ calls h' = calls Samples.registry312
    /\ (forall ref, stats <$> deref h' ref = stats <$> deref Samples.registry312 ref).
Proof.
  apply (sendSMS_no_provider Samples.registry312 Samples.options "ZZ" None).
  reflexivity.
Defined.

(** C7.  [Router.sendSMS] always returns a response, whatever the registry
    holds and whatever the providers do, throwing anything included.  The
    body of [sendSMS] returns a response for every way of looking the
    candidates up that does not throw [null] or [undefined]; and whenever
    the lookup throws a value whose properties can be read, the response
    has [success = false], status [failed], error code [ROUTING_ERROR],
    [providerId = "router"] and the message of the value thrown, or
    ["SMS routing failed"] when it has none. *)
Theorem sendSMS_never_throws {World : Type} :
  (forall (options : SendSMSOptions) (country : string) (network : option string)
          (h : Heap World),
      exists response h',
        SMSProviderRouter.sendSMS options country network h = (Normal response, h'))
  /\ (forall (lookup : M World (list nat)) (options : SendSMSOptions) (country : string)
             (network : option string) (h : Heap World),
         readable (fst (lookup h)) ->
         exists response h',
           SMSProviderRouter.route lookup options country network h = (Normal response, h'))
  /\ (forall (lookup : M World (list nat)) (options : SendSMSOptions) (country : string)
             (network : option string) (h h1 : Heap World) (message code : option string),
         lookup h = (Throw (mkThrown message code), h1) ->
         exists response,
           SMSProviderRouter.route lookup options country network h = (Normal response, h1)
           /\ success response = false
           /\ status response = failed
           /\ errorCode response = Some "ROUTING_ERROR"
           /\ providerId response = "router"
           /\ response_message response = Some (or_string message "SMS routing failed")).
Proof.
  assert (R : forall (lookup : M World (list nat)) options country network (h : Heap World),
             readable (fst (lookup h)) ->
             exists response h',
               SMSProviderRouter.route lookup options country network h = (Normal response, h')).
  { intros lookup options country network h Hr.
    unfold SMSProviderRouter.route, try_catch, bind.
    destruct (lookup h) as [[candidates|error] h1].
    - destruct (length candidates =? 0)%nat; [unfold ret; eauto|].
      destruct (tryEach_returns options candidates SMSProviderRouter.NoError h1)
        as (r & h' & T).
      rewrite T. eauto.
    - destruct error as [|message code]; [now contradiction Hr|].
      unfold lift, ret. simpl. eauto. }
  split; [|split].
  - intros options country network h. apply R. discriminate.
  - exact R.
  - intros lookup options country network h h1 message code E.
    exists (SMSProviderRouter.routingError message).
    unfold SMSProviderRouter.route, try_catch, bind, ret. rewrite E.
    repeat split; reflexivity.
Qed.

Lemma sendSMS_never_throws_witness :
  exists response,
    SMSProviderRouter.route (fun h => (Throw (mkThrown (Some "Map is broken") None), h))
      Samples.options "GH" None Samples.registry312
    = (Normal response, Samples.registry312)
    /\ success response = false
    /\ status response = failed
    /\ errorCode response = Some "ROUTING_ERROR"
    /\ providerId response = "router"
    /\ response_message response = Some (or_string (Some "Map is broken") "SMS routing failed").
Proof.
  apply (proj2 (proj2 (@sendSMS_never_throws unit)))
    with (message := Some "Map is broken") (code := None).
  reflexivity.
Defined.

(** ** Selection by speed *)

Lemma Qpositive_true (q : Q) : Qpositive q = true <-> (0 < q)%Q.
Proof.
  unfold Qpositive. rewrite negb_true_iff, <- not_true_iff_false, Qle_bool_iff.
  split; [apply Qnot_le_lt|apply Qlt_not_le].
Qed.

Lemma Qpositive_false (q : Q) : Qpositive q = false <-> (q <= 0)%Q.
Proof.
  unfold Qpositive. rewrite negb_false_iff, Qle_bool_iff. reflexivity.
Qed.

(** Scanning for the best element by a numeric key finds the leftmost
    element of least key. *)
Lemma firstBest_least {A : Type} (key : A -> Q) (l : list A) :
  match firstBest (fun a b => Qpositive (key a - key b)) l with
  | None => l = []
  | Some best =>
      exists pre post,
        l = (pre ++ best :: post)%list
        /\ Forall (fun c => (key best < key c)%Q) pre
        /\ Forall (fun c => (key best <= key c)%Q) post
  end.
Proof.
  induction l as [|x l IH]; simpl; [reflexivity|].
  destruct (firstBest _ l) as [y|].
  - destruct IH as (pre & post & -> & Hpre & Hpost).
    destruct (Qpositive (key x - key y)) eqn:E.
    + apply Qpositive_true in E.
      exists (x :: pre), post. split; [reflexivity|]. split; [|exact Hpost].
      constructor; [simpl; lra|exact Hpre].
    + apply Qpositive_false in E.
      exists [], (pre ++ y :: post)%list. split; [reflexivity|]. split; [constructor|].
      apply Forall_app. split; [|constructor].
      * eapply Forall_impl; [exact Hpre|]. intros c Hc. simpl in *. lra.
      * simpl. lra.
      * eapply Forall_impl; [exact Hpost|]. intros c Hc. simpl in *. lra.
  - subst l. exists [], []. repeat split; constructor.
Qed.

(** C6 (as amended).  With criterion [speed], [getBestProvider] returns the
    first candidate, in priority order, of least effective latency; the
    effective latency of a candidate is its [avgLatency] when that is not
    zero and 1000 when no latency has been recorded.  It returns nothing
    only when there is no candidate. *)
Theorem getBestProvider_speed {World : Type} (h : Heap World) (country : string)
    (network : option string) :
  match SMSProviderRouter.getBestProvider h country network (Some SMSProviderRouter.by_speed) with
  | None => SMSProviderRouter.candidatesFor h country network = []
  | Some best =>
      exists pre post,
        SMSProviderRouter.candidatesFor h country network = (pre ++ best :: post)%list
        /\ Forall (fun c => (SMSProviderRouter.latencyOf h best < SMSProviderRouter.latencyOf h c)%Q) pre
        /\ Forall (fun c => (SMSProviderRouter.latencyOf h best <= SMSProviderRouter.latencyOf h c)%Q) post
  end
  /\ (forall ref p,
        deref h ref = Some p ->
        SMSProviderRouter.latencyOf h ref
        = if Qeq_bool (avgLatency (stats p)) 0 then 1000%Q else avgLatency (stats p)).
Proof.
  split.
  - unfold SMSProviderRouter.getBestProvider.
    destruct (SMSProviderRouter.candidatesFor h country network) as [|c cs] eqn:E;
      [reflexivity|].
    change ((length (c :: cs) =? 0)%nat) with false. cbv iota.
    rewrite head_Array_sort.
    pose proof (firstBest_least (SMSProviderRouter.latencyOf h) (c :: cs)) as F.
    destruct (firstBest _ (c :: cs)) as [best|]; [exact F|discriminate].
  - intros ref p Hp. unfold SMSProviderRouter.latencyOf, or_Q, truthy_Q. rewrite Hp.
    now destruct (Qeq_bool (avgLatency (stats p)) 0).
Qed.

(** Of a provider measured at 2000 and one never measured, ranked at 1000,
    the second is the first of least effective latency. *)
Lemma getBestProvider_speed_witness :
  exists pre post,
    SMSProviderRouter.candidatesFor Samples.registrySlow "GH" None
    = (pre ++ 1%nat :: post)%list
    /\ Forall (fun c => (SMSProviderRouter.latencyOf Samples.registrySlow 1
                         < SMSProviderRouter.latencyOf Samples.registrySlow c)%Q) pre
    /\ Forall (fun c => (SMSProviderRouter.latencyOf Samples.registrySlow 1
                         <= SMSProviderRouter.latencyOf Samples.registrySlow c)%Q) post.
Proof.
  exact (proj1 (getBestProvider_speed Samples.registrySlow "GH" None)).
Defined.

(** C6 (as stated) fails: a candidate never measured is chosen ahead of a
    candidate with a recorded average latency of 2000. *)
Lemma getBestProvider_speed_prefers_unmeasured :
  SMSProviderRouter.candidatesFor Samples.registrySlow "GH" None = [0; 1]%nat
  /\ (avgLatency ∘ stats <$> deref Samples.registrySlow 0) = Some 2000%Q
  /\ (avgLatency ∘ stats <$> deref Samples.registrySlow 1) = Some 0%Q
  /\ SMSProviderRouter.getBestProvider Samples.registrySlow "GH" None
       (Some SMSProviderRouter.by_speed) = Some 1%nat.
Proof. repeat split; reflexivity. Qed.

(** ** Statistics *)

Lemma recordAll_snoc (attempts : list Attempt) (a : Attempt) (s : ProviderStats) :
  recordAll (attempts ++ [a]) s
  = updateStats (recordAll attempts s) (fst (fst a)) (snd (fst a)) (snd a).
Proof. unfold recordAll. now rewrite fold_left_app. Qed.

Lemma successes_snoc (attempts : list Attempt) (a : Attempt) :
  successes (attempts ++ [a]) = successes attempts + (if fst (fst a) then 1 else 0).
Proof.
  unfold successes. rewrite List.filter_app, length_app, Nat2Z.inj_add.
  cbn [List.filter]. now destruct (fst (fst a)).
Qed.

Lemma failures_snoc (attempts : list Attempt) (a : Attempt) :
  failures (attempts ++ [a]) = failures attempts + (if fst (fst a) then 0 else 1).
Proof.
  unfold failures. rewrite List.filter_app, length_app, Nat2Z.inj_add.
  cbn [List.filter]. now destruct (fst (fst a)).
Qed.

Lemma recordAll_counters (attempts : list Attempt) :
  totalSent (recordAll attempts initialStats) = successes attempts + failures attempts
  /\ totalDelivered (recordAll attempts initialStats) = successes attempts
  /\ totalFailed (recordAll attempts initialStats) = failures attempts.
Proof.
  induction attempts as [|a attempts IH] using rev_ind; [repeat split|].
  destruct IH as (IH1 & IH2 & IH3).
  rewrite recordAll_snoc, successes_snoc, failures_snoc.
  unfold updateStats. simpl. rewrite IH1, IH2, IH3.
  destruct (fst (fst a)); repeat split; lia.
Qed.

(** After a recorded attempt the rate is the quotient of the counters as a
    percentage, computed on doubles. *)
Lemma recordAll_successRate (attempts : list Attempt) (s : ProviderStats) :
  attempts <> [] ->
  successRate (recordAll attempts s)
  = js_mul (js_div (inject_Z (totalDelivered (recordAll attempts s)))
                   (inject_Z (totalSent (recordAll attempts s)))) 100.
Proof.
  destruct attempts as [|a attempts] using rev_ind; [contradiction|]. intros _.
  rewrite recordAll_snoc. reflexivity.
Qed.

(** An attempt recorded with a latency other than zero sets the running
    average to [(oldAvg * (n - 1) + latency) / n], computed on doubles, [n]
    being the attempt count after the increment. *)
Lemma updateStats_running_average (s : ProviderStats) (ok : bool) (latency : Q) (now : Z) :
  ~ (latency == 0)%Q ->
  avgLatency (updateStats s ok (Some latency) now)
  = js_div (js_add (js_mul (avgLatency s)
                           (inject_Z (totalSent (updateStats s ok (Some latency) now) - 1)))
                   latency)
           (inject_Z (totalSent (updateStats s ok (Some latency) now))).
Proof.
  intros Hl. unfold updateStats. cbn [avgLatency totalSent]. unfold truthy_Q.
  destruct (Qeq_bool latency 0) eqn:E; [|reflexivity].
  apply Qeq_bool_iff in E. contradiction.
Qed.

(** C5.  The code departs from the claim on an attempt recorded with a
    latency of 0: the guard [if (latency)] takes it for no latency and
    leaves the running average as it was.  After one attempt at 100 ms and
    one at 0 ms the counters are as claimed, but [avgLatency] is still 100
    where [(oldAvg * (n - 1) + latency) / n] is 50. *)
Theorem updateStats_zero_latency_ignored :
  let s1 := updateStats initialStats true (Some 100%Q) 1 in
  let s2 := updateStats s1 true (Some 0%Q) 2 in
  totalSent s2 = 2 /\ totalDelivered s2 = 2 /\ totalFailed s2 = 0
  /\ (avgLatency s1 == 100)%Q
  /\ (avgLatency s2 == 100)%Q
  /\ (js_div (js_add (js_mul (avgLatency s1) (inject_Z (totalSent s2 - 1))) 0)
             (inject_Z (totalSent s2)) == 50)%Q
  /\ ~ (avgLatency s2 == 50)%Q.
Proof.
  cbv zeta. repeat split; try (vm_compute; reflexivity).
  vm_compute. discriminate.
Qed.

(** ** Health checks *)

Section HealthFacts.
Import SMSProviderFactory.
Context {World : Type}.
Implicit Types (h : Heap World).

Lemma healthCheck_call ref h :
  healthCheck ref h
  = (healthCheckOf (fst (call_checkBalance ref h)), snd (call_checkBalance ref h)).
Proof.
  unfold healthCheck, try_catch, bind, ret, lift.
  destruct (call_checkBalance ref h) as [[b|[|message code]] h1]; simpl; try reflexivity.
  now destruct (truthy_string (balance_error b)).
Qed.

Lemma healthCheckOf_readable (result : completion ProviderBalance) :
  readable result -> healthCheckOf result = Normal (healthOf result).
Proof. destruct result as [b|[|message code]]; try reflexivity. intros H. now contradiction H. Qed.

Lemma healthOf_healthy (result : completion ProviderBalance) :
  healthy (healthOf result) = true <->
  exists b, result = Normal b /\ truthy_string (balance_error b) = false.
Proof.
  destruct result as [b|error]; simpl.
  - destruct (truthy_string (balance_error b)) eqn:E; simpl.
    + split; [discriminate|]. intros (b' & [= <-] & E'). congruence.
    + split; [eauto|reflexivity].
  - split; [discriminate|]. intros (b & [=] & _).
Qed.

Lemma healthCheckEach_reports (entries : list (nat * string)) :
  forall (results : gmap string Health) h outs h',
    callEach call_checkBalance (map fst entries) h = (outs, h') ->
    Forall readable outs ->
    healthCheckEach entries results h = (Normal (reportsOf entries outs results), h').
Proof.
  induction entries as [|[ref key] rest IH]; intros results h outs h' E F; simpl in E.
  - injection E as <- <-. reflexivity.
  - destruct (call_checkBalance ref h) as [o h1] eqn:E1.
    destruct (callEach _ (map fst rest) h1) as [os h2] eqn:E2.
    injection E as <- <-. inversion F as [|? ? Ho Hos]; subst.
    simpl. unfold bind at 1. rewrite healthCheck_call, E1. cbn [fst snd].
    rewrite (healthCheckOf_readable _ Ho).
    now apply IH.
Qed.

(** The loop stops at the first balance check that rejects with [null] or
    [undefined]. *)
Lemma healthCheckEach_rejected (entries : list (nat * string)) :
  forall (results : gmap string Health) (k : nat) h outs hN,
    callEach call_checkBalance (map fst entries) h = (outs, hN) ->
    outs !! k = Some (Throw nullish) ->
    (forall j o, (j < k)%nat -> outs !! j = Some o -> readable o) ->
    exists h',
      healthCheckEach entries results h = (Throw cannotReadProperties, h')
      /\ callEach call_checkBalance (take (S k) (map fst entries)) h = (take (S k) outs, h').
Proof.
  induction entries as [|[ref key] rest IH]; intros results k h outs hN E Hk Hbefore;
    simpl in E.
  - injection E as <- <-. discriminate.
  - destruct (call_checkBalance ref h) as [o h1] eqn:E1.
    destruct (callEach _ (map fst rest) h1) as [os h2] eqn:E2.
    injection E as <- <-.
    destruct k as [|k]; simpl in Hk.
    + injection Hk as ->. exists h1. split.
      * simpl. unfold bind at 1. rewrite healthCheck_call, E1. reflexivity.
      * simpl. rewrite E1, take_0. reflexivity.
    + assert (Ho : readable o) by (apply (Hbefore 0%nat); [lia|reflexivity]).
      destruct (IH (<[key := healthOf o]> results) k h1 os h2 E2 Hk) as (h' & T & C).
      { intros j o' Hj Hl. apply (Hbefore (S j)); [lia|exact Hl]. }
      exists h'. split.
      * simpl. unfold bind at 1. rewrite healthCheck_call, E1. cbn [fst snd].
        rewrite (healthCheckOf_readable _ Ho). exact T.
      * change (take (S (S k)) (map fst ((ref, key) :: rest)))
          with (ref :: take (S k) (map fst rest)).
        simpl callEach. rewrite E1, C. reflexivity.
Qed.

Lemma reportsOf_other (entries : list (nat * string)) :
  forall outs (results : gmap string Health) (key : string),
    key ∉ map snd entries ->
    reportsOf entries outs results !! key = results !! key.
Proof.
  unfold reportsOf.
  induction entries as [|[ref k] rest IH]; intros outs results key Hnot; [reflexivity|].
  destruct outs as [|o outs]; [reflexivity|]. simpl.
  rewrite IH.
  - apply lookup_insert_ne. intros ->. apply Hnot. simpl. left.
  - intros Hin. apply Hnot. simpl. now right.
Qed.

Lemma reportsOf_lookup (entries : list (nat * string)) :
  forall outs (results : gmap string Health) (i ref : nat) (key : string) o,
    NoDup (map snd entries) ->
    entries !! i = Some (ref, key) ->
    outs !! i = Some o ->
    reportsOf entries outs results !! key = Some (healthOf o).
Proof.
  induction entries as [|[r k] rest IH]; intros outs results i ref key o ND Hi Ho;
    [discriminate|].
  destruct outs as [|o1 outs]; [discriminate|].
  simpl in ND. apply NoDup_cons in ND. destruct ND as [Hk ND].
  destruct i as [|i]; simpl in Hi, Ho.
  - injection Hi as -> ->. injection Ho as ->.
    change (reportsOf ((ref, key) :: rest) (o :: outs) results)
      with (reportsOf rest outs (<[key := healthOf o]> results)).
    rewrite reportsOf_other by exact Hk. apply lookup_insert_eq.
  - change (reportsOf ((r, k) :: rest) (o1 :: outs) results)
      with (reportsOf rest outs (<[k := healthOf o1]> results)).
    eapply IH; eauto.
Qed.

Lemma entries_refs h :
  map fst (imap (fun ref (entry : string * BaseSMSProvider World) => (ref, fst entry))
                (providers h))
  = getAllProviders h.
Proof.
  unfold getAllProviders. generalize (providers h) as l. intros l.
  apply list_eq. intros i.
  change (map fst) with (fmap (M:=list) (@fst nat string)).
  rewrite list_lookup_fmap, list_lookup_imap.
  destruct (l !! i) as [e|] eqn:E; simpl.
  - symmetry. apply lookup_seq. split; [reflexivity|]. eapply lookup_lt_Some; eauto.
  - symmetry. apply lookup_ge_None. rewrite length_seq. now apply lookup_ge_None.
Qed.

Lemma entries_keys h :
  map snd (imap (fun ref (entry : string * BaseSMSProvider World) => (ref, fst entry))
                (providers h))
  = map fst (providers h).
Proof.
  generalize (providers h) as l. intros l.
  apply list_eq. intros i.
  change (map snd) with (fmap (M:=list) (@snd nat string)).
  change (map fst) with (fmap (M:=list) (@fst string (BaseSMSProvider World))).
  rewrite !list_lookup_fmap, list_lookup_imap.
  now destruct (l !! i).
Qed.

End HealthFacts.

(** C8 (as amended).  When no balance check rejects with [null] or
    [undefined], [healthCheckAll] calls [checkBalance] once on every
    registered provider, in registration order, and the object it returns
    has, under the name of each provider, the report made of its balance
    check: [healthy = true], the message ["Provider is healthy"] and the
    balance, when the check returned without a non-empty [error]; [healthy =
    false], the error as message and no balance, when it returned with one;
    [healthy = false], the message of the value thrown, or ["Health check
    failed"], and no balance, when it threw.  So a provider is reported
    healthy if and only if its balance check returned without throwing and
    without a non-empty [error]: the balance is reported for a healthy
    provider and does not enter the verdict. *)
Theorem healthCheckAll_reports {World : Type} (h : Heap World)
    (outs : list (completion ProviderBalance)) (h' : Heap World) :
  NoDup (map fst (providers h)) ->
  callEach call_checkBalance (SMSProviderFactory.getAllProviders h) h = (outs, h') ->
  Forall readable outs ->
  exists results,
    SMSProviderFactory.healthCheckAll h = (Normal results, h')
    /\ calls h' =
       (calls h ++ zip_with CallCheckBalance (SMSProviderFactory.getAllProviders h) outs)%list
    /\ length outs = length (providers h)
    /\ (forall ref key p o,
           providers h !! ref = Some (key, p) ->
           outs !! ref = Some o ->
           results !! key
           = Some match o with
                  | Normal b =>
                      if truthy_string (balance_error b)
                      then mkHealth false (or_string (balance_error b) "") None
                      else mkHealth true "Provider is healthy" (Some (balance b))
                  | Throw error =>
                      mkHealth false (or_string (thrown_message error) "Health check failed")
                               None
                  end
           /\ (healthy <$> results !! key = Some true <->
               exists b, o = Normal b /\ truthy_string (balance_error b) = false)).
Proof.
  intros ND E F.
  set (entries := imap (fun ref (entry : string * BaseSMSProvider World) => (ref, fst entry))
                       (providers h)).
  exists (reportsOf entries outs ∅).
  destruct (callEach_calls call_checkBalance CallCheckBalance call_checkBalance_logged
              (SMSProviderFactory.getAllProviders h) h outs h') as (C & L & _).
  { apply Forall_forall. intros ref Hin. now apply elem_of_getAllProviders in Hin. }
  { exact E. }
  split; [|split; [exact C|split]].
  - unfold SMSProviderFactory.healthCheckAll, bind, get_heap.
    apply healthCheckEach_reports; [|exact F]. unfold entries. rewrite entries_refs. exact E.
  - rewrite L. unfold SMSProviderFactory.getAllProviders. apply length_seq.
  - intros ref key p o Hp Ho.
    assert (R : reportsOf entries outs ∅ !! key = Some (healthOf o)).
    { apply (reportsOf_lookup entries outs ∅ ref ref key o).
      - unfold entries. rewrite entries_keys. exact ND.
      - unfold entries. rewrite list_lookup_imap, Hp. reflexivity.
      - exact Ho. }
    split; [exact R|]. rewrite R. simpl. rewrite <- healthOf_healthy.
    split; [now intros [= ->]|now intros ->].
Qed.

(** A provider in funds, one whose balance check reports an error and one
    whose balance check throws: all three are checked, and the reports are
    healthy with the balance, unhealthy with the error, unhealthy with the
    message of the throw. *)
Lemma healthCheckAll_reports_witness :
  exists results,
    SMSProviderFactory.healthCheckAll Samples.registryHealth
    = (Normal results,
       snd (callEach call_checkBalance
                     (SMSProviderFactory.getAllProviders Samples.registryHealth)
                     Samples.registryHealth))
    /\ calls (snd (callEach call_checkBalance
                            (SMSProviderFactory.getAllProviders Samples.registryHealth)
                            Samples.registryHealth)) =
       (calls Samples.registryHealth
        ++ zip_with CallCheckBalance (SMSProviderFactory.getAllProviders Samples.registryHealth)
                    [Normal (Samples.funds 100);
                     Normal (mkBalance 0 "USD" (Some "Account suspended"));
                     Throw (mkThrown (Some "ECONNRESET") None)])%list
    /\ length [Normal (Samples.funds 100);
               Normal (mkBalance 0 "USD" (Some "Account suspended"));
               Throw (mkThrown (Some "ECONNRESET") None)]
       = length (providers Samples.registryHealth)
    /\ (forall ref key p o,
           providers Samples.registryHealth !! ref = Some (key, p) ->
           [Normal (Samples.funds 100);
            Normal (mkBalance 0 "USD" (Some "Account suspended"));
            Throw (mkThrown (Some "ECONNRESET") None)] !! ref = Some o ->
           results !! key
           = Some match o with
                  | Normal b =>
                      if truthy_string (balance_error b)
                      then mkHealth false (or_string (balance_error b) "") None
                      else mkHealth true "Provider is healthy" (Some (balance b))
                  | Throw error =>
                      mkHealth false (or_string (thrown_message error) "Health check failed")
                               None
                  end
           /\ (healthy <$> results !! key = Some true <->
               exists b, o = Normal b /\ truthy_string (balance_error b) = false)).
Proof.
  apply (healthCheckAll_reports Samples.registryHealth).
  - simpl. repeat constructor; rewrite ?list_elem_of_In; simpl; intuition discriminate.
  - reflexivity.
  - repeat constructor; discriminate.
Defined.

(** C8 (as stated) fails: a provider whose balance check returns a negative
    balance and no error is reported healthy. *)
Lemma healthCheckAll_overdrawn_healthy :
  fst (call_checkBalance 0 Samples.registryOverdrawn) = Normal (Samples.funds (-5))
  /\ (exists results report,
         fst (SMSProviderFactory.healthCheckAll Samples.registryOverdrawn) = Normal results
         /\ results !! "overdrawn" = Some report
         /\ healthy report = true)
  /\ ~ healthyAsSpecified (fst (call_checkBalance 0 Samples.registryOverdrawn)).
Proof.
  split; [reflexivity|]. split.
  - eexists _, _. split; [reflexivity|]. split; [vm_compute; reflexivity|reflexivity].
  - intros (b & E & _ & Hb). vm_compute in E. injection E as <-.
    vm_compute in Hb. now apply Hb.
Qed.

(** ** Delivery status *)

Section ProbeFacts.
Import SMSProviderFactory SMSProviderRouter.
Context {World : Type}.
Implicit Types (h : Heap World) (id : string).

Lemma probe_call ref id h :
  probe ref id h
  = (Normal (foundStatus (fst (call_getDeliveryStatus ref id h))),
     snd (call_getDeliveryStatus ref id h)).
Proof.
  unfold probe, try_catch, bind, ret.
  destruct (call_getDeliveryStatus ref id h) as [[st|error] h1]; simpl; [|reflexivity].
  now destruct (delivery_status st).
Qed.

Lemma foundStatus_None (result : completion DeliveryStatus) :
  found result = false -> foundStatus result = None.
Proof.
  destruct result as [st|error]; simpl; [|reflexivity].
  now destruct (delivery_status st).
Qed.

Lemma foundStatus_Some (st : DeliveryStatus) :
  found (Normal st) = true -> foundStatus (Normal st) = Some st.
Proof. simpl. now destruct (delivery_status st). Qed.

Lemma probeEach_first_found id (refs : list nat) :
  forall (k : nat) h outs hN st,
    callEach (fun ref => call_getDeliveryStatus ref id) refs h = (outs, hN) ->
    outs !! k = Some (Normal st) ->
    found (Normal st) = true ->
    (forall j o, (j < k)%nat -> outs !! j = Some o -> found o = false) ->
    exists h',
      probeEach refs id h = (Normal st, h')
      /\ callEach (fun ref => call_getDeliveryStatus ref id) (take (S k) refs) h
         = (take (S k) outs, h').
Proof.
  induction refs as [|ref rest IH]; intros k h outs hN st E Hk Hs Hbefore; simpl in E.
  - injection E as <- <-. discriminate.
  - destruct (call_getDeliveryStatus ref id h) as [o h1] eqn:E1.
    destruct (callEach _ rest h1) as [os h2] eqn:E2.
    injection E as <- <-.
    destruct k as [|k]; simpl in Hk.
    + injection Hk as ->. exists h1. split.
      * simpl. unfold bind at 1. rewrite probe_call, E1. cbn [fst snd].
        rewrite (foundStatus_Some _ Hs). reflexivity.
      * simpl. rewrite E1, take_0. reflexivity.
    + assert (Ho : found o = false) by (apply (Hbefore 0%nat); [lia|reflexivity]).
      destruct (IH k h1 os h2 st E2 Hk Hs) as (h' & T & C).
      { intros j o' Hj Hl. apply (Hbefore (S j)); [lia|exact Hl]. }
      exists h'. split.
      * simpl. unfold bind at 1. rewrite probe_call, E1. cbn [fst snd].
        rewrite (foundStatus_None _ Ho). exact T.
      * change (take (S (S k)) (ref :: rest)) with (ref :: take (S k) rest).
        simpl callEach. rewrite E1, C. reflexivity.
Qed.

Lemma probeEach_none_found id (refs : list nat) :
  forall h outs h',
    callEach (fun ref => call_getDeliveryStatus ref id) refs h = (outs, h') ->
    Forall (fun o => found o = false) outs ->
    probeEach refs id h
    = (Normal (statusUnknown id (Some "Could not get status from any provider")), h').
Proof.
  induction refs as [|ref rest IH]; intros h outs h' E F; simpl in E.
  - injection E as <- <-. reflexivity.
  - destruct (call_getDeliveryStatus ref id h) as [o h1] eqn:E1.
    destruct (callEach _ rest h1) as [os h2] eqn:E2.
    injection E as <- <-. inversion F as [|? ? Ho Hos]; subst.
    simpl. unfold bind at 1. rewrite probe_call, E1. cbn [fst snd].
    rewrite (foundStatus_None _ Ho). now apply (IH h1 os h2).
Qed.

Lemma probeEach_returns id (refs : list nat) :
  forall h, exists st h', probeEach refs id h = (Normal st, h').
Proof.
  induction refs as [|ref rest IH]; intros h; simpl.
  - unfold ret. eauto.
  - unfold bind at 1. rewrite probe_call.
    destruct (foundStatus _) as [st|]; [unfold ret; eauto|apply IH].
Qed.

Lemma getProvider_valid h (providerName : string) ref :
  getProvider h providerName = Some ref -> (ref < length (providers h))%nat.
Proof.
  unfold getProvider. intros E.
  destruct (list_find _ (providers h)) as [[i e]|] eqn:F; [|discriminate].
  injection E as <-. apply list_find_Some in F. destruct F as (F & _).
  eapply lookup_lt_Some; eauto.
Qed.

Lemma checkDeliveryStatus_named id (providerName : option string) h ref :
  truthy_string providerName = true ->
  getProvider h (or_string providerName "") = Some ref ->
  checkDeliveryStatus id providerName h
  = (namedStatusOf id (fst (call_getDeliveryStatus ref id h)),
     snd (call_getDeliveryStatus ref id h)).
Proof.
  intros Ht Hg. unfold checkDeliveryStatus, try_catch, bind, get_heap, lift.
  rewrite Ht, Hg.
  now destruct (call_getDeliveryStatus ref id h) as [[st|[|message code]] h1].
Qed.

Lemma checkDeliveryStatus_probing id (providerName : option string) h :
  truthy_string providerName = false \/ getProvider h (or_string providerName "") = None ->
  checkDeliveryStatus id providerName h = probeEach (getAllProviders h) id h.
Proof.
  intros Hn. unfold checkDeliveryStatus, try_catch, bind, get_heap.
  destruct (probeEach_returns id (getAllProviders h) h) as (st & h' & P).
  destruct Hn as [Ht|Hg].
  - rewrite Ht, P. reflexivity.
  - destruct (truthy_string providerName); [rewrite Hg|]; rewrite P; reflexivity.
Qed.

End ProbeFacts.

(** C9 (as amended).  When [providerName] is supplied and resolves to a
    registered provider, only that provider is queried, once; its status
    is returned if the query returns, and [unknown] with the message of the
    value thrown if the query throws a value other than [null] and
    [undefined] (on these [checkDeliveryStatus] itself throws).  In every
    other case, [providerName] absent or resolving to no registered
    provider, the registered providers are probed in registration order
    until one returns a status other than [unknown], which is returned; if
    none does, all have been probed and [unknown] is returned with an
    explanatory error. *)
Theorem checkDeliveryStatus_behaviour {World : Type} (h : Heap World) (id : string)
    (providerName : option string) :
  (forall ref,
      truthy_string providerName = true ->
      SMSProviderFactory.getProvider h (or_string providerName "") = Some ref ->
      exists o h',
        call_getDeliveryStatus ref id h = (o, h')
        /\ calls h' = (calls h ++ [CallGetDeliveryStatus ref id o])%list
        /\ match o with
           | Normal st =>
               SMSProviderRouter.checkDeliveryStatus id providerName h = (Normal st, h')
           | Throw (mkThrown message _) =>
               SMSProviderRouter.checkDeliveryStatus id providerName h
               = (Normal (SMSProviderRouter.statusUnknown id message), h')
           | Throw nullish =>
               exists typeError,
                 SMSProviderRouter.checkDeliveryStatus id providerName h
                 = (Throw typeError, h')
           end)
  /\ (truthy_string providerName = false
      \/ SMSProviderFactory.getProvider h (or_string providerName "") = None ->
      forall outs hN,
        callEach (fun ref => call_getDeliveryStatus ref id)
                 (SMSProviderFactory.getAllProviders h) h = (outs, hN) ->
        (forall k st,
            outs !! k = Some (Normal st) ->
            found (Normal st) = true ->
            (forall j o, (j < k)%nat -> outs !! j = Some o -> found o = false) ->
            exists h',
              SMSProviderRouter.checkDeliveryStatus id providerName h = (Normal st, h')
              /\ calls h' =
                 (calls h ++ zip_with (fun ref o => CallGetDeliveryStatus ref id o)
                                      (take (S k) (SMSProviderFactory.getAllProviders h))
                                      (take (S k) outs))%list)
        /\ (Forall (fun o => found o = false) outs ->
            SMSProviderRouter.checkDeliveryStatus id providerName h
            = (Normal (SMSProviderRouter.statusUnknown id
                         (Some "Could not get status from any provider")), hN)
            /\ calls hN =
               (calls h ++ zip_with (fun ref o => CallGetDeliveryStatus ref id o)
                                    (SMSProviderFactory.getAllProviders h) outs)%list)).
Proof.
  assert (V : Forall (fun ref => (ref < length (providers h))%nat)
                     (SMSProviderFactory.getAllProviders h)).
  { apply Forall_forall. intros ref Hin. now apply elem_of_getAllProviders in Hin. }
  split.
  - intros ref Ht Hg.
    destruct (call_getDeliveryStatus ref id h) as [o h'] eqn:E. exists o, h'.
    split; [reflexivity|]. split.
    + eapply call_getDeliveryStatus_logged; [|exact E].
      eapply getProvider_valid; eauto.
    + rewrite (checkDeliveryStatus_named id providerName h ref Ht Hg), E.
      destruct o as [st|[|message code]]; simpl; eauto.
  - intros Hn outs hN E. rewrite (checkDeliveryStatus_probing id providerName h Hn). split.
    + intros k st Hk Hs Hbefore.
      destruct (probeEach_first_found id _ k h outs hN st E Hk Hs Hbefore) as (h' & P & C).
      exists h'. split; [exact P|].
      eapply (callEach_calls _ (fun ref o => CallGetDeliveryStatus ref id o)
                (call_getDeliveryStatus_logged id)); [|exact C].
      apply Forall_take, V.
    + intros F. split; [now apply (probeEach_none_found id _ h outs hN)|].
      eapply (callEach_calls _ (fun ref o => CallGetDeliveryStatus ref id o)
                (call_getDeliveryStatus_logged id)); [exact V|exact E].
Qed.

(** Of three registered providers the one named is the only one queried;
    a named provider whose query throws gives [unknown] with the message
    thrown; and without a name the providers are probed in order, past one
    that rejects with [undefined] and one that answers [unknown], up to the
    first that knows the message. *)
Lemma checkDeliveryStatus_behaviour_witness :
  (exists o h',
      call_getDeliveryStatus 2 "abc123" Samples.registry312 = (o, h')
      /\ calls h' = (calls Samples.registry312 ++ [CallGetDeliveryStatus 2 "abc123" o])%list
      /\ match o with
         | Normal st =>
             SMSProviderRouter.checkDeliveryStatus "abc123" (Some "B") Samples.registry312
             = (Normal st, h')
         | Throw (mkThrown message _) =>
             SMSProviderRouter.checkDeliveryStatus "abc123" (Some "B") Samples.registry312
             = (Normal (SMSProviderRouter.statusUnknown "abc123" message), h')
         | Throw nullish =>
             exists typeError,
               SMSProviderRouter.checkDeliveryStatus "abc123" (Some "B") Samples.registry312
               = (Throw typeError, h')
         end)
  /\ (exists o h',
         call_getDeliveryStatus 0 "abc123" Samples.registryAllFail = (o, h')
         /\ calls h' = (calls Samples.registryAllFail
                        ++ [CallGetDeliveryStatus 0 "abc123" o])%list
         /\ match o with
            | Normal st =>
                SMSProviderRouter.checkDeliveryStatus "abc123" (Some "T")
                  Samples.registryAllFail
                = (Normal st, h')
            | Throw (mkThrown message _) =>
                SMSProviderRouter.checkDeliveryStatus "abc123" (Some "T")
                  Samples.registryAllFail
                = (Normal (SMSProviderRouter.statusUnknown "abc123" message), h')
            | Throw nullish =>
                exists typeError,
                  SMSProviderRouter.checkDeliveryStatus "abc123" (Some "T")
                    Samples.registryAllFail
                  = (Throw typeError, h')
            end)
  /\ (exists h',
         SMSProviderRouter.checkDeliveryStatus "abc123" None Samples.registryFailover
         = (Normal Samples.statusSent, h')
         /\ calls h' =
            (calls Samples.registryFailover
             ++ zip_with (fun ref o => CallGetDeliveryStatus ref "abc123" o)
                  (take 3 (SMSProviderFactory.getAllProviders Samples.registryFailover))
                  (take 3 [Throw nullish;
                           Normal (mkDelivery delivery_unknown None "abc123" None);
                           Normal Samples.statusSent]))%list).
Proof.
  split; [|split].
  - apply (proj1 (checkDeliveryStatus_behaviour Samples.registry312 "abc123" (Some "B"))
             2%nat); reflexivity.
  - apply (proj1 (checkDeliveryStatus_behaviour Samples.registryAllFail "abc123" (Some "T"))
             0%nat); reflexivity.
  - assert (E : callEach (fun ref => call_getDeliveryStatus ref "abc123")
                         (SMSProviderFactory.getAllProviders Samples.registryFailover)
                         Samples.registryFailover
                = ([Throw nullish;
                    Normal (mkDelivery delivery_unknown None "abc123" None);
                    Normal Samples.statusSent],
                   snd (callEach (fun ref => call_getDeliveryStatus ref "abc123")
                                 (SMSProviderFactory.getAllProviders Samples.registryFailover)
                                 Samples.registryFailover))) by reflexivity.
    apply (proj1 (proj2 (checkDeliveryStatus_behaviour Samples.registryFailover "abc123" None)
                    (or_introl eq_refl) _ _ E) 2%nat Samples.statusSent).
    + reflexivity.
    + reflexivity.
    + intros j o Hj Ho. destruct j as [|[|j]]; [| |lia]; injection Ho as <-; reflexivity.
Defined.

(** C9 (as stated) fails: with a [providerName] that resolves to no
    registered provider the other providers are queried all the same, and
    the status one of them returns is the result. *)
Lemma checkDeliveryStatus_unregistered_name_probes_all :
  SMSProviderFactory.getProvider Samples.registryWildcard "nope" = None
  /\ fst (SMSProviderRouter.checkDeliveryStatus "abc123" (Some "nope")
            Samples.registryWildcard)
     = Normal Samples.statusSent
  /\ delivery_status Samples.statusSent <> delivery_unknown
  /\ calls (snd (SMSProviderRouter.checkDeliveryStatus "abc123" (Some "nope")
                   Samples.registryWildcard))
     = [CallGetDeliveryStatus 0 "abc123" (Normal Samples.statusSent)].
Proof.
  split; [reflexivity|]. split; [reflexivity|]. split; [discriminate|reflexivity].
Qed.

(** * Further properties of the code *)

(** ** Statistics *)

Lemma inject_Z_pos (n : Z) : 0 < n -> (0 < inject_Z n)%Q.
Proof. intros H. change 0%Q with (inject_Z 0). now rewrite <- Zlt_Qlt. Qed.

(** X1.  [updateStats] keeps the counters consistent: from a state in which
    [totalSent = totalDelivered + totalFailed] with nothing negative it
    reaches another such state, one attempt further, with a success rate
    between 0 and 100 and [lastUsed] set. *)
Theorem updateStats_keeps_consistency (s : ProviderStats) (ok : bool) (latency : option Q)
    (now : Z) :
  statsConsistent s ->
  statsConsistent (updateStats s ok latency now)
  /\ totalSent (updateStats s ok latency now) = totalSent s + 1
  /\ (0 <= successRate (updateStats s ok latency now) <= 100)%Q
  /\ lastUsed (updateStats s ok latency now) = Some now.
Proof.
  intros (Hd & Hf & Hs). unfold statsConsistent, updateStats.
  cbn [totalSent totalDelivered totalFailed successRate lastUsed].
  split; [destruct ok; lia|]. split; [reflexivity|]. split; [|reflexivity].
  unfold js_mul, js_div. apply percentage_range; destruct ok; lia.
Qed.

Lemma updateStats_keeps_consistency_witness :
  statsConsistent (updateStats initialStats false None 7)
  /\ totalSent (updateStats initialStats false None 7) = totalSent initialStats + 1
  /\ (0 <= successRate (updateStats initialStats false None 7) <= 100)%Q
  /\ lastUsed (updateStats initialStats false None 7) = Some 7.
Proof.
  apply (updateStats_keeps_consistency initialStats false None 7).
  unfold statsConsistent. cbn [initialStats totalSent totalDelivered totalFailed]. lia.
Defined.

Lemma recordAll_totalSent (attempts : list Attempt) (s : ProviderStats) :
  totalSent (recordAll attempts s) = totalSent s + Z.of_nat (length attempts).
Proof.
  induction attempts as [|a attempts IH] using rev_ind; [simpl; lia|].
  rewrite recordAll_snoc, length_app. unfold updateStats. simpl. rewrite IH. lia.
Qed.

(** ** What the operations leave alone *)

Section Preservation.
Context {World : Type}.
Implicit Types (h : Heap World).

Lemma preserving_ret {A : Type} (a : A) : preserving (ret (World:=World) a).
Proof. intros h. reflexivity. Qed.

Lemma preserving_get_heap : preserving (get_heap (World:=World)).
Proof. intros h. reflexivity. Qed.

Lemma preserving_bind {A B : Type} (m : M World A) (k : A -> M World B) :
  preserving m -> (forall a, preserving (k a)) -> preserving (bind m k).
Proof.
  intros Hm Hk h. unfold bind. specialize (Hm h).
  destruct (m h) as [[a|e] h1]; simpl in *; [|exact Hm].
  rewrite <- Hm. apply Hk.
Qed.

Lemma preserving_try_catch {A : Type} (body : M World A) (handler : thrown -> M World A) :
  preserving body -> (forall e, preserving (handler e)) -> preserving (try_catch body handler).
Proof.
  intros Hm Hk h. unfold try_catch. specialize (Hm h).
  destruct (body h) as [[a|e] h1]; simpl in *; [exact Hm|].
  rewrite <- Hm. apply Hk.
Qed.

Lemma preserving_read {A : Type} (error : thrown) (k : option string -> A) :
  preserving (bind (lift (World:=World) (read_message error)) (fun message => ret (k message))).
Proof.
  apply preserving_bind; [intros h; reflexivity|]. intros message. apply preserving_ret.
Qed.

Lemma registration_insert (l : list (string * BaseSMSProvider World)) (ref : nat)
    (key : string) (p : BaseSMSProvider World) (s : ProviderStats) :
  l !! ref = Some (key, p) ->
  map (fun entry => (fst entry, config (snd entry))) (<[ref := (key, with_stats p s)]> l)
  = map (fun entry => (fst entry, config (snd entry))) l.
Proof.
  intros E.
  change (map (fun entry : string * BaseSMSProvider World => (fst entry, config (snd entry))))
    with (fmap (M:=list)
               (fun entry : string * BaseSMSProvider World => (fst entry, config (snd entry)))).
  rewrite list_fmap_insert. simpl. apply list_insert_id.
  rewrite list_lookup_fmap, E. reflexivity.
Qed.

Lemma preserving_call_sendSMS ref (options : SendSMSOptions) :
  preserving (call_sendSMS (World:=World) ref options).
Proof.
  intros h. unfold call_sendSMS.
  destruct (providers h !! ref) as [[key p]|] eqn:E; [|reflexivity].
  repeat case_match. unfold registration. simpl. eapply registration_insert; eauto.
Qed.

Lemma preserving_call_getDeliveryStatus ref (id : string) :
  preserving (call_getDeliveryStatus (World:=World) ref id).
Proof.
  intros h. unfold call_getDeliveryStatus.
  destruct (providers h !! ref) as [[key p]|] eqn:E; [|reflexivity].
  repeat case_match. unfold registration. simpl. eapply registration_insert; eauto.
Qed.

Lemma preserving_call_checkBalance ref : preserving (call_checkBalance (World:=World) ref).
Proof.
  intros h. unfold call_checkBalance.
  destruct (providers h !! ref) as [[key p]|] eqn:E; [|reflexivity].
  repeat case_match. unfold registration. simpl. eapply registration_insert; eauto.
Qed.

Lemma preserving_tryEach (options : SendSMSOptions) (refs : list nat) :
  forall e, preserving (SMSProviderRouter.tryEach (World:=World) refs options e).
Proof.
  induction refs as [|ref rest IH]; intros e; simpl; [apply preserving_ret|].
  apply preserving_bind.
  - apply preserving_try_catch.
    + apply preserving_bind; [apply preserving_call_sendSMS|].
      intros r. destruct (success r); apply preserving_ret.
    + intros t. apply preserving_ret.
  - intros [r|e']; [apply preserving_ret|apply IH].
Qed.

Lemma preserving_sendSMS (options : SendSMSOptions) (country : string)
    (network : option string) :
  preserving (SMSProviderRouter.sendSMS (World:=World) options country network).
Proof.
  apply preserving_try_catch; [|intros e; apply preserving_read].
  apply preserving_bind; [intros h; reflexivity|].
  intros cands. destruct (length cands =? 0)%nat; [apply preserving_ret|apply preserving_tryEach].
Qed.

Lemma preserving_probeEach (id : string) (refs : list nat) :
  preserving (SMSProviderRouter.probeEach (World:=World) refs id).
Proof.
  induction refs as [|ref rest IH]; simpl; [apply preserving_ret|].
  apply preserving_bind.
  - apply preserving_try_catch.
    + apply preserving_bind; [apply preserving_call_getDeliveryStatus|].
      intros st. destruct (delivery_status st); apply preserving_ret.
    + intros t. apply preserving_ret.
  - intros [st|]; [apply preserving_ret|apply IH].
Qed.

Lemma preserving_checkDeliveryStatus (id : string) (providerName : option string) :
  preserving (SMSProviderRouter.checkDeliveryStatus (World:=World) id providerName).
Proof.
  apply preserving_try_catch; [|intros e; apply preserving_read].
  apply preserving_bind; [apply preserving_get_heap|].
  intros h0. destruct (if truthy_string providerName then _ else _).
  - apply preserving_call_getDeliveryStatus.
  - apply preserving_bind; [apply preserving_get_heap|].
    intros h1. apply preserving_probeEach.
Qed.

Lemma preserving_healthCheck ref : preserving (healthCheck (World:=World) ref).
Proof.
  apply preserving_try_catch; [|intros e; apply preserving_read].
  apply preserving_bind; [apply preserving_call_checkBalance|].
  intros b. destruct (truthy_string (balance_error b)); apply preserving_ret.
Qed.

Lemma preserving_healthCheckEach (entries : list (nat * string)) :
  forall results, preserving (SMSProviderFactory.healthCheckEach (World:=World) entries results).
Proof.
  induction entries as [|[ref key] rest IH]; intros results; simpl; [apply preserving_ret|].
  apply preserving_bind; [apply preserving_healthCheck|]. intros r. apply IH.
Qed.

Lemma preserving_healthCheckAll : preserving (SMSProviderFactory.healthCheckAll (World:=World)).
Proof.
  apply preserving_bind; [apply preserving_get_heap|].
  intros h0. apply preserving_healthCheckEach.
Qed.

Lemma registration_length h : length (registration h) = length (providers h).
Proof. unfold registration. apply length_map. Qed.

Lemma registration_config h ref :
  config <$> deref h ref = snd <$> registration h !! ref.
Proof.
  unfold deref, registration.
  change (map (fun entry : string * BaseSMSProvider World => (fst entry, config (snd entry))))
    with (fmap (M:=list)
               (fun entry : string * BaseSMSProvider World => (fst entry, config (snd entry)))).
  rewrite list_lookup_fmap. now destruct (providers h !! ref).
Qed.

Lemma registration_keys h : map fst (registration h) = map fst (providers h).
Proof. unfold registration. rewrite map_map. reflexivity. Qed.

End Preservation.

Section Keeping.
Context {World : Type}.
Implicit Types (h : Heap World).

Lemma keeping_ret {A : Type} (a : A) : keeping (ret (World:=World) a).
Proof. intros h ref p Hp. exists p. auto. Qed.

Lemma keeping_get_heap : keeping (get_heap (World:=World)).
Proof. intros h ref p Hp. exists p. auto. Qed.

Lemma keeping_lift {A : Type} (c : completion A) : keeping (lift (World:=World) c).
Proof. intros h ref p Hp. exists p. auto. Qed.

Lemma keeping_bind {A B : Type} (m : M World A) (k : A -> M World B) :
  keeping m -> (forall a, keeping (k a)) -> keeping (bind m k).
Proof.
  intros Hm Hk h ref p Hp. unfold bind.
  destruct (Hm h ref p Hp) as (p1 & Hp1 & M1 & C1).
  destruct (m h) as [[a|e] h1]; cbn [snd] in *.
  - destruct (Hk a h1 ref p1 Hp1) as (p2 & Hp2 & M2 & C2).
    exists p2. split; [exact Hp2|]. split; congruence.
  - exists p1. auto.
Qed.

Lemma keeping_try_catch {A : Type} (body : M World A) (handler : thrown -> M World A) :
  keeping body -> (forall e, keeping (handler e)) -> keeping (try_catch body handler).
Proof.
  intros Hm Hk h ref p Hp. unfold try_catch.
  destruct (Hm h ref p Hp) as (p1 & Hp1 & M1 & C1).
  destruct (body h) as [[a|e] h1]; cbn [snd] in *.
  - exists p1. auto.
  - destruct (Hk e h1 ref p1 Hp1) as (p2 & Hp2 & M2 & C2).
    exists p2. split; [exact Hp2|]. split; congruence.
Qed.

Lemma keeping_read {A : Type} (error : thrown) (k : option string -> A) :
  keeping (bind (lift (World:=World) (read_message error)) (fun message => ret (k message))).
Proof. apply keeping_bind; [apply keeping_lift|]. intros message. apply keeping_ret. Qed.

Lemma lookup_insert_stats (l : list (string * BaseSMSProvider World)) (ref' : nat)
    (key : string) (q : BaseSMSProvider World) (s : ProviderStats) (ref : nat)
    (p : BaseSMSProvider World) :
  l !! ref' = Some (key, q) ->
  snd <$> l !! ref = Some p ->
  exists p', snd <$> <[ref' := (key, with_stats q s)]> l !! ref = Some p'
             /\ sendSMS p' = sendSMS p /\ config p' = config p.
Proof.
  intros E Hp. destruct (decide (ref' = ref)) as [->|Hne].
  - rewrite list_lookup_insert_eq by (eapply lookup_lt_Some; eauto).
    rewrite E in Hp. injection Hp as ->. eexists. repeat split.
  - rewrite list_lookup_insert_ne by exact Hne. exists p. auto.
Qed.

Lemma keeping_call_sendSMS ref (options : SendSMSOptions) :
  keeping (call_sendSMS (World:=World) ref options).
Proof.
  intros h r p Hp. unfold call_sendSMS.
  destruct (providers h !! ref) as [[key q]|] eqn:E; [|exists p; auto].
  repeat case_match. unfold deref in *. cbn [snd providers]. eapply lookup_insert_stats; eauto.
Qed.

Lemma keeping_call_getDeliveryStatus ref (id : string) :
  keeping (call_getDeliveryStatus (World:=World) ref id).
Proof.
  intros h r p Hp. unfold call_getDeliveryStatus.
  destruct (providers h !! ref) as [[key q]|] eqn:E; [|exists p; auto].
  repeat case_match. unfold deref in *. cbn [snd providers]. eapply lookup_insert_stats; eauto.
Qed.

Lemma keeping_call_checkBalance ref : keeping (call_checkBalance (World:=World) ref).
Proof.
  intros h r p Hp. unfold call_checkBalance.
  destruct (providers h !! ref) as [[key q]|] eqn:E; [|exists p; auto].
  repeat case_match. unfold deref in *. cbn [snd providers]. eapply lookup_insert_stats; eauto.
Qed.

Lemma keeping_tryEach (options : SendSMSOptions) (refs : list nat) :
  forall e, keeping (SMSProviderRouter.tryEach (World:=World) refs options e).
Proof.
  induction refs as [|ref rest IH]; intros e; simpl; [apply keeping_ret|].
  apply keeping_bind.
  - apply keeping_try_catch.
    + apply keeping_bind; [apply keeping_call_sendSMS|].
      intros r. destruct (success r); apply keeping_ret.
    + intros t. apply keeping_ret.
  - intros [r|e']; [apply keeping_ret|apply IH].
Qed.

Lemma keeping_sendSMS (options : SendSMSOptions) (country : string)
    (network : option string) :
  keeping (SMSProviderRouter.sendSMS (World:=World) options country network).
Proof.
  apply keeping_try_catch; [|intros e; apply keeping_read].
  apply keeping_bind; [intros h ref p Hp; exists p; auto|].
  intros cands. destruct (length cands =? 0)%nat; [apply keeping_ret|apply keeping_tryEach].
Qed.

Lemma keeping_probeEach (id : string) (refs : list nat) :
  keeping (SMSProviderRouter.probeEach (World:=World) refs id).
Proof.
  induction refs as [|ref rest IH]; simpl; [apply keeping_ret|].
  apply keeping_bind.
  - apply keeping_try_catch.
    + apply keeping_bind; [apply keeping_call_getDeliveryStatus|].
      intros st. destruct (delivery_status st); apply keeping_ret.
    + intros t. apply keeping_ret.
  - intros [st|]; [apply keeping_ret|apply IH].
Qed.

Lemma keeping_checkDeliveryStatus (id : string) (providerName : option string) :
  keeping (SMSProviderRouter.checkDeliveryStatus (World:=World) id providerName).
Proof.
  apply keeping_try_catch; [|intros e; apply keeping_read].
  apply keeping_bind; [apply keeping_get_heap|].
  intros h0. destruct (if truthy_string providerName then _ else _).
  - apply keeping_call_getDeliveryStatus.
  - apply keeping_bind; [apply keeping_get_heap|].
    intros h1. apply keeping_probeEach.
Qed.

Lemma keeping_healthCheck ref : keeping (healthCheck (World:=World) ref).
Proof.
  apply keeping_try_catch; [|intros e; apply keeping_read].
  apply keeping_bind; [apply keeping_call_checkBalance|].
  intros b. destruct (truthy_string (balance_error b)); apply keeping_ret.
Qed.

Lemma keeping_testConnection ref : keeping (testConnection (World:=World) ref).
Proof.
  apply keeping_try_catch; [|intros e; apply keeping_ret].
  apply keeping_bind; [apply keeping_call_checkBalance|].
  intros b. apply keeping_ret.
Qed.

Lemma keeping_healthCheckEach (entries : list (nat * string)) :
  forall results, keeping (SMSProviderFactory.healthCheckEach (World:=World) entries results).
Proof.
  induction entries as [|[ref key] rest IH]; intros results; simpl; [apply keeping_ret|].
  apply keeping_bind; [apply keeping_healthCheck|]. intros r. apply IH.
Qed.

Lemma keeping_healthCheckAll : keeping (SMSProviderFactory.healthCheckAll (World:=World)).
Proof.
  apply keeping_bind; [apply keeping_get_heap|].
  intros h0. apply keeping_healthCheckEach.
Qed.

(** In every state reached a provider is where it was, with its
    configuration and its [sendSMS] method. *)
Lemma reachable_keeps h h' ref (p : BaseSMSProvider World) :
  reachable h h' ->
  deref h ref = Some p ->
  exists p', deref h' ref = Some p' /\ sendSMS p' = sendSMS p /\ config p' = config p.
Proof.
  assert (Step : forall {A : Type} (m : M World A) g,
             keeping m ->
             (exists p1, deref g ref = Some p1 /\ sendSMS p1 = sendSMS p
                         /\ config p1 = config p) ->
             exists p2, deref (snd (m g)) ref = Some p2 /\ sendSMS p2 = sendSMS p
                        /\ config p2 = config p).
  { intros A m g K (p1 & Hp1 & M1 & C1).
    destruct (K g ref p1 Hp1) as (p2 & Hp2 & M2 & C2).
    exists p2. split; [exact Hp2|]. split; congruence. }
  intros R Hp. induction R.
  - exists p. auto.
  - apply Step; [apply keeping_sendSMS|assumption].
  - apply Step; [apply keeping_checkDeliveryStatus|assumption].
  - apply Step; [apply keeping_healthCheckAll|assumption].
  - apply Step; [apply keeping_call_sendSMS|assumption].
  - apply Step; [apply keeping_call_getDeliveryStatus|assumption].
  - apply Step; [apply keeping_call_checkBalance|assumption].
  - apply Step; [apply keeping_healthCheck|assumption].
  - apply Step; [apply keeping_testConnection|assumption].
Qed.

End Keeping.

Lemma Array_sort_ext {A : Type} (after after' : A -> A -> bool) (l : list A) :
  (forall a b, after a b = after' a b) -> Array_sort after l = Array_sort after' l.
Proof.
  intros E. induction l as [|x l IH]; [reflexivity|].
  change (sort_insert after x (Array_sort after l) = sort_insert after' x (Array_sort after' l)).
  rewrite IH. generalize (Array_sort after' l) as m. intros m.
  induction m as [|y m IHm]; simpl; [reflexivity|]. now rewrite E, IHm.
Qed.

Section LookupsByRegistration.
Import SMSProviderFactory.
Context {World : Type} (h h' : Heap World).
Hypothesis same : registration h' = registration h.

Lemma same_config ref : config <$> deref h' ref = config <$> deref h ref.
Proof. now rewrite !registration_config, same. Qed.

Lemma same_eligible (countryCode : string) ref :
  eligible h' countryCode ref = eligible h countryCode ref.
Proof.
  unfold eligible, supportsCountry. pose proof (same_config ref) as E.
  destruct (deref h' ref) as [p'|], (deref h ref) as [p|]; simpl in E; try discriminate;
    [|reflexivity].
  now injection E as ->.
Qed.

Lemma same_priorityOf ref : priorityOf h' ref = priorityOf h ref.
Proof.
  unfold priorityOf. pose proof (same_config ref) as E.
  destruct (deref h' ref) as [p'|], (deref h ref) as [p|]; simpl in E; try discriminate;
    [|reflexivity].
  now injection E as ->.
Qed.

Lemma same_getAllProviders : getAllProviders h' = getAllProviders h.
Proof. unfold getAllProviders. now rewrite <- !registration_length, same. Qed.

Lemma same_getProvidersForCountry (countryCode : string) :
  getProvidersForCountry h' countryCode = getProvidersForCountry h countryCode.
Proof.
  unfold getProvidersForCountry. rewrite same_getAllProviders.
  rewrite (List.filter_ext _ _ (same_eligible countryCode)).
  apply Array_sort_ext. intros a b. now rewrite !same_priorityOf.
Qed.

Lemma same_getProvidersForNetwork (countryCode network : string) :
  getProvidersForNetwork h' countryCode network = getProvidersForNetwork h countryCode network.
Proof.
  unfold getProvidersForNetwork. rewrite same_getProvidersForCountry.
  apply List.filter_ext. intros ref. unfold supportsNetwork.
  pose proof (same_config ref) as E.
  destruct (deref h' ref) as [p'|], (deref h ref) as [p|]; simpl in E; try discriminate;
    [|reflexivity].
  now injection E as ->.
Qed.

Lemma getProvider_by_keys (g : Heap World) (providerName : string) :
  getProvider g providerName
  = fst <$> list_find (fun key => key = toLowerCase providerName) (map fst (providers g)).
Proof.
  unfold getProvider. generalize (providers g) as l. intros l.
  induction l as [|[key p] l IH]; [reflexivity|].
  cbn [map list_find fst]. destruct (decide (key = toLowerCase providerName)); [reflexivity|].
  destruct (list_find _ l) as [[i e]|], (list_find _ (map fst l)) as [[j k]|];
    simpl in *; congruence.
Qed.

Lemma same_getProvider (providerName : string) :
  getProvider h' providerName = getProvider h providerName.
Proof. now rewrite !getProvider_by_keys, <- !registration_keys, same. Qed.

End LookupsByRegistration.

(** X4.  Sending, probing for a delivery status and checking health never
    add, remove, reorder or reconfigure providers: the keys and the
    configurations of the registry are the same after as before (only
    statistics, the outside world and the call log change). *)
Theorem operations_keep_registration {World : Type} (h : Heap World) :
  (forall options country network,
      registration (snd (SMSProviderRouter.sendSMS options country network h))
      = registration h)
  /\ (forall id providerName,
         registration (snd (SMSProviderRouter.checkDeliveryStatus id providerName h))
         = registration h)
  /\ registration (snd (SMSProviderFactory.healthCheckAll h)) = registration h.
Proof.
  split; [|split].
  - intros options country network. apply preserving_sendSMS.
  - intros id providerName. apply preserving_checkDeliveryStatus.
  - apply preserving_healthCheckAll.
Qed.

(** X5.  The lookups of the registry depend on the keys and the
    configurations only, not on the statistics: two states with the same
    registration give the same candidates for every country and network and
    resolve every name to the same provider. *)
Theorem lookups_depend_on_registration {World : Type} (h h' : Heap World) :
  registration h' = registration h ->
  (forall countryCode,
      SMSProviderFactory.getProvidersForCountry h' countryCode
      = SMSProviderFactory.getProvidersForCountry h countryCode)
  /\ (forall countryCode network,
         SMSProviderFactory.getProvidersForNetwork h' countryCode network
         = SMSProviderFactory.getProvidersForNetwork h countryCode network)
  /\ (forall providerName,
         SMSProviderFactory.getProvider h' providerName
         = SMSProviderFactory.getProvider h providerName).
Proof.
  intros same. split; [|split].
  - intros c. now apply same_getProvidersForCountry.
  - intros c n. now apply same_getProvidersForNetwork.
  - intros n. now apply same_getProvider.
Qed.

(** After a send that ran through two providers the routing is as before. *)
Lemma lookups_depend_on_registration_witness :
  (forall countryCode,
      SMSProviderFactory.getProvidersForCountry
        (snd (SMSProviderRouter.sendSMS Samples.options "GH" None Samples.registry312))
        countryCode
      = SMSProviderFactory.getProvidersForCountry Samples.registry312 countryCode)
  /\ (forall countryCode network,
         SMSProviderFactory.getProvidersForNetwork
           (snd (SMSProviderRouter.sendSMS Samples.options "GH" None Samples.registry312))
           countryCode network
         = SMSProviderFactory.getProvidersForNetwork Samples.registry312 countryCode network)
  /\ (forall providerName,
         SMSProviderFactory.getProvider
           (snd (SMSProviderRouter.sendSMS Samples.options "GH" None Samples.registry312))
           providerName
         = SMSProviderFactory.getProvider Samples.registry312 providerName).
Proof.
  apply (lookups_depend_on_registration Samples.registry312
           (snd (SMSProviderRouter.sendSMS Samples.options "GH" None Samples.registry312))).
  reflexivity.
Defined.

(** ** More on the registry *)

Lemma toLowerCase_idempotent (s : string) : toLowerCase (toLowerCase s) = toLowerCase s.
Proof.
  induction s as [|c s IH]; [reflexivity|]. simpl. rewrite IH. f_equal.
  unfold ascii_toLowerCase.
  destruct ((65 <=? nat_of_ascii c)%nat && (nat_of_ascii c <=? 90)%nat) eqn:E.
  - apply andb_true_iff in E. destruct E as [E1 E2].
    apply Nat.leb_le in E1, E2.
    rewrite nat_ascii_embedding by lia.
    replace ((65 <=? nat_of_ascii c + 32)%nat && (nat_of_ascii c + 32 <=? 90)%nat) with false;
      [reflexivity|].
    symmetry. apply andb_false_iff. right. apply Nat.leb_gt. lia.
  - now rewrite E.
Qed.

Section NetworkFacts.
Import SMSProviderFactory.
Context {World : Type} (h : Heap World).

Lemma elem_of_getProvidersForNetwork (countryCode network : string) (ref : nat) :
  ref ∈ getProvidersForNetwork h countryCode network <->
  exists p, deref h ref = Some p
    /\ (countryCode ∈ supportedCountries (config p) \/ "*" ∈ supportedCountries (config p))
    /\ match supportedNetworks (config p) with
       | None => True
       | Some networks => network ∈ networks
       end.
Proof.
  unfold getProvidersForNetwork.
  rewrite list_elem_of_In, filter_In, <- list_elem_of_In, elem_of_getProvidersForCountry.
  split.
  - intros [(p & Hp & Hc) Hn]. exists p. rewrite Hp in Hn. repeat split; try assumption.
    unfold supportsNetwork, includes in Hn.
    destruct (supportedNetworks (config p)); [now apply bool_decide_eq_true in Hn|exact I].
  - intros (p & Hp & Hc & Hn). split; [eauto|]. rewrite Hp.
    unfold supportsNetwork, includes.
    destruct (supportedNetworks (config p)); [now apply bool_decide_eq_true|reflexivity].
Qed.

Lemma getProvidersForNetwork_sorted (countryCode network : string) :
  StronglySorted
    (fun a b => priorityOf h a < priorityOf h b
                \/ (priorityOf h a = priorityOf h b /\ (a < b)%nat))
    (getProvidersForNetwork h countryCode network).
Proof. apply filter_sorted, getProvidersForCountry_sorted. Qed.

End NetworkFacts.

(** X6.  [getProvidersForNetwork] returns exactly the candidates of the
    country whose configuration lists the network or lists no networks at
    all, each once, still in ascending order of [priority || 999] with ties
    in registration order. *)
Theorem getProvidersForNetwork_candidates {World : Type} (h : Heap World)
    (countryCode network : string) :
  (forall ref,
      ref ∈ SMSProviderFactory.getProvidersForNetwork h countryCode network <->
      exists p, deref h ref = Some p
        /\ (countryCode ∈ supportedCountries (config p) \/ "*" ∈ supportedCountries (config p))
        /\ match supportedNetworks (config p) with
           | None => True
           | Some networks => network ∈ networks
           end)
  /\ NoDup (SMSProviderFactory.getProvidersForNetwork h countryCode network)
  /\ StronglySorted
       (fun a b => SMSProviderFactory.priorityOf h a < SMSProviderFactory.priorityOf h b
                   \/ (SMSProviderFactory.priorityOf h a = SMSProviderFactory.priorityOf h b
                       /\ (a < b)%nat))
       (SMSProviderFactory.getProvidersForNetwork h countryCode network).
Proof.
  split; [|split].
  - intros ref. apply elem_of_getProvidersForNetwork.
  - unfold SMSProviderFactory.getProvidersForNetwork.
    apply NoDup_ListNoDup, List.NoDup_filter, NoDup_ListNoDup, getProvidersForCountry_NoDup.
  - apply getProvidersForNetwork_sorted.
Qed.

(** X7.  [getProvider] resolves a name without regard to case: the entry it
    returns is the one registered under the lower-cased name, it returns
    nothing exactly when no entry has that key, and an entry registered
    under a key with an upper-case letter is never returned. *)
Theorem getProvider_by_lowercase_key {World : Type} (h : Heap World) (providerName : string) :
  (forall ref,
      SMSProviderFactory.getProvider h providerName = Some ref ->
      (exists p, providers h !! ref = Some (toLowerCase providerName, p))
      /\ (forall j key p, (j < ref)%nat -> providers h !! j = Some (key, p) ->
                          key <> toLowerCase providerName))
  /\ (SMSProviderFactory.getProvider h providerName = None <->
      toLowerCase providerName ∉ map fst (providers h))
  /\ (forall ref key p,
         providers h !! ref = Some (key, p) ->
         key <> toLowerCase key ->
         forall anyName, SMSProviderFactory.getProvider h anyName <> Some ref).
Proof.
  assert (F : forall name ref,
             SMSProviderFactory.getProvider h name = Some ref ->
             (exists p, providers h !! ref = Some (toLowerCase name, p))
             /\ (forall j key p, (j < ref)%nat -> providers h !! j = Some (key, p) ->
                                 key <> toLowerCase name)).
  { intros name ref E. unfold SMSProviderFactory.getProvider in E.
    destruct (list_find _ (providers h)) as [[i [key p]]|] eqn:L; [|discriminate].
    injection E as <-. apply list_find_Some in L. destruct L as (L1 & L2 & L3).
    simpl in L2. subst key. split; [eauto|].
    intros j key' p' Hj Hl. apply (L3 j (key', p') Hl Hj). }
  split; [|split].
  - apply F.
  - unfold SMSProviderFactory.getProvider.
    destruct (list_find _ (providers h)) as [[i [key p]]|] eqn:L; simpl.
    + split; [discriminate|]. intros Hn. exfalso. apply Hn.
      apply list_find_Some in L. destruct L as (L1 & L2 & _). simpl in L2. subst key.
      apply list_elem_of_In, in_map_iff. exists (toLowerCase providerName, p).
      split; [reflexivity|]. apply list_elem_of_In. eapply list_elem_of_lookup_2; eauto.
    + split; [|reflexivity]. intros _ Hin.
      apply list_elem_of_In, in_map_iff in Hin. destruct Hin as ([key p] & Hk & Hin).
      simpl in Hk. subst key. apply list_elem_of_In in Hin.
      eapply list_find_None in L. rewrite Forall_forall in L.
      apply (L _ Hin). reflexivity.
  - intros ref key p Hp Hk anyName E.
    destruct (F anyName ref E) as [(p' & Hp') _]. rewrite Hp in Hp'.
    injection Hp' as -> _. apply Hk. symmetry. apply toLowerCase_idempotent.
Qed.

Lemma getProvider_by_lowercase_key_witness :
  (exists p, providers Samples.registryWildcard !! 0%nat = Some (toLowerCase "TWILIO", p))
  /\ (forall j key p, (j < 0)%nat -> providers Samples.registryWildcard !! j = Some (key, p) ->
                      key <> toLowerCase "TWILIO").
Proof.
  apply (proj1 (getProvider_by_lowercase_key Samples.registryWildcard "TWILIO") 0%nat).
  reflexivity.
Defined.

(** ** More on the router *)

Section RunFacts.
Import SMSProviderFactory SMSProviderRouter.
Context {World : Type}.
Implicit Types (h : Heap World) (options : SendSMSOptions).

Lemma tryEach_run options (refs : list nat) :
  forall (lastError : LastError) h,
    exists response h' k outs,
      tryEach refs options lastError h = (Normal response, h')
      /\ (k <= length refs)%nat
      /\ callEach (fun ref => call_sendSMS ref options) (take k refs) h = (outs, h')
      /\ ((k = length refs /\ Forall (fun o => succeeded o = false) outs
           /\ response = allFailed (fold_left (fun _ o => lastErrorOf o) outs lastError))
          \/ (exists pre, outs = (pre ++ [Normal response])%list
                          /\ Forall (fun o => succeeded o = false) pre
                          /\ success response = true)).
Proof.
  induction refs as [|ref rest IH]; intros lastError h.
  - exists (allFailed lastError), h, 0%nat, []. simpl. unfold ret.
    split; [reflexivity|]. split; [lia|]. split; [reflexivity|]. left.
    repeat split. constructor.
  - destruct (call_sendSMS ref options h) as [o h1] eqn:E1.
    destruct (succeeded o) eqn:So.
    + destruct o as [r|e]; [|discriminate]. simpl in So.
      exists r, h1, 1%nat, [Normal r]. split.
      { simpl. unfold bind at 1. rewrite attempt_call, E1. simpl. rewrite So. reflexivity. }
      split; [simpl; lia|]. split.
      { simpl. rewrite E1. reflexivity. }
      right. exists []. repeat split; [constructor|exact So].
    + destruct (IH (lastErrorOf o) h1) as (response & h' & k & outs & T & Hk & C & Hcase).
      exists response, h', (S k), (o :: outs). split.
      { simpl. unfold bind at 1. rewrite attempt_call, E1. simpl.
        rewrite (turnOf_failed _ So). exact T. }
      split; [simpl; lia|]. split.
      { change (take (S k) (ref :: rest)) with (ref :: take k rest).
        simpl. rewrite E1, C. reflexivity. }
      destruct Hcase as [(Hk' & F & R)|(pre & Hp & F & Hs)].
      * left. split; [simpl; lia|]. split; [now constructor|exact R].
      * right. exists (o :: pre). split; [now rewrite Hp|]. split; [now constructor|exact Hs].
Qed.

Lemma candidatesFor_sorted h (country : string) (network : option string) :
  StronglySorted
    (fun a b => priorityOf h a < priorityOf h b
                \/ (priorityOf h a = priorityOf h b /\ (a < b)%nat))
    (candidatesFor h country network).
Proof.
  unfold candidatesFor. destruct (truthy_string network).
  - apply getProvidersForNetwork_sorted.
  - apply getProvidersForCountry_sorted.
Qed.

End RunFacts.

(** The shape of a run of [sendSMS]. *)
Lemma sendSMS_run_shape {World : Type} (h : Heap World) (options : SendSMSOptions)
    (country : string) (network : option string) :
  exists response h' k outs,
    SMSProviderRouter.sendSMS options country network h = (Normal response, h')
    /\ (k <= length (SMSProviderRouter.candidatesFor h country network))%nat
    /\ callEach (fun ref => call_sendSMS ref options)
                (take k (SMSProviderRouter.candidatesFor h country network)) h = (outs, h')
    /\ calls h' =
       (calls h ++ zip_with (fun ref o => CallSendSMS ref options o)
                            (take k (SMSProviderRouter.candidatesFor h country network))
                            outs)%list
    /\ length outs = k
    /\ ((k = length (SMSProviderRouter.candidatesFor h country network)
         /\ Forall (fun o => succeeded o = false) outs
         /\ success response = false)
        \/ (exists pre, outs = (pre ++ [Normal response])%list
                        /\ Forall (fun o => succeeded o = false) pre
                        /\ success response = true)).
Proof.
  destruct (SMSProviderRouter.candidatesFor h country network) as [|c cs] eqn:E.
  - exists (SMSProviderRouter.noProvider country network), h, 0%nat, [].
    split.
    { unfold SMSProviderRouter.sendSMS, SMSProviderRouter.route, try_catch, bind, ret.
      simpl. rewrite E. reflexivity. }
    split; [simpl; lia|]. split; [reflexivity|].
    split; [simpl; now rewrite app_nil_r|]. split; [reflexivity|].
    left. split; [reflexivity|]. split; [constructor|reflexivity].
  - destruct (tryEach_run options (c :: cs) SMSProviderRouter.NoError h)
      as (response & h' & k & outs & T & Hk & C & Hcase).
    exists response, h', k, outs.
    assert (V : Forall (fun ref => (ref < length (providers h))%nat) (take k (c :: cs))).
    { apply Forall_take. rewrite <- E. apply candidatesFor_valid. }
    destruct (callEach_calls _ (fun ref o => CallSendSMS ref options o)
                (call_sendSMS_logged options) _ h outs h' V C) as (L & Len & _).
    split.
    { rewrite sendSMS_nonempty by (rewrite E; discriminate). rewrite E. exact T. }
    split; [exact Hk|]. split; [exact C|]. split; [exact L|]. split.
    { rewrite Len, length_take. lia. }
    destruct Hcase as [(Hk' & F & R)|Hs]; [left|right; exact Hs].
    split; [exact Hk'|]. split; [exact F|]. subst response. reflexivity.
Qed.

(** X8.  Every run of [Router.sendSMS] returns a response and has called
    the candidates of an initial part of the candidate list, each once and
    in order.  Either every call made has failed and the response has
    [success = false], all candidates having been called; or exactly the
    last call made has succeeded, and its response is the result.  In
    particular no request leads to two successful sends. *)
Theorem sendSMS_run {World : Type} (h : Heap World) (options : SendSMSOptions)
    (country : string) (network : option string) :
  exists response h' k outs,
    SMSProviderRouter.sendSMS options country network h = (Normal response, h')
    /\ (k <= length (SMSProviderRouter.candidatesFor h country network))%nat
    /\ callEach (fun ref => call_sendSMS ref options)
                (take k (SMSProviderRouter.candidatesFor h country network)) h = (outs, h')
    /\ calls h' =
       (calls h ++ zip_with (fun ref o => CallSendSMS ref options o)
                            (take k (SMSProviderRouter.candidatesFor h country network))
                            outs)%list
    /\ length outs = k
    /\ ((k = length (SMSProviderRouter.candidatesFor h country network)
         /\ Forall (fun o => succeeded o = false) outs
         /\ success response = false)
        \/ (exists pre, outs = (pre ++ [Normal response])%list
                        /\ Forall (fun o => succeeded o = false) pre
                        /\ success response = true)).
Proof. exact (sendSMS_run_shape h options country network). Qed.

Lemma Qpositive_ext (p q : Q) : (p == q)%Q -> Qpositive p = Qpositive q.
Proof.
  intros E. destruct (Qpositive q) eqn:Hq.
  - apply Qpositive_true. apply Qpositive_true in Hq. lra.
  - apply Qpositive_false. apply Qpositive_false in Hq. lra.
Qed.

Lemma firstBest_ext {A : Type} (after after' : A -> A -> bool) (l : list A) :
  (forall a b, after a b = after' a b) -> firstBest after l = firstBest after' l.
Proof.
  intros E. induction l as [|x l IH]; [reflexivity|]. simpl. rewrite IH.
  destruct (firstBest after' l); [now rewrite E|reflexivity].
Qed.

(** X9.  With criterion [cost], or none, [getBestProvider] returns the first
    candidate, and returns nothing only when there is no candidate.  No
    candidate has a lower [priority || 999] than the one returned, and it is
    the provider a [Router.sendSMS] for the same destination calls first. *)
Theorem getBestProvider_cost_is_first_tried {World : Type} (h : Heap World)
    (country : string) (network : option string)
    (criteria : option SMSProviderRouter.Criteria) (options : SendSMSOptions) :
  criteria = None \/ criteria = Some SMSProviderRouter.by_cost ->
  match SMSProviderRouter.getBestProvider h country network criteria with
  | None => SMSProviderRouter.candidatesFor h country network = []
  | Some best =>
      head (SMSProviderRouter.candidatesFor h country network) = Some best
      /\ (forall c, c ∈ SMSProviderRouter.candidatesFor h country network ->
                    SMSProviderFactory.priorityOf h best <= SMSProviderFactory.priorityOf h c)
      /\ exists later,
           calls (snd (SMSProviderRouter.sendSMS options country network h))
           = (calls h
              ++ CallSendSMS best options (fst (call_sendSMS best options h)) :: later)%list
  end.
Proof.
  intros Hc.
  assert (Hb : SMSProviderRouter.getBestProvider h country network criteria
               = head (SMSProviderRouter.candidatesFor h country network)).
  { unfold SMSProviderRouter.getBestProvider.
    destruct (SMSProviderRouter.candidatesFor h country network) as [|c cs];
      [reflexivity|].
    destruct Hc as [-> | ->]; reflexivity. }
  rewrite Hb.
  destruct (SMSProviderRouter.candidatesFor h country network) as [|best cs] eqn:E;
    [reflexivity|].
  cbn [head]. split; [reflexivity|]. split.
  - intros c Hin. pose proof (candidatesFor_sorted h country network) as S.
    rewrite E in S. inversion S as [|? ? _ F]; subst.
    apply list_elem_of_In in Hin. destruct Hin as [<-|Hin]; [lia|].
    rewrite Forall_forall in F. apply list_elem_of_In in Hin. specialize (F c Hin). lia.
  - destruct (sendSMS_run_shape h options country network)
      as (response & h' & k & outs & R & Hk & C & L & Len & Hcase).
    rewrite R. cbn [snd]. rewrite L, E in *.
    destruct k as [|k].
    + exfalso. destruct outs; [|discriminate].
      destruct Hcase as [(Hk' & _)|(pre & Hp & _)]; [discriminate|].
      destruct pre; discriminate.
    + change (take (S k) (best :: cs)) with (best :: take k cs) in *.
      simpl in C. destruct (call_sendSMS best options h) as [o h1].
      destruct (callEach _ (take k cs) h1) as [os h2]. injection C as <- <-.
      simpl. eauto.
Qed.

(** Of the providers registered with priorities 3, 1 and 2 the one of
    priority 1 is returned, and it is the one a send calls first. *)
Lemma getBestProvider_cost_is_first_tried_witness :
  head (SMSProviderRouter.candidatesFor Samples.registry312 "GH" None) = Some 1%nat
  /\ (forall c, c ∈ SMSProviderRouter.candidatesFor Samples.registry312 "GH" None ->
                SMSProviderFactory.priorityOf Samples.registry312 1
                <= SMSProviderFactory.priorityOf Samples.registry312 c)
  /\ exists later,
       calls (snd (SMSProviderRouter.sendSMS Samples.options "GH" None Samples.registry312))
       = (calls Samples.registry312
          ++ CallSendSMS 1 Samples.options
               (fst (call_sendSMS 1 Samples.options Samples.registry312)) :: later)%list.
Proof.
  exact (getBestProvider_cost_is_first_tried Samples.registry312 "GH" None None
           Samples.options (or_introl eq_refl)).
Defined.

(** X10.  With criterion [reliability], [getBestProvider] returns the first
    candidate, in priority order, of greatest [successRate || 0]: every
    candidate before it has a strictly lower rate, none after it a higher
    one, so candidates of equal rate keep their priority order. *)
Theorem getBestProvider_reliability {World : Type} (h : Heap World) (country : string)
    (network : option string) :
  match SMSProviderRouter.getBestProvider h country network
          (Some SMSProviderRouter.by_reliability) with
  | None => SMSProviderRouter.candidatesFor h country network = []
  | Some best =>
      exists pre post,
        SMSProviderRouter.candidatesFor h country network = (pre ++ best :: post)%list
        /\ Forall (fun c => (SMSProviderRouter.rateOf h c < SMSProviderRouter.rateOf h best)%Q) pre
        /\ Forall (fun c => (SMSProviderRouter.rateOf h c <= SMSProviderRouter.rateOf h best)%Q) post
  end.
Proof.
  unfold SMSProviderRouter.getBestProvider.
  destruct (SMSProviderRouter.candidatesFor h country network) as [|c cs] eqn:E;
    [reflexivity|].
  change ((length (c :: cs) =? 0)%nat) with false. cbv iota.
  rewrite head_Array_sort.
  rewrite (firstBest_ext _
             (fun a b => Qpositive ((- SMSProviderRouter.rateOf h a)
                                    - (- SMSProviderRouter.rateOf h b)))).
  2:{ intros a b. apply Qpositive_ext. ring. }
  pose proof (firstBest_least (fun a => (- SMSProviderRouter.rateOf h a)%Q) (c :: cs)) as F.
  destruct (firstBest _ (c :: cs)) as [best|]; [|discriminate].
  destruct F as (pre & post & -> & Hpre & Hpost). exists pre, post.
  split; [reflexivity|]. split.
  - eapply Forall_impl; [exact Hpre|]. intros x Hx. simpl in Hx. lra.
  - eapply Forall_impl; [exact Hpost|]. intros x Hx. simpl in Hx. lra.
Qed.

(** ** Text helpers *)

Lemma string_length_append (s1 s2 : string) :
  String.length (s1 ++ s2) = (String.length s1 + String.length s2)%nat.
Proof. induction s1 as [|c s1 IH]; simpl; [reflexivity|]. now rewrite IH. Qed.

Lemma string_length_substring (s : string) :
  forall n m, (n + m <= String.length s)%nat -> String.length (substring n m s) = m.
Proof.
  induction s as [|c s IH]; intros n m H; simpl in H.
  - assert (n = 0 /\ m = 0)%nat as [-> ->] by lia. reflexivity.
  - destruct n as [|n], m as [|m]; simpl; try reflexivity.
    + rewrite IH by lia. reflexivity.
    + apply IH. lia.
    + apply IH. lia.
Qed.

(** X11.  [maskPhone] answers ["***"] for a text of at most four characters
    and a text of exactly ten characters otherwise; for a phone number of
    five to seven characters the mask hides nothing: the number can be read
    back from the first four and the last characters of the mask. *)
Theorem maskPhone_shape (phone : string) :
  ((String.length phone <= 4)%nat -> maskPhone phone = "***")
  /\ ((4 < String.length phone)%nat -> String.length (maskPhone phone) = 10%nat)
  /\ ((4 < String.length phone <= 7)%nat ->
      phone = substring 0 4 (maskPhone phone)
              ++ substring (14 - String.length phone) (String.length phone - 4)
                           (maskPhone phone)).
Proof.
  split; [|split].
  - intros H. unfold maskPhone. apply Nat.leb_le in H. now rewrite H.
  - intros H. unfold maskPhone. apply Nat.leb_gt in H. rewrite H.
    apply Nat.leb_gt in H. unfold js_substring.
    rewrite !string_length_append, !string_length_substring by lia.
    change (String.length "***") with 3%nat. lia.
  - intros [H1 H2].
    destruct phone as [|c1 [|c2 [|c3 [|c4 [|c5 [|c6 [|c7 [|c8 phone]]]]]]]];
      simpl in H1, H2; try lia; reflexivity.
Qed.

Lemma maskPhone_shape_witness :
  maskPhone "911" = "***"
  /\ String.length (maskPhone "233244123456") = 10%nat
  /\ "555123" = substring 0 4 (maskPhone "555123")
                ++ substring (14 - String.length "555123") (String.length "555123" - 4)
                             (maskPhone "555123").
Proof.
  split; [|split].
  - apply (proj1 (maskPhone_shape "911")). simpl. lia.
  - apply (proj1 (proj2 (maskPhone_shape "233244123456"))). simpl. lia.
  - apply (proj2 (proj2 (maskPhone_shape "555123"))). simpl. lia.
Defined.

Lemma allChars_and (f g : ascii -> bool) (s : string) :
  allChars (fun c => f c && g c) s = allChars f s && allChars g s.
Proof.
  induction s as [|c s IH]; simpl; [reflexivity|]. rewrite IH.
  destruct (f c), (g c), (allChars f s), (allChars g s); reflexivity.
Qed.

Lemma ascii_toLowerCase_not_upper (c : ascii) : isUpper (ascii_toLowerCase c) = false.
Proof.
  unfold ascii_toLowerCase, isUpper.
  destruct ((65 <=? nat_of_ascii c)%nat && (nat_of_ascii c <=? 90)%nat) eqn:E.
  - apply andb_true_iff in E. destruct E as [E1 E2]. apply Nat.leb_le in E1, E2.
    rewrite nat_ascii_embedding by lia.
    apply andb_false_iff. right. apply Nat.leb_gt. lia.
  - exact E.
Qed.

Lemma toLowerCase_not_upper (s : string) :
  allChars (fun c => negb (isUpper c)) (toLowerCase s) = true.
Proof.
  induction s as [|c s IH]; simpl; [reflexivity|].
  now rewrite ascii_toLowerCase_not_upper, IH.
Qed.

Lemma toLowerCase_fixed (s : string) :
  allChars (fun c => negb (isUpper c)) s = true -> toLowerCase s = s.
Proof.
  induction s as [|c s IH]; simpl; [reflexivity|].
  intros H. apply andb_true_iff in H. destruct H as [Hc Hs].
  rewrite IH by exact Hs. f_equal. unfold ascii_toLowerCase.
  unfold isUpper in Hc. apply negb_true_iff in Hc. now rewrite Hc.
Qed.

Lemma replaceWhitespaceRuns_clean (s : string) :
  forall inRun,
    allChars (fun c => negb (isUpper c)) s = true ->
    allChars (fun c => negb (isWhitespace c) && negb (isUpper c))
             (replaceWhitespaceRuns inRun s) = true.
Proof.
  induction s as [|c s IH]; intros inRun H; simpl in *; [reflexivity|].
  apply andb_true_iff in H. destruct H as [Hc Hs].
  destruct (isWhitespace c) eqn:W.
  - destruct inRun; [now apply IH|]. simpl. now apply IH.
  - simpl. rewrite W, Hc. simpl. now apply IH.
Qed.

Lemma replaceWhitespaceRuns_fixed (s : string) :
  forall inRun,
    allChars (fun c => negb (isWhitespace c)) s = true ->
    replaceWhitespaceRuns inRun s = s.
Proof.
  induction s as [|c s IH]; intros inRun H; simpl in *; [reflexivity|].
  apply andb_true_iff in H. destruct H as [Hc Hs].
  apply negb_true_iff in Hc. rewrite Hc. f_equal. now apply IH.
Qed.

(** X12.  The identifier [getProviderId] derives from a provider name has no
    whitespace and no upper-case letter, and deriving an identifier from it
    again changes nothing. *)
Theorem providerIdOf_normal_form (providerName : string) :
  allChars (fun c => negb (isWhitespace c) && negb (isUpper c)) (providerIdOf providerName)
  = true
  /\ providerIdOf (providerIdOf providerName) = providerIdOf providerName.
Proof.
  assert (H : allChars (fun c => negb (isWhitespace c) && negb (isUpper c))
                       (providerIdOf providerName) = true).
  { apply replaceWhitespaceRuns_clean, toLowerCase_not_upper. }
  split; [exact H|].
  rewrite allChars_and in H. apply andb_true_iff in H. destruct H as [Hw Hu].
  unfold providerIdOf at 1. rewrite (toLowerCase_fixed _ Hu).
  now apply replaceWhitespaceRuns_fixed.
Qed.

Lemma nonZeroDigit_facts (c : ascii) :
  isNonZeroDigit c = true ->
  isDigit c = true /\ Ascii.eqb c "0" = false /\ Ascii.eqb c "+" = false.
Proof.
  unfold isNonZeroDigit, isDigit. intros H.
  apply andb_true_iff in H. destruct H as [H1 H2]. apply Nat.leb_le in H1, H2.
  split; [|split].
  - apply andb_true_iff. split; apply Nat.leb_le; lia.
  - apply Ascii.eqb_neq. intros ->. vm_compute in H1. lia.
  - apply Ascii.eqb_neq. intros ->. vm_compute in H1. lia.
Qed.

Lemma digit_not_plus (c : ascii) : isDigit c = true -> Ascii.eqb c "+" = false.
Proof.
  unfold isDigit. intros H. apply andb_true_iff in H. destruct H as [H1 H2].
  apply Nat.leb_le in H1. apply Ascii.eqb_neq. intros ->. vm_compute in H1. lia.
Qed.

Lemma keepChars_fixed (class : ascii -> bool) (s : string) :
  allChars class s = true -> keepChars class s = s.
Proof.
  induction s as [|c s IH]; simpl; [reflexivity|].
  intros H. apply andb_true_iff in H. destruct H as [Hc Hs].
  rewrite Hc. f_equal. now apply IH.
Qed.

Lemma keepChars_allChars (class : ascii -> bool) (s : string) :
  allChars class (keepChars class s) = true.
Proof.
  induction s as [|c s IH]; simpl; [reflexivity|].
  destruct (class c) eqn:E; [simpl; now rewrite E|exact IH].
Qed.

Lemma allChars_weaken (f g : ascii -> bool) (s : string) :
  (forall c, f c = true -> g c = true) -> allChars f s = true -> allChars g s = true.
Proof.
  intros Hfg. induction s as [|c s IH]; simpl; [reflexivity|].
  intros H. apply andb_true_iff in H. destruct H as [Hc Hs].
  rewrite (Hfg c Hc). now apply IH.
Qed.

Lemma allChars_append (f : ascii -> bool) (s1 s2 : string) :
  allChars f (s1 ++ s2) = allChars f s1 && allChars f s2.
Proof.
  induction s1 as [|c s1 IH]; simpl; [reflexivity|]. rewrite IH. apply andb_assoc.
Qed.

Lemma digits_are_kept (s : string) :
  allChars isDigit s = true -> allChars isDigitOrPlus s = true.
Proof.
  apply allChars_weaken. intros c H. unfold isDigitOrPlus. now rewrite H.
Qed.

(** X13.  A phone number [validatePhoneNumber] accepts is already in
    normal form: whatever the country code, [normalizePhoneNumber] only
    removes its leading [+], and the result is accepted again. *)
Theorem valid_number_is_normal (phone countryCode : string) :
  validatePhoneNumber phone = true ->
  normalizePhoneNumber phone countryCode
  = match dropLeading "+" phone with Some rest => rest | None => phone end
  /\ validatePhoneNumber (normalizePhoneNumber phone countryCode) = true.
Proof.
  intros V.
  assert (N : forall digits,
             validatePhoneNumber digits = true ->
             dropLeading "+" digits = None ->
             normalizePhoneNumber digits countryCode = digits).
  { intros digits Vd Hp. unfold validatePhoneNumber in Vd. rewrite Hp in Vd.
    destruct digits as [|c rest]; [discriminate|].
    rewrite !andb_true_iff in Vd. destruct Vd as [[[Hc _] _] Hr].
    destruct (nonZeroDigit_facts c Hc) as (Hd & H0 & Hplus).
    unfold normalizePhoneNumber.
    rewrite keepChars_fixed.
    2:{ simpl. unfold isDigitOrPlus at 1. rewrite Hd. simpl. now apply digits_are_kept. }
    rewrite Hp. simpl. now rewrite H0. }
  destruct (dropLeading "+" phone) as [rest|] eqn:P.
  - destruct phone as [|c phone]; [discriminate|]. simpl in P.
    destruct (Ascii.eqb c "+") eqn:Ec; [|discriminate]. injection P as ->.
    apply Ascii.eqb_eq in Ec. subst c.
    assert (Vr : validatePhoneNumber rest = true).
    { unfold validatePhoneNumber in V. simpl in V. unfold validatePhoneNumber.
      destruct rest as [|c r]; [discriminate|].
      rewrite !andb_true_iff in V. destruct V as [[[Hc Hl1] Hl2] Hr].
      destruct (nonZeroDigit_facts c Hc) as (_ & _ & Hplus).
      simpl. rewrite Hplus, Hc, Hl1, Hl2, Hr. reflexivity. }
    assert (Pr : dropLeading "+" rest = None).
    { unfold validatePhoneNumber in V. simpl in V.
      destruct rest as [|c r]; [reflexivity|].
      rewrite !andb_true_iff in V. destruct V as [[[Hc _] _] _].
      destruct (nonZeroDigit_facts c Hc) as (_ & _ & Hplus). simpl. now rewrite Hplus. }
    assert (E : normalizePhoneNumber (String "+" rest) countryCode
                = normalizePhoneNumber rest countryCode).
    { unfold normalizePhoneNumber.
      change (keepChars isDigitOrPlus (String "+" rest))
        with (String "+"%char (keepChars isDigitOrPlus rest)).
      assert (Kf : keepChars isDigitOrPlus rest = rest).
      { unfold validatePhoneNumber in Vr. rewrite Pr in Vr.
        destruct rest as [|c r]; [discriminate|].
        rewrite !andb_true_iff in Vr. destruct Vr as [[[Hc _] _] Hr].
        destruct (nonZeroDigit_facts c Hc) as (Hd & _ & _).
        apply keepChars_fixed. simpl. unfold isDigitOrPlus at 1. rewrite Hd. simpl.
        now apply digits_are_kept. }
      rewrite Kf. change (dropLeading "+" (String "+" rest)) with (Some rest).
      rewrite Pr. reflexivity. }
    rewrite E, (N rest Vr Pr). split; [reflexivity|exact Vr].
  - rewrite (N phone V P). split; [reflexivity|exact V].
Qed.

Lemma valid_number_is_normal_witness :
  normalizePhoneNumber "+233244123456" "GH"
  = match dropLeading "+" "+233244123456" with Some rest => rest | None => "+233244123456" end
  /\ validatePhoneNumber (normalizePhoneNumber "+233244123456" "GH") = true.
Proof.
  apply (valid_number_is_normal "+233244123456" "GH"). reflexivity.
Defined.

Lemma lookupCode_In (table : list (string * string)) (countryCode code : string) :
  lookupCode table countryCode = Some code -> In (countryCode, code) table.
Proof.
  induction table as [|[key c] table IH]; simpl; [discriminate|].
  destruct (String.eqb_spec key countryCode) as [->|_].
  - intros [= ->]. now left.
  - intros H. right. now apply IH.
Qed.

(** Every dialling code of the table is one non-zero digit followed by one
    or two digits. *)
Lemma countryCodeMap_codes (countryCode code : string) :
  lookupCode countryCodeMap countryCode = Some code ->
  exists c rest,
    code = String c rest /\ isNonZeroDigit c = true /\ allChars isDigit rest = true
    /\ (1 <= String.length rest <= 2)%nat.
Proof.
  intros H. apply lookupCode_In in H. simpl in H.
  repeat (destruct H as [[= <- <-]|H];
          [eexists _, _; repeat split; simpl; lia|]).
  contradiction.
Qed.

(** X14.  For each of the ten countries of the table, the number
    [normalizePhoneNumber] returns never starts with [0] and consists of
    digits and [+] signs only. *)
Theorem normalized_number_has_no_trunk_zero (phone countryCode code : string) :
  lookupCode countryCodeMap countryCode = Some code ->
  dropLeading "0" (normalizePhoneNumber phone countryCode) = None
  /\ allChars isDigitOrPlus (normalizePhoneNumber phone countryCode) = true.
Proof.
  intros Hcode. destruct (countryCodeMap_codes _ _ Hcode) as (c & crest & -> & Hc & Hr & _).
  destruct (nonZeroDigit_facts c Hc) as (Hd & H0 & _).
  unfold normalizePhoneNumber. rewrite Hcode.
  pose proof (keepChars_allChars isDigitOrPlus phone) as K.
  set (cleaned := keepChars isDigitOrPlus phone) in *.
  assert (K' : allChars isDigitOrPlus
                 match dropLeading "+" cleaned with Some rest => rest | None => cleaned end
               = true).
  { destruct cleaned as [|x cleaned']; [reflexivity|]. simpl.
    destruct (Ascii.eqb x "+"); [|exact K].
    simpl in K. apply andb_true_iff in K. tauto. }
  set (cleaned2 := match dropLeading "+" cleaned with Some rest => rest | None => cleaned end)
    in *.
  destruct (dropLeading "0" cleaned2) as [rest|] eqn:D.
  - change (String.eqb (String c crest) "") with false. cbv iota.
    assert (Kr : allChars isDigitOrPlus rest = true).
    { destruct cleaned2 as [|x r]; [discriminate|]. simpl in D.
      destruct (Ascii.eqb x "0"); [|discriminate]. injection D as ->.
      simpl in K'. apply andb_true_iff in K'. tauto. }
    split.
    + simpl. now rewrite H0.
    + simpl. unfold isDigitOrPlus at 1. rewrite Hd. simpl.
      rewrite allChars_append, Kr, (digits_are_kept _ Hr). reflexivity.
  - split; [exact D|exact K'].
Qed.

Lemma normalized_number_has_no_trunk_zero_witness :
  dropLeading "0" (normalizePhoneNumber "(024) 412-3456" "GH") = None
  /\ allChars isDigitOrPlus (normalizePhoneNumber "(024) 412-3456" "GH") = true.
Proof.
  apply (normalized_number_has_no_trunk_zero "(024) 412-3456" "GH" "233"). reflexivity.
Defined.

(** X15.  A local number, written with a trunk [0], at most twelve further
    digits and any punctuation other than [+], is turned by
    [normalizePhoneNumber] into the dialling code of the country followed by
    those digits, and [validatePhoneNumber] accepts the result; this holds
    for each of the ten countries of the table. *)
Theorem local_number_becomes_valid (phone countryCode code rest : string) :
  lookupCode countryCodeMap countryCode = Some code ->
  keepChars isDigitOrPlus phone = String "0" rest ->
  allChars isDigit rest = true ->
  (String.length rest <= 12)%nat ->
  normalizePhoneNumber phone countryCode = code ++ rest
  /\ validatePhoneNumber (normalizePhoneNumber phone countryCode) = true.
Proof.
  intros Hcode Hk Hr Hl.
  destruct (countryCodeMap_codes _ _ Hcode) as (c & crest & -> & Hc & Hcr & Hlen).
  destruct (nonZeroDigit_facts c Hc) as (Hd & H0 & Hplus).
  assert (E : normalizePhoneNumber phone countryCode = String c crest ++ rest).
  { unfold normalizePhoneNumber. rewrite Hk, Hcode. reflexivity. }
  split; [exact E|]. rewrite E. unfold validatePhoneNumber.
  change (String c crest ++ rest) with (String c (crest ++ rest)). cbn [dropLeading].
  rewrite Hplus, Hc, allChars_append, Hcr, Hr, string_length_append. cbn [andb].
  rewrite andb_true_r. apply andb_true_iff. split; apply Nat.leb_le; lia.
Qed.

Lemma local_number_becomes_valid_witness :
  normalizePhoneNumber "024 412-3456" "GH" = "233" ++ "244123456"
  /\ validatePhoneNumber (normalizePhoneNumber "024 412-3456" "GH") = true.
Proof.
  apply (local_number_becomes_valid "024 412-3456" "GH" "233" "244123456").
  - reflexivity.
  - reflexivity.
  - reflexivity.
  - simpl. lia.
Defined.

(** ** Connection test and health check *)

(** X16.  [testConnection] never throws and answers [true] exactly when the
    balance check returns a balance that is not negative; it does not look
    at the [error] of the balance.  So for a balance check that returns an
    error together with a balance of zero or more, as the one of Kairos does
    on failure, [testConnection] answers [true] while [healthCheck] reports
    the provider unhealthy. *)
Theorem testConnection_ignores_error {World : Type} (ref : nat) (h : Heap World) :
  (exists verdict, fst (testConnection ref h) = Normal verdict)
  /\ (fst (testConnection ref h) = Normal true <->
      exists b, fst (call_checkBalance ref h) = Normal b /\ (0 <= balance b)%Q)
  /\ (forall b,
         fst (call_checkBalance ref h) = Normal b ->
         truthy_string (balance_error b) = true ->
         (0 <= balance b)%Q ->
         fst (testConnection ref h) = Normal true
         /\ exists report, fst (healthCheck ref h) = Normal report /\ healthy report = false).
Proof.
  assert (T : fst (testConnection ref h)
              = Normal match fst (call_checkBalance ref h) with
                       | Normal b => Qle_bool 0 (balance b)
                       | Throw _ => false
                       end).
  { unfold testConnection, try_catch, bind, ret.
    now destruct (call_checkBalance ref h) as [[b|e] h1]. }
  split; [|split].
  - rewrite T. eauto.
  - rewrite T. destruct (fst (call_checkBalance ref h)) as [b|e].
    + split.
      * intros [= E]. exists b. split; [reflexivity|now apply Qle_bool_iff].
      * intros (b' & [= <-] & Hb). apply Qle_bool_iff in Hb. now rewrite Hb.
    + split; [discriminate|]. intros (b & [=] & _).
  - intros b Eb Herr Hb. split.
    + rewrite T, Eb. apply Qle_bool_iff in Hb. now rewrite Hb.
    + rewrite healthCheck_call, Eb. simpl. rewrite Herr. eexists. split; reflexivity.
Qed.

Lemma testConnection_ignores_error_witness :
  fst (testConnection 0 (Samples.heapOf
         [("kairos", Samples.scripted (mkConfig "Kairos" ["GH"] None (Some 1)) initialStats
                       (Normal (Samples.accepted "kairos")) (Normal Samples.statusSent)
                       (Normal (mkBalance 0 "GHS" (Some "Failed to get balance"))))]))
  = Normal true
  /\ exists report,
       fst (healthCheck 0 (Samples.heapOf
         [("kairos", Samples.scripted (mkConfig "Kairos" ["GH"] None (Some 1)) initialStats
                       (Normal (Samples.accepted "kairos")) (Normal Samples.statusSent)
                       (Normal (mkBalance 0 "GHS" (Some "Failed to get balance"))))]))
       = Normal report
       /\ healthy report = false.
Proof.
  apply (proj2 (proj2 (testConnection_ignores_error 0 (Samples.heapOf
         [("kairos", Samples.scripted (mkConfig "Kairos" ["GH"] None (Some 1)) initialStats
                       (Normal (Samples.accepted "kairos")) (Normal Samples.statusSent)
                       (Normal (mkBalance 0 "GHS" (Some "Failed to get balance"))))])))
         (mkBalance 0 "GHS" (Some "Failed to get balance"))).
  - reflexivity.
  - reflexivity.
  - discriminate.
Defined.

(** ** Providers that accept everything *)

Section Accepting.
Import SMSProviderFactory.
Context {World : Type}.
Implicit Types (h : Heap World) (options : SendSMSOptions).

Lemma call_sendSMS_keeps_method ref' options h ref (p : BaseSMSProvider World) :
  deref h ref = Some p ->
  exists p', deref (snd (call_sendSMS ref' options h)) ref = Some p'
             /\ sendSMS p' = sendSMS p /\ config p' = config p.
Proof.
  unfold deref, call_sendSMS. intros Hp.
  destruct (providers h !! ref') as [[key q]|] eqn:E; [|exists p; simpl; now rewrite Hp].
  repeat case_match. simpl.
  destruct (decide (ref' = ref)) as [->|Hne].
  - rewrite list_lookup_insert_eq by (eapply lookup_lt_Some; eauto). simpl.
    rewrite E in Hp. injection Hp as ->. eexists. repeat split.
  - rewrite list_lookup_insert_ne by exact Hne. exists p. now rewrite Hp.
Qed.

Lemma call_sendSMS_result ref options h key (p : BaseSMSProvider World) :
  providers h !! ref = Some (key, p) ->
  fst (call_sendSMS ref options h) = fst (fst (sendSMS p options (stats p) (world h))).
Proof. unfold call_sendSMS. intros ->. now repeat case_match. Qed.

Lemma tryEach_reaches_accepting options (refs : list nat) :
  forall (lastError : SMSProviderRouter.LastError) h ref (p : BaseSMSProvider World),
    ref ∈ refs ->
    deref h ref = Some p ->
    accepting (sendSMS p) ->
    exists response h',
      SMSProviderRouter.tryEach refs options lastError h = (Normal response, h') /\ success response = true.
Proof.
  induction refs as [|x rest IH]; intros lastError h ref p Hin Hp Hacc.
  - apply list_elem_of_In in Hin. contradiction.
  - simpl. unfold bind at 1. rewrite attempt_call.
    destruct (fst (call_sendSMS x options h)) as [r|e] eqn:E; simpl.
    + destruct (success r) eqn:Sr; [unfold ret; eauto|].
      assert (Hne : x <> ref).
      { intros ->. unfold deref in Hp.
        destruct (providers h !! ref) as [[key q]|] eqn:L; [|discriminate].
        simpl in Hp. injection Hp as ->.
        rewrite (call_sendSMS_result _ _ _ _ _ L) in E.
        destruct (Hacc options (stats p) (world h)) as (r' & E' & S').
        rewrite E in E'. injection E' as <-. congruence. }
      destruct (call_sendSMS_keeps_method x options h ref p Hp) as (p' & Hp' & Hm & _).
      apply (IH _ _ ref p').
      * apply list_elem_of_In in Hin. destruct Hin as [->|Hin]; [contradiction|].
        now apply list_elem_of_In.
      * exact Hp'.
      * now rewrite Hm.
    + assert (Hne : x <> ref).
      { intros ->. unfold deref in Hp.
        destruct (providers h !! ref) as [[key q]|] eqn:L; [|discriminate].
        simpl in Hp. injection Hp as ->.
        rewrite (call_sendSMS_result _ _ _ _ _ L) in E.
        destruct (Hacc options (stats p) (world h)) as (r' & E' & S').
        rewrite E in E'. discriminate. }
      destruct (call_sendSMS_keeps_method x options h ref p Hp) as (p' & Hp' & Hm & _).
      apply (IH _ _ ref p').
      * apply list_elem_of_In in Hin. destruct Hin as [->|Hin]; [contradiction|].
        now apply list_elem_of_In.
      * exact Hp'.
      * now rewrite Hm.
Qed.

End Accepting.

(** One candidate that accepts everything is enough for a send to succeed. *)
Lemma sendSMS_accepting_candidate {World : Type} (h : Heap World)
    (options : SendSMSOptions) (country : string) (network : option string)
    (ref : nat) (p : BaseSMSProvider World) :
  ref ∈ SMSProviderRouter.candidatesFor h country network ->
  deref h ref = Some p ->
  accepting (sendSMS p) ->
  exists response h',
    SMSProviderRouter.sendSMS options country network h = (Normal response, h')
    /\ success response = true.
Proof.
  intros Hin Hp Hacc.
  rewrite sendSMS_nonempty.
  - eapply tryEach_reaches_accepting; eauto.
  - intros E. rewrite E in Hin. apply list_elem_of_In in Hin. contradiction.
Qed.

(** X17.  When one of the candidates for a destination is a provider whose
    [sendSMS] accepts every request, [Router.sendSMS] returns a response with
    [success = true], whatever the other candidates do. *)
Theorem sendSMS_succeeds_with_accepting_candidate {World : Type} (h : Heap World)
    (options : SendSMSOptions) (country : string) (network : option string)
    (ref : nat) (p : BaseSMSProvider World) :
  ref ∈ SMSProviderRouter.candidatesFor h country network ->
  deref h ref = Some p ->
  accepting (sendSMS p) ->
  exists response h',
    SMSProviderRouter.sendSMS options country network h = (Normal response, h')
    /\ success response = true.
Proof. exact (sendSMS_accepting_candidate h options country network ref p). Qed.

(** A provider that rejects with [undefined] and one that is out of credit
    are tried first; the third accepts. *)
Lemma sendSMS_succeeds_with_accepting_candidate_witness :
  SMSProviderRouter.candidatesFor Samples.registryFailover "GH" None = [0; 1; 2]%nat
  /\ fst (call_sendSMS 0 Samples.options Samples.registryFailover) = Throw nullish
  /\ exists response h',
       SMSProviderRouter.sendSMS Samples.options "GH" None Samples.registryFailover
       = (Normal response, h')
       /\ success response = true.
Proof.
  split; [reflexivity|]. split; [reflexivity|].
  eapply (sendSMS_succeeds_with_accepting_candidate Samples.registryFailover Samples.options
            "GH" None 2%nat).
  - change (SMSProviderRouter.candidatesFor Samples.registryFailover "GH" None)
      with [0; 1; 2]%nat.
    apply list_elem_of_In. simpl. auto.
  - reflexivity.
  - intros options s w. eexists. split; reflexivity.
Defined.

(** ** The placeholder providers *)

Section PlaceholderFacts.
Context {World : Type} (Date_now : World -> Z * World).
Implicit Types (h : Heap World).

Lemma placeholder_accepting (idPrefix : string) (cfg : SMSProviderConfig) :
  accepting (placeholder_sendSMS Date_now idPrefix cfg).
Proof.
  intros options s w. unfold placeholder_sendSMS.
  destruct (Date_now w) as [t0 w1]. destruct (Date_now w1) as [t1 w2].
  destruct (Date_now w2) as [t2 w3].
  destruct (truthy_string (messageId options)); [eexists; split; reflexivity|].
  destruct (Date_now w3) as [t3 w4]. eexists. split; reflexivity.
Qed.

Lemma placeholder_records (idPrefix : string) (cfg : SMSProviderConfig)
    (options : SendSMSOptions) (s : ProviderStats) (w : World) :
  exists latency used,
    snd (fst (placeholder_sendSMS Date_now idPrefix cfg options s w))
    = updateStats s true (Some latency) used.
Proof.
  unfold placeholder_sendSMS.
  destruct (Date_now w) as [t0 w1]. destruct (Date_now w1) as [t1 w2].
  destruct (Date_now w2) as [t2 w3].
  destruct (truthy_string (messageId options)); [eexists _, _; reflexivity|].
  destruct (Date_now w3) as [t3 w4]. eexists _, _. reflexivity.
Qed.

Lemma call_placeholder (idPrefix : string) (cfg : SMSProviderConfig) ref
    (options : SendSMSOptions) h key (p : BaseSMSProvider World) :
  providers h !! ref = Some (key, p) ->
  sendSMS p = placeholder_sendSMS Date_now idPrefix cfg ->
  exists latency used,
    providers (snd (call_sendSMS ref options h)) !! ref
    = Some (key, with_stats p (updateStats (stats p) true (Some latency) used)).
Proof.
  intros Hp Hm. unfold call_sendSMS. rewrite Hp, Hm.
  destruct (placeholder_records idPrefix cfg options (stats p) (world h))
    as (latency & used & E).
  exists latency, used.
  destruct (placeholder_sendSMS Date_now idPrefix cfg options (stats p) (world h))
    as [[result s'] w'].
  simpl in E. subst s'. simpl.
  apply list_lookup_insert_eq. eapply lookup_lt_Some; eauto.
Qed.

Lemma sendAll_placeholder (idPrefix : string) (cfg : SMSProviderConfig) ref key
    (requests : list SendSMSOptions) :
  forall h (p : BaseSMSProvider World),
    providers h !! ref = Some (key, p) ->
    sendSMS p = placeholder_sendSMS Date_now idPrefix cfg ->
    exists p',
      providers (sendAll ref requests h) !! ref = Some (key, p')
      /\ totalSent (stats p') = totalSent (stats p) + Z.of_nat (length requests)
      /\ totalDelivered (stats p') = totalDelivered (stats p) + Z.of_nat (length requests)
      /\ totalFailed (stats p') = totalFailed (stats p)
      /\ (requests <> [] ->
          successRate (stats p')
          = js_mul (js_div (inject_Z (totalDelivered (stats p')))
                           (inject_Z (totalSent (stats p')))) 100).
Proof.
  induction requests as [|options rest IH]; intros h p Hp Hm.
  - exists p. simpl. repeat split; try lia; [exact Hp|contradiction].
  - destruct (call_placeholder idPrefix cfg ref options h key p Hp Hm)
      as (latency & used & H1).
    set (p1 := with_stats p (updateStats (stats p) true (Some latency) used)) in *.
    destruct (IH (snd (call_sendSMS ref options h)) p1 H1 Hm)
      as (p' & Hp' & Hs & Hd & Hf & Hr).
    exists p'. change (sendAll ref (options :: rest) h)
      with (sendAll ref rest (snd (call_sendSMS ref options h))).
    split; [exact Hp'|]. simpl length. simpl in Hs, Hd, Hf.
    split; [lia|]. split; [lia|]. split; [exact Hf|]. intros _.
    destruct rest as [|o rest]; [|apply Hr; discriminate].
    simpl in Hp'. rewrite H1 in Hp'. injection Hp' as <-. reflexivity.
Qed.

End PlaceholderFacts.

(** X18.  A placeholder provider (Africa's Talking or Twilio) counts every
    request as delivered: after any non-empty series of [sendSMS] calls on a
    freshly constructed one, [totalSent] and [totalDelivered] are the number
    of calls, [totalFailed] is 0 and [successRate] is 100. *)
Theorem placeholder_counts_every_send {World : Type} (Date_now : World -> Z * World)
    (idPrefix : string) (cfg : SMSProviderConfig) (ref : nat) (key : string)
    (p : BaseSMSProvider World) (requests : list SendSMSOptions) (h : Heap World) :
  providers h !! ref = Some (key, p) ->
  sendSMS p = placeholder_sendSMS Date_now idPrefix cfg ->
  stats p = initialStats ->
  requests <> [] ->
  exists p',
    providers (sendAll ref requests h) !! ref = Some (key, p')
    /\ totalSent (stats p') = Z.of_nat (length requests)
    /\ totalDelivered (stats p') = Z.of_nat (length requests)
    /\ totalFailed (stats p') = 0
    /\ (successRate (stats p') == 100)%Q.
Proof.
  intros Hp Hm Hs Hne.
  destruct (sendAll_placeholder Date_now idPrefix cfg ref key requests h p Hp Hm)
    as (p' & Hp' & H1 & H2 & H3 & H4).
  rewrite Hs in H1, H2, H3. simpl in H1, H2, H3.
  rewrite Z.add_0_l in H1, H2.
  exists p'. repeat split; try assumption.
  rewrite (H4 Hne), H1, H2.
  assert (Hn : ~ (inject_Z (Z.of_nat (length requests)) == 0)%Q).
  { intros H0. assert (P : (0 < inject_Z (Z.of_nat (length requests)))%Q).
    { apply inject_Z_pos. destruct requests; [contradiction|simpl; lia]. }
    lra. }
  assert (E1 : (inject_Z (Z.of_nat (length requests)) / inject_Z (Z.of_nat (length requests))
                == 1)%Q) by (field; exact Hn).
  assert (E2 : (round64 1 * 100 == 100)%Q) by (rewrite round64_1; reflexivity).
  unfold js_mul, js_div.
  rewrite (round64_ext _ _ E1), (round64_ext _ _ E2). apply round64_100.
Qed.

Lemma placeholder_counts_every_send_witness :
  exists p',
    (providers (sendAll 0 [Samples.options; Samples.options]
                  (mkHeap [("twilio", TwilioProvider (fun w : Z => (w, w + 5)) twilioConfig)]
                          1000 [])))
    !! 0%nat = Some ("twilio", p')
    /\ totalSent (stats p') = Z.of_nat (length [Samples.options; Samples.options])
    /\ totalDelivered (stats p') = Z.of_nat (length [Samples.options; Samples.options])
    /\ totalFailed (stats p') = 0
    /\ (successRate (stats p') == 100)%Q.
Proof.
  apply (placeholder_counts_every_send (fun w : Z => (w, w + 5)) "tw_" twilioConfig 0 "twilio"
           (TwilioProvider (fun w : Z => (w, w + 5)) twilioConfig)).
  - reflexivity.
  - reflexivity.
  - reflexivity.
  - discriminate.
Defined.

(** ** Initialisation *)

Section InitializeFacts.
Context {World : Type} (Date_now : World -> Z * World).
Context (newKairosProvider newMTNProvider :
           SMSProviderConfig -> World -> completion (BaseSMSProvider World) * World).
Implicit Types (h : Heap World).

Lemma Map_set_keys (key : string) (p : BaseSMSProvider World)
    (entries : list (string * BaseSMSProvider World)) :
  map fst (Map_set key p entries) = map fst entries
  \/ ((key ∉ map fst entries)
      /\ map fst (Map_set key p entries) = (map fst entries ++ [key])%list).
Proof.
  unfold Map_set. destruct (list_find _ entries) as [[i [k q]]|] eqn:F.
  - left. apply list_find_Some in F. destruct F as (L & E & _). simpl in E. subst k.
    eapply insert_same_key; eauto.
  - right. split.
    + intros Hin. apply list_elem_of_In, in_map_iff in Hin.
      destruct Hin as (e & He & Hin). apply list_elem_of_In in Hin.
      eapply list_find_None in F. rewrite Forall_forall in F. now apply (F e Hin).
    + now rewrite map_app.
Qed.

Lemma Map_set_lookup (key : string) (p : BaseSMSProvider World)
    (entries : list (string * BaseSMSProvider World)) :
  exists i, Map_set key p entries !! i = Some (key, p).
Proof.
  unfold Map_set. destruct (list_find _ entries) as [[i e]|] eqn:F.
  - exists i. apply list_find_Some in F. destruct F as (L & _).
    apply list_lookup_insert_eq. eapply lookup_lt_Some; eauto.
  - exists (length entries). rewrite lookup_app_r by lia.
    now rewrite Nat.sub_diag.
Qed.

Lemma createProvider_heap (type : string) (cfg : SMSProviderConfig) h :
  providers (snd (createProvider Date_now newKairosProvider newMTNProvider type cfg h))
  = providers h
  /\ calls (snd (createProvider Date_now newKairosProvider newMTNProvider type cfg h))
     = calls h.
Proof.
  unfold createProvider, construct, ret.
  repeat (destruct (String.eqb _ _)); simpl; try (split; reflexivity).
  - now destruct (newKairosProvider cfg (world h)).
  - now destruct (newMTNProvider cfg (world h)).
Qed.

(** One block either leaves the keys alone or adds its key at the end. *)
Lemma registerIf_keys (credentials : bool) (key : string) (cfg : SMSProviderConfig) h :
  exists h' added,
    registerIf Date_now newKairosProvider newMTNProvider credentials key cfg h
    = (Normal tt, h')
    /\ calls h' = calls h
    /\ map fst (providers h') = (map fst (providers h) ++ added)%list
    /\ added `sublist_of` [key]
    /\ (NoDup (map fst (providers h)) -> NoDup (map fst (providers h'))).
Proof.
  unfold registerIf. destruct credentials.
  2:{ exists h, []. unfold ret. rewrite app_nil_r.
      repeat split; [apply sublist_nil_l|tauto]. }
  unfold try_catch, bind.
  pose proof (createProvider_heap key cfg h) as [Hp Hc].
  destruct (createProvider Date_now newKairosProvider newMTNProvider key cfg h)
    as [[p|e] h1]; simpl in Hp, Hc.
  - unfold providers_set. simpl.
    eexists _, _. split; [reflexivity|]. simpl. rewrite Hp, Hc.
    split; [reflexivity|].
    destruct (Map_set_keys key p (providers h)) as [E|[Hn E]].
    + instantiate (1 := if decide (key ∈ map fst (providers h)) then [] else [key]).
      destruct (decide (key ∈ map fst (providers h))).
      * rewrite E, app_nil_r. repeat split; [apply sublist_nil_l|tauto].
      * exfalso. unfold Map_set in E.
        destruct (list_find _ (providers h)) as [[i [k q]]|] eqn:F.
        -- apply list_find_Some in F. destruct F as (L & Ek & _). simpl in Ek. subst k.
           apply n. apply list_elem_of_In, in_map_iff. exists (key, q).
           split; [reflexivity|]. apply list_elem_of_In. eapply list_elem_of_lookup_2; eauto.
        -- rewrite map_app in E. simpl in E.
           apply (f_equal (@length string)) in E. rewrite length_app in E. simpl in E. lia.
    + destruct (decide (key ∈ map fst (providers h))); [contradiction|].
      rewrite E. repeat split; [reflexivity|].
      intros ND. apply NoDup_app. repeat split; [exact ND| |apply NoDup_singleton].
      intros x Hx Hx'. apply list_elem_of_singleton in Hx'. now subst x.
  - exists h1, []. unfold ret. rewrite app_nil_r, Hp, Hc.
    repeat split; [apply sublist_nil_l|tauto].
Qed.

Lemma registerIf_twilio h :
  exists ref,
    deref (snd (registerIf Date_now newKairosProvider newMTNProvider true "twilio"
                           twilioConfig h)) ref
    = Some (TwilioProvider Date_now twilioConfig).
Proof.
  unfold registerIf, try_catch, bind, providers_set. simpl.
  destruct (Map_set_lookup "twilio" (TwilioProvider Date_now twilioConfig) (providers h))
    as (i & Hi).
  exists i. unfold deref. simpl. now rewrite Hi.
Qed.

End InitializeFacts.

(** X19.  [initializeProviders] never throws, makes no provider call, and
    only ever adds keys at the end of the registry: the keys it adds are
    among ["kairos"], ["africastalking"], ["mtn"], ["twilio"], in this
    order, and keys that were distinct before are distinct after.  This
    holds whatever the constructors of the providers do. *)
Theorem initializeProviders_keys {World : Type} (Date_now : World -> Z * World)
    (newKairosProvider newMTNProvider :
       SMSProviderConfig -> World -> completion (BaseSMSProvider World) * World)
    (env : Env) (h : Heap World) :
  exists h' added,
    initializeProviders Date_now newKairosProvider newMTNProvider env h = (Normal tt, h')
    /\ calls h' = calls h
    /\ map fst (providers h') = (map fst (providers h) ++ added)%list
    /\ added `sublist_of` ["kairos"; "africastalking"; "mtn"; "twilio"]
    /\ (NoDup (map fst (providers h)) -> NoDup (map fst (providers h'))).
Proof.
  unfold initializeProviders.
  destruct (registerIf_keys Date_now newKairosProvider newMTNProvider
              (truthy_string (KAIROS_API_KEY env) && truthy_string (KAIROS_API_SECRET env))
              "kairos" kairosConfig h) as (h1 & a1 & R1 & C1 & K1 & S1 & N1).
  destruct (registerIf_keys Date_now newKairosProvider newMTNProvider
              (truthy_string (AFRICASTALKING_API_KEY env)
               && truthy_string (AFRICASTALKING_USERNAME env))
              "africastalking" africasTalkingConfig h1) as (h2 & a2 & R2 & C2 & K2 & S2 & N2).
  destruct (registerIf_keys Date_now newKairosProvider newMTNProvider
              (truthy_string (MTN_API_KEY env) && truthy_string (MTN_API_SECRET env))
              "mtn" mtnConfig h2) as (h3 & a3 & R3 & C3 & K3 & S3 & N3).
  destruct (registerIf_keys Date_now newKairosProvider newMTNProvider
              (truthy_string (TWILIO_ACCOUNT_SID env) && truthy_string (TWILIO_AUTH_TOKEN env))
              "twilio" twilioConfig h3) as (h4 & a4 & R4 & C4 & K4 & S4 & N4).
  exists h4, (a1 ++ a2 ++ a3 ++ a4)%list.
  split; [|split; [|split; [|split]]].
  - unfold bind at 1. rewrite R1. unfold bind at 1. rewrite R2.
    unfold bind at 1. rewrite R3. exact R4.
  - congruence.
  - rewrite K4, K3, K2, K1, <- !app_assoc. reflexivity.
  - change ["kairos"; "africastalking"; "mtn"; "twilio"]
      with (["kairos"] ++ ["africastalking"] ++ ["mtn"] ++ ["twilio"])%list.
    repeat apply sublist_app; assumption.
  - tauto.
Qed.

Lemma initializeProviders_keys_witness :
  exists h' added,
    initializeProviders (fun w : Z => (w, w + 5))
      (fun _ w => (Throw (mkThrown (Some "SDK failed") None), w))
      (fun cfg w => (Normal (AfricasTalkingProvider (fun w : Z => (w, w + 5)) cfg), w))
      (mkEnv (Some "k") (Some "s") (Some "a") None (Some "m") (Some "s") (Some "sid") (Some "t"))
      (mkHeap [] 0 [])
    = (Normal tt, h')
    /\ calls h' = []
    /\ map fst (providers h') = ([] ++ added)%list
    /\ added `sublist_of` ["kairos"; "africastalking"; "mtn"; "twilio"]
    /\ (NoDup (@nil string) -> NoDup (map fst (providers h'))).
Proof.
  exact (initializeProviders_keys (fun w : Z => (w, w + 5))
      (fun _ w => (Throw (mkThrown (Some "SDK failed") None), w))
      (fun cfg w => (Normal (AfricasTalkingProvider (fun w : Z => (w, w + 5)) cfg), w))
      (mkEnv (Some "k") (Some "s") (Some "a") None (Some "m") (Some "s") (Some "sid") (Some "t"))
      (mkHeap [] 0 [])).
Defined.

(** X20.  Once [initializeProviders] has run with the two Twilio credentials
    set, every [Router.sendSMS] from then on, for any country and any
    network, after any number of sends, status checks, health checks and
    calls made on a provider directly, returns a response with [success =
    true]: the Twilio placeholder stays registered, is a candidate for
    every destination and accepts everything.  This holds whatever else is
    registered. *)
Theorem sendSMS_always_succeeds_with_twilio {World : Type} (Date_now : World -> Z * World)
    (newKairosProvider newMTNProvider :
       SMSProviderConfig -> World -> completion (BaseSMSProvider World) * World)
    (env : Env) (h h1 : Heap World) (options : SendSMSOptions) (country : string)
    (network : option string) :
  truthy_string (TWILIO_ACCOUNT_SID env) = true ->
  truthy_string (TWILIO_AUTH_TOKEN env) = true ->
  reachable (snd (initializeProviders Date_now newKairosProvider newMTNProvider env h)) h1 ->
  exists response h',
    SMSProviderRouter.sendSMS options country network h1 = (Normal response, h')
    /\ success response = true.
Proof.
  intros Hsid Htoken Hreach.
  destruct (registerIf_keys Date_now newKairosProvider newMTNProvider
              (truthy_string (KAIROS_API_KEY env) && truthy_string (KAIROS_API_SECRET env))
              "kairos" kairosConfig h) as (h2 & a1 & R1 & _).
  destruct (registerIf_keys Date_now newKairosProvider newMTNProvider
              (truthy_string (AFRICASTALKING_API_KEY env)
               && truthy_string (AFRICASTALKING_USERNAME env))
              "africastalking" africasTalkingConfig h2) as (h3 & a2 & R2 & _).
  destruct (registerIf_keys Date_now newKairosProvider newMTNProvider
              (truthy_string (MTN_API_KEY env) && truthy_string (MTN_API_SECRET env))
              "mtn" mtnConfig h3) as (h4 & a3 & R3 & _).
  assert (E : snd (initializeProviders Date_now newKairosProvider newMTNProvider env h)
              = snd (registerIf Date_now newKairosProvider newMTNProvider true "twilio"
                                twilioConfig h4)).
  { unfold initializeProviders. unfold bind at 1. rewrite R1. unfold bind at 1. rewrite R2.
    unfold bind at 1. rewrite R3. now rewrite Hsid, Htoken. }
  rewrite E in Hreach.
  destruct (registerIf_twilio Date_now newKairosProvider newMTNProvider h4) as (ref & Href).
  destruct (reachable_keeps _ h1 ref _ Hreach Href) as (p & Hp & Hm & Hc).
  change (config (TwilioProvider Date_now twilioConfig)) with twilioConfig in Hc.
  change (sendSMS (TwilioProvider Date_now twilioConfig))
    with (placeholder_sendSMS Date_now "tw_" twilioConfig) in Hm.
  apply (sendSMS_accepting_candidate h1 options country network ref p).
  - unfold SMSProviderRouter.candidatesFor. destruct (truthy_string network).
    + apply elem_of_getProvidersForNetwork. exists p. split; [exact Hp|]. rewrite Hc.
      split; [right; apply list_elem_of_In; simpl; now left|exact I].
    + apply elem_of_getProvidersForCountry. exists p. split; [exact Hp|]. rewrite Hc.
      right. apply list_elem_of_In. simpl. now left.
  - exact Hp.
  - rewrite Hm. apply placeholder_accepting.
Qed.

(** With a Kairos provider registered whose SDK is down, after a send, a
    health check and a status query made on the Twilio provider, a send to
    a Ghanaian MTN number still succeeds. *)
Lemma sendSMS_always_succeeds_with_twilio_witness :
  map fst (providers KairosSamples.started) = ["kairos"; "twilio"]
  /\ SMSProviderRouter.candidatesFor KairosSamples.started "GH" (Some "mtn") = [0; 1]%nat
  /\ exists response h',
       SMSProviderRouter.sendSMS Samples.options "GH" (Some "mtn")
         (snd (call_getDeliveryStatus 1 "tw_130"
                 (snd (SMSProviderFactory.healthCheckAll
                         (snd (SMSProviderRouter.sendSMS Samples.options "GH" (Some "mtn")
                                 KairosSamples.started))))))
       = (Normal response, h')
       /\ success response = true.
Proof.
  split; [reflexivity|]. split; [reflexivity|].
  apply (sendSMS_always_succeeds_with_twilio KairosSamples.clock KairosSamples.newKairosDown
           KairosSamples.newFailing KairosSamples.env (mkHeap [] 0 [])).
  - reflexivity.
  - reflexivity.
  - apply reachable_provider_getDeliveryStatus, reachable_healthCheckAll,
      reachable_sendSMS, reachable_now.
Defined.

(** ** The Kairos provider *)

Lemma string_nonempty_length (s : string) : s <> "" -> (String.length s =? 0)%nat = false.
Proof. destruct s; [contradiction|reflexivity]. Qed.

(** X21.  [validateParameters] accepts exactly a recipient of the form 233,
    one of 2 3 4 5, eight digits, with a message that is not empty and a
    sender id of 3 to 11 letters, digits and whitespace characters; and it
    never answers ["Message cannot be empty"], an empty message being
    reported as a missing parameter. *)
Theorem validateParameters_accepts (recipient message senderId : string) :
  (validateParameters recipient message senderId = None <->
   isGhanaNumber recipient = true /\ message <> ""
   /\ (3 <= String.length senderId <= 11)%nat /\ allChars isSenderIdChar senderId = true)
  /\ validateParameters recipient message senderId <> Some "Message cannot be empty".
Proof.
  unfold validateParameters.
  destruct (String.eqb_spec recipient "") as [->|Hr].
  { simpl. split; [|discriminate]. split; [discriminate|]. intros (H & _). discriminate. }
  destruct (String.eqb_spec message "") as [->|Hm]; simpl.
  { split; [|discriminate]. split; [discriminate|]. intros (_ & H & _). contradiction. }
  destruct (String.eqb_spec senderId "") as [->|Hs]; simpl.
  { split; [|discriminate]. split; [discriminate|]. intros (_ & _ & H & _). simpl in H. lia. }
  destruct (isGhanaNumber recipient); simpl.
  2:{ split; [|discriminate]. split; [discriminate|]. intros (H & _). discriminate. }
  rewrite (string_nonempty_length _ Hm).
  destruct (String.length senderId <? 3)%nat eqn:L3; simpl.
  { apply Nat.ltb_lt in L3. split; [|discriminate]. split; [discriminate|].
    intros (_ & _ & H & _). lia. }
  destruct (11 <? String.length senderId)%nat eqn:L11; simpl.
  { apply Nat.ltb_lt in L11. split; [|discriminate]. split; [discriminate|].
    intros (_ & _ & H & _). lia. }
  apply Nat.ltb_ge in L3, L11.
  destruct (allChars isSenderIdChar senderId); simpl.
  - split; [|discriminate]. split; [|reflexivity]. intros _. repeat split; try assumption.
  - split; [|discriminate]. split; [discriminate|]. intros (_ & _ & _ & H). discriminate.
Qed.

Lemma ghana_number_parts (recipient : string) :
  isGhanaNumber recipient = true ->
  exists c rest,
    recipient = String "2" (String "3" (String "3" (String c rest)))
    /\ isDigit c = true /\ String.length rest = 8%nat /\ allChars isDigit rest = true.
Proof.
  unfold isGhanaNumber.
  destruct recipient as [|c1 [|c2 [|c3 [|c4 rest]]]]; try discriminate.
  rewrite !andb_true_iff, !orb_true_iff, !Ascii.eqb_eq, Nat.eqb_eq.
  intros [[[[[-> ->] ->] Hc] Hl] Hd]. exists c4, rest. repeat split; try assumption.
  destruct Hc as [[[-> | ->] | ->] | ->]; reflexivity.
Qed.

(** X22.  A recipient the Kairos provider accepts has twelve characters and
    passes [validatePhoneNumber]; and a Ghanaian local number, a trunk [0],
    one of 2 3 4 5 and eight digits with any punctuation other than [+],
    is turned by [normalizePhoneNumber] for ["GH"] into a recipient the
    Kairos provider accepts. *)
Theorem ghana_numbers_fit (recipient : string) :
  (isGhanaNumber recipient = true ->
   String.length recipient = 12%nat /\ validatePhoneNumber recipient = true)
  /\ (forall phone c digits,
         recipient = normalizePhoneNumber phone "GH" ->
         keepChars isDigitOrPlus phone = String "0" (String c digits) ->
         c = "2"%char \/ c = "3"%char \/ c = "4"%char \/ c = "5"%char ->
         allChars isDigit digits = true ->
         String.length digits = 8%nat ->
         isGhanaNumber recipient = true).
Proof.
  split.
  - intros G. destruct (ghana_number_parts _ G) as (c & rest & -> & Hc & Hl & Hd).
    split; [simpl; now rewrite Hl|].
    unfold validatePhoneNumber. cbn [dropLeading].
    change (Ascii.eqb "2" "+") with false. cbv iota.
    change (isNonZeroDigit "2") with true. cbn [String.length allChars].
    change (isDigit "3") with true. rewrite Hc, Hd, Hl. reflexivity.
  - intros phone c digits -> Hk Hc Hd Hl.
    assert (E : normalizePhoneNumber phone "GH"
                = String "2" (String "3" (String "3" (String c digits)))).
    { unfold normalizePhoneNumber. rewrite Hk. reflexivity. }
    rewrite E. unfold isGhanaNumber. rewrite Hd, Hl.
    destruct Hc as [-> | [-> | [-> | ->]]]; reflexivity.
Qed.

Lemma ghana_numbers_fit_witness :
  (String.length "233244123456" = 12%nat /\ validatePhoneNumber "233244123456" = true)
  /\ isGhanaNumber (normalizePhoneNumber "024 412 3456" "GH") = true.
Proof.
  split.
  - apply (proj1 (ghana_numbers_fit "233244123456")). reflexivity.
  - apply (proj2 (ghana_numbers_fit (normalizePhoneNumber "024 412 3456" "GH"))
             "024 412 3456" "2"%char "44123456").
    + reflexivity.
    + reflexivity.
    + now left.
    + reflexivity.
    + reflexivity.
Defined.

Section KairosFacts.
Context {World : Type} (Date_now : World -> Z * World).
Context (sdk_send : KairosPayload -> World -> KairosOutcome * World).
Context (sdk_balance : World -> (KairosBalance + thrown) * World).

Lemma parseKairosResponse_success (cfg : SMSProviderConfig) (response : KairosResponse)
    (id : option string) :
  success (parseKairosResponse cfg response id) = true <->
  kairos_success response = true /\ kairos_statusCode response = Some 200.
Proof.
  unfold parseKairosResponse.
  destruct (kairos_success response); simpl.
  - destruct (kairos_statusCode response) as [code|]; simpl.
    + destruct (Z.eqb_spec code 200) as [->|Hne]; simpl.
      * tauto.
      * split; [discriminate|]. intros [_ [= E]]. contradiction.
    + split; [discriminate|]. intros [_ E]. discriminate.
  - split; [discriminate|]. intros [E _]. discriminate.
Qed.

Lemma handleKairosError_fails (cfg : SMSProviderConfig) (error : KairosError) :
  success (handleKairosError cfg error) = false.
Proof.
  unfold handleKairosError. destruct (kairos_error_statusCode error) as [code|];
    [destruct (code =? 0)|]; reflexivity.
Qed.

Lemma parseKairosResponse_providerId (cfg : SMSProviderConfig) (response : KairosResponse)
    (id : option string) :
  providerId (parseKairosResponse cfg response id) = providerIdOf (name cfg).
Proof. unfold parseKairosResponse. now destruct (_ && _). Qed.

Lemma handleKairosError_providerId (cfg : SMSProviderConfig) (error : KairosError) :
  providerId (handleKairosError cfg error) = providerIdOf (name cfg).
Proof.
  unfold handleKairosError. destruct (kairos_error_statusCode error) as [code|];
    [destruct (code =? 0)|]; reflexivity.
Qed.

(** X23.  Every call of the Kairos [sendSMS] returns a response, without
    throwing, whatever the SDK does; the response carries the id of the
    provider, exactly one attempt is recorded in the statistics, and a
    response with [success = true] is always recorded as delivered. *)
Theorem kairos_sendSMS_records_once (cfg : SMSProviderConfig) (options : SendSMSOptions)
    (s : ProviderStats) (w : World) :
  exists response s' w',
    kairos_sendSMS Date_now sdk_send cfg options s w = (Normal response, s', w')
    /\ providerId response = providerIdOf (name cfg)
    /\ totalSent s' = totalSent s + 1
    /\ totalDelivered s' + totalFailed s' = totalDelivered s + totalFailed s + 1
    /\ (success response = true -> totalDelivered s' = totalDelivered s + 1).
Proof.
  unfold kairos_sendSMS. destruct (Date_now w) as [t0 w1].
  destruct (validateParameters _ _ _) as [err|].
  - destruct (Date_now w1) as [used w2]. eexists _, _, _. split; [reflexivity|].
    simpl. repeat split; try lia; try discriminate.
  - destruct (sdk_send _ w1) as [outcome w2]. destruct (Date_now w2) as [t1 w3].
    destruct (Date_now w3) as [used w4]. destruct outcome as [response|error].
    + eexists _, _, _. split; [reflexivity|].
      split; [apply parseKairosResponse_providerId|]. simpl.
      split; [reflexivity|]. split; [destruct (kairos_success response); lia|].
      intros H. apply parseKairosResponse_success in H. destruct H as [-> _]. reflexivity.
    + eexists _, _, _. split; [reflexivity|].
      split; [apply handleKairosError_providerId|]. simpl.
      split; [reflexivity|]. split; [lia|].
      rewrite handleKairosError_fails. discriminate.
Qed.

(** X24.  With parameters that do not pass [validateParameters] the Kairos
    [sendSMS] does not reach the SDK: the world afterwards is the world
    after two readings of the clock.  It answers [invalid_parameters] with
    the validation message and code 1702, and records a failed attempt
    without a latency, so the average latency stays as it was. *)
Theorem kairos_invalid_parameters (cfg : SMSProviderConfig) (options : SendSMSOptions)
    (s : ProviderStats) (w : World) (validationError : string) :
  validateParameters (recipient options) (message options) (senderId options)
  = Some validationError ->
  exists s',
    kairos_sendSMS Date_now sdk_send cfg options s w
    = (Normal (mkResponse false invalid_parameters None (Some validationError) (Some "1702")
                          (providerIdOf (name cfg)) None None None),
       s', snd (Date_now (snd (Date_now w))))
    /\ totalFailed s' = totalFailed s + 1
    /\ totalDelivered s' = totalDelivered s
    /\ avgLatency s' = avgLatency s.
Proof.
  intros V. unfold kairos_sendSMS. destruct (Date_now w) as [t0 w1]. rewrite V. simpl.
  destruct (Date_now w1) as [used w2]. eexists. split; [reflexivity|]. repeat split.
Qed.

(** X25.  The Kairos [sendSMS] returns [success = true] only for an answer
    of the SDK with [success] and status code 200, but records an attempt
    as delivered for every answer with [success]: when the SDK answers
    [success] with another status code, the response has [success = false]
    while the attempt is counted as delivered and not as failed. *)
Theorem kairos_delivered_without_200 (cfg : SMSProviderConfig) (options : SendSMSOptions)
    (s : ProviderStats) (w : World) (answer : KairosResponse) :
  validateParameters (recipient options) (message options) (senderId options) = None ->
  fst (sdk_send (mkKairosPayload (recipient options) (senderId options) (message options))
                (snd (Date_now w)))
  = KairosAnswer answer ->
  kairos_success answer = true ->
  kairos_statusCode answer <> Some 200 ->
  exists response s' w',
    kairos_sendSMS Date_now sdk_send cfg options s w = (Normal response, s', w')
    /\ success response = false
    /\ status response = mapKairosStatus (kairos_statusCode answer)
    /\ totalDelivered s' = totalDelivered s + 1
    /\ totalFailed s' = totalFailed s.
Proof.
  intros V A Hs Hc. unfold kairos_sendSMS. destruct (Date_now w) as [t0 w1]. rewrite V.
  simpl in A. destruct (sdk_send _ w1) as [outcome w2]. simpl in A. subst outcome.
  destruct (Date_now w2) as [t1 w3]. destruct (Date_now w3) as [used w4].
  eexists _, _, _. split; [reflexivity|]. simpl. rewrite Hs.
  assert (P : success (parseKairosResponse cfg answer (messageId options)) = false).
  { destruct (success (parseKairosResponse cfg answer (messageId options))) eqn:E;
      [|reflexivity].
    apply parseKairosResponse_success in E. destruct E as [_ E]. contradiction. }
  split; [exact P|]. split; [|split; reflexivity].
  unfold parseKairosResponse in *. destruct (_ && _); [discriminate|reflexivity].
Qed.

Lemma or_string_truthy (o : option string) (d : string) :
  d <> "" -> truthy_string (Some (or_string o d)) = true.
Proof.
  intros Hd. unfold or_string, truthy_string.
  destruct o as [x|]; [destruct (String.eqb_spec x "")|];
    apply negb_true_iff, String.eqb_neq; assumption.
Qed.

(** X26.  When the balance lookup of the Kairos SDK fails, by an answer
    without success or by throwing a value other than [null] and
    [undefined], [checkBalance] reports a balance of 0 with an error; so
    [healthCheck] reports the provider unhealthy while [testConnection]
    answers [true].  When the lookup is rejected with [null] or
    [undefined], [checkBalance] itself throws, on reading [error.message];
    then [testConnection] answers [false] and [healthCheck] reports the
    provider unhealthy. *)
Theorem kairos_balance_failure (h : Heap World) (ref : nat) (key : string)
    (p : BaseSMSProvider World) :
  providers h !! ref = Some (key, p) ->
  checkBalance p = kairos_checkBalance sdk_balance ->
  (balanceLookupFailed (fst (sdk_balance (world h))) ->
   (exists b, fst (call_checkBalance ref h) = Normal b
              /\ (balance b == 0)%Q /\ truthy_string (balance_error b) = true)
   /\ fst (testConnection ref h) = Normal true
   /\ exists report, fst (healthCheck ref h) = Normal report /\ healthy report = false)
  /\ (fst (sdk_balance (world h)) = inr nullish ->
      (exists typeError, fst (call_checkBalance ref h) = Throw typeError)
      /\ fst (testConnection ref h) = Normal false
      /\ exists report,
           fst (healthCheck ref h) = Normal report
           /\ healthy report = false /\ health_balance report = None).
Proof.
  intros Hp Hm. split.
  - intros Hfail.
    assert (C : exists text,
               fst (call_checkBalance ref h) = Normal (mkBalance 0 "GHS" (Some text))
               /\ truthy_string (Some text) = true).
    { unfold call_checkBalance. rewrite Hp, Hm. unfold kairos_checkBalance.
      destruct (sdk_balance (world h)) as [[answer|[|message code]] w1]; simpl in Hfail.
      - rewrite Hfail. simpl. eexists. split; [reflexivity|].
        apply or_string_truthy. discriminate.
      - contradiction.
      - simpl. eexists. split; [reflexivity|]. apply or_string_truthy. discriminate. }
    destruct C as (text & C & Ht).
    split; [|split].
    + eexists. split; [exact C|]. split; [reflexivity|exact Ht].
    + unfold testConnection, try_catch, bind, ret.
      destruct (call_checkBalance ref h) as [o h1]. simpl in C. subst o. reflexivity.
    + exists (healthOf (Normal (mkBalance 0 "GHS" (Some text)))). split.
      * rewrite healthCheck_call, C. reflexivity.
      * unfold healthOf. cbn [balance_error]. rewrite Ht. reflexivity.
  - intros Hnull.
    assert (C : fst (call_checkBalance ref h) = Throw cannotReadProperties).
    { unfold call_checkBalance. rewrite Hp, Hm. unfold kairos_checkBalance.
      destruct (sdk_balance (world h)) as [outcome w1]. simpl in Hnull. subst outcome.
      reflexivity. }
    split; [eauto|]. split.
    + unfold testConnection, try_catch, bind, ret.
      destruct (call_checkBalance ref h) as [o h1]. simpl in C. subst o. reflexivity.
    + rewrite healthCheck_call, C. eexists. split; [reflexivity|]. split; reflexivity.
Qed.

End KairosFacts.

Lemma kairos_invalid_parameters_witness :
  exists s',
    kairos_sendSMS KairosSamples.clock KairosSamples.sdkCreated kairosConfig
      KairosSamples.localNumber initialStats 0
    = (Normal (mkResponse false invalid_parameters None
                 (Some "Invalid Ghana phone number format. Must be 233XXXXXXXXX")
                 (Some "1702") (providerIdOf (name kairosConfig)) None None None),
       s', snd (KairosSamples.clock (snd (KairosSamples.clock 0))))
    /\ totalFailed s' = totalFailed initialStats + 1
    /\ totalDelivered s' = totalDelivered initialStats
    /\ avgLatency s' = avgLatency initialStats.
Proof.
  apply (kairos_invalid_parameters KairosSamples.clock KairosSamples.sdkCreated kairosConfig
           KairosSamples.localNumber initialStats 0).
  reflexivity.
Defined.

Lemma kairos_delivered_without_200_witness :
  exists response s' w',
    kairos_sendSMS KairosSamples.clock KairosSamples.sdkCreated kairosConfig
      Samples.options initialStats 0
    = (Normal response, s', w')
    /\ success response = false
    /\ status response = mapKairosStatus (Some 201)
    /\ totalDelivered s' = totalDelivered initialStats + 1
    /\ totalFailed s' = totalFailed initialStats.
Proof.
  apply (kairos_delivered_without_200 KairosSamples.clock KairosSamples.sdkCreated
           kairosConfig Samples.options initialStats 0
           (mkKairosResponse true (Some 201) (Some "Created") None None)).
  - reflexivity.
  - reflexivity.
  - reflexivity.
  - discriminate.
Defined.

(** An SDK whose balance lookup times out, and one whose balance lookup is
    rejected with [undefined]. *)
Lemma kairos_balance_failure_witness :
  ((exists b, fst (call_checkBalance 0 KairosSamples.registry) = Normal b
              /\ (balance b == 0)%Q /\ truthy_string (balance_error b) = true)
   /\ fst (testConnection 0 KairosSamples.registry) = Normal true
   /\ exists report,
        fst (healthCheck 0 KairosSamples.registry) = Normal report /\ healthy report = false)
  /\ ((exists typeError,
         fst (call_checkBalance 0 KairosSamples.registryRejected) = Throw typeError)
      /\ fst (testConnection 0 KairosSamples.registryRejected) = Normal false
      /\ exists report,
           fst (healthCheck 0 KairosSamples.registryRejected) = Normal report
           /\ healthy report = false /\ health_balance report = None).
Proof.
  split.
  - apply (proj1 (kairos_balance_failure KairosSamples.sdkBalanceDown KairosSamples.registry 0
                    "kairos" KairosSamples.kairos eq_refl eq_refl)).
    exact I.
  - apply (proj2 (kairos_balance_failure KairosSamples.sdkBalanceRejected
                    KairosSamples.registryRejected 0 "kairos" _ eq_refl eq_refl)).
    reflexivity.
Defined.

(** ** Errors that stay inside, and those that do not *)

(** X27.  [checkDeliveryStatus] returns whenever it probes the providers,
    that is without a name or with a name that is not registered, whatever
    the providers do, rejecting with [null] or [undefined] included.  Given
    the name of a registered provider it returns unless the query on that
    provider rejects with [null] or [undefined], and then it throws.
    [healthCheckAll] returns when no balance check rejects with [null] or
    [undefined]; at the first one that does, it throws, without having
    checked the providers registered after that one. *)
Theorem status_and_health_errors {World : Type} (h : Heap World) :
  (forall id providerName,
      truthy_string providerName = false
      \/ SMSProviderFactory.getProvider h (or_string providerName "") = None ->
      exists st h', SMSProviderRouter.checkDeliveryStatus id providerName h = (Normal st, h'))
  /\ (forall id providerName ref,
         truthy_string providerName = true ->
         SMSProviderFactory.getProvider h (or_string providerName "") = Some ref ->
         (readable (fst (call_getDeliveryStatus ref id h)) ->
          exists st h',
            SMSProviderRouter.checkDeliveryStatus id providerName h = (Normal st, h'))
         /\ (fst (call_getDeliveryStatus ref id h) = Throw nullish ->
             exists typeError,
               fst (SMSProviderRouter.checkDeliveryStatus id providerName h)
               = Throw typeError))
  /\ (forall outs hN,
         callEach call_checkBalance (SMSProviderFactory.getAllProviders h) h = (outs, hN) ->
         (Forall readable outs ->
          exists results, SMSProviderFactory.healthCheckAll h = (Normal results, hN))
         /\ (forall k,
               outs !! k = Some (Throw nullish) ->
               (forall j o, (j < k)%nat -> outs !! j = Some o -> readable o) ->
               exists typeError h',
                 SMSProviderFactory.healthCheckAll h = (Throw typeError, h')
                 /\ calls h' =
                    (calls h
                     ++ zip_with CallCheckBalance
                          (take (S k) (SMSProviderFactory.getAllProviders h))
                          (take (S k) outs))%list)).
Proof.
  split; [|split].
  - intros id providerName Hn.
    rewrite (checkDeliveryStatus_probing id providerName h Hn). apply probeEach_returns.
  - intros id providerName ref Ht Hg.
    rewrite (checkDeliveryStatus_named id providerName h ref Ht Hg). cbn [fst].
    split.
    + intros Hr. destruct (fst (call_getDeliveryStatus ref id h)) as [st|[|message code]];
        [simpl; eauto|now contradiction Hr|simpl; eauto].
    + intros ->. eexists. reflexivity.
  - intros outs hN E.
    set (entries := imap (fun ref (entry : string * BaseSMSProvider World) => (ref, fst entry))
                         (providers h)).
    assert (Ee : map fst entries = SMSProviderFactory.getAllProviders h)
      by apply entries_refs.
    split.
    + intros F. exists (reportsOf entries outs ∅).
      unfold SMSProviderFactory.healthCheckAll, bind, get_heap.
      apply healthCheckEach_reports; [|exact F]. fold entries. rewrite Ee. exact E.
    + intros k Hk Hbefore.
      destruct (healthCheckEach_rejected entries ∅ k h outs hN) as (h' & T & C);
        [rewrite Ee; exact E|exact Hk|exact Hbefore|].
      exists cannotReadProperties, h'. split; [exact T|]. rewrite Ee in C.
      eapply (callEach_calls call_checkBalance CallCheckBalance call_checkBalance_logged);
        [|exact C].
      apply Forall_take, Forall_forall. intros ref Hin.
      now apply elem_of_getAllProviders in Hin.
Qed.

(** With the name of the provider that rejects with [undefined] the status
    check throws; and the health check of a registry whose first provider
    rejects with [undefined] throws after that one balance check. *)
Lemma status_and_health_errors_witness :
  (exists typeError,
      fst (SMSProviderRouter.checkDeliveryStatus "abc123" (Some "N") Samples.registryFailover)
      = Throw typeError)
  /\ exists typeError h',
       SMSProviderFactory.healthCheckAll Samples.registryFailover = (Throw typeError, h')
       /\ calls h' =
          (calls Samples.registryFailover
           ++ zip_with CallCheckBalance
                (take 1 (SMSProviderFactory.getAllProviders Samples.registryFailover))
                (take 1 [Throw nullish;
                         Normal (mkBalance 0 "USD" (Some "Account suspended"));
                         Normal (Samples.funds 100)]))%list.
Proof.
  split.
  - apply (proj2 (proj1 (proj2 (status_and_health_errors Samples.registryFailover))
                    "abc123" (Some "N") 0%nat eq_refl eq_refl)).
    reflexivity.
  - apply (proj2 (proj2 (proj2 (status_and_health_errors Samples.registryFailover))
                    [Throw nullish; Normal (mkBalance 0 "USD" (Some "Account suspended"));
                     Normal (Samples.funds 100)]
                    (snd (callEach call_checkBalance
                            (SMSProviderFactory.getAllProviders Samples.registryFailover)
                            Samples.registryFailover))
                    eq_refl) 0%nat).
    + reflexivity.
    + intros j o Hj. lia.
Defined.
